(** * Notification service: preference gate, push fan-out, batch coordinator

    A shallow embedding of the service layer
    (NotificationService: shouldSendNotification, getUserFCMTokens,
    sendPushNotification, sendToMultipleUsers, registerToken,
    getPreferences, updatePreferences), of the pre-save hook of the
    FCMToken model, of NotificationPreferences.createDefault and of
    NotificationController.sendNotification, followed by removeToken,
    NotificationController.sendBatchNotification, the in-app half of the
    service (module [InApp]: createInAppNotification, getInAppNotifications,
    getUnreadNotificationCount, markInAppNotificationAsRead,
    markAllInAppNotificationsAsRead, deleteInAppNotification, with the
    InAppNotification schema and its pre-save hook) and authMiddleware
    (module [Auth]).

    Modelling choices
    - JavaScript strings are sequences of UTF-16 code units ([list N]), so
      that [String.prototype.trim] can be given its real white-space set.
    - Values that reach the code from a request body are dynamically typed
      ([Js.value]); truthiness follows ToBoolean.
    - A document is the plain object the service reads and writes; a
      collection is the list of its documents, in insertion order.  The
      unique indexes of the schemas are enforced by the insert operations.
    - Every asynchronous call is a step of a state-and-exception monad.  The
      state holds both collections and the trace of I/O operations performed
      so far; unlike a state-over-error transformer, the state survives a
      thrown exception, as the database does.
    - The environment decides which I/O operation throws ([faults], indexed
      by the position of the operation in the trace), what the push
      transport answers ([fcm_send]), what [new Date()] returns ([clock])
      and what a mongoose document has under a name that is none of its
      seven sections ([doc_member]: a path, a method, or nothing).
    - A category is the name of one of the seven sections of a preference
      document, another string ([OtherKey]) or, from an untyped caller, a
      value that is no string ([NotAString]).  The gate reads the property
      the category converts to and compares the category itself with
      [===], as the code does.
    - The schemas validate what is saved: the strings they require are not
      empty.
    - Counters are natural numbers (JavaScript numbers are exact on them far
      beyond any number of device tokens).  The timestamps [createdAt] and
      [updatedAt] maintained by mongoose are left out of the two collections
      of the push half (the in-app half sorts by them and has them), and so
      is logging. *)

From Stdlib Require Import List String Ascii ZArith NArith Bool Arith Lia Permutation.
From Stdlib Require Import Sorted DecimalString.
Import ListNotations.

Set Warnings "-register-all".
#[local] Open Scope string_scope.
#[local] Open Scope list_scope.

(** ** JavaScript values *)

Module Js.

(** A string is its sequence of UTF-16 code units. *)
Definition jstring := list N.

Definition js (s : string) : jstring :=
  List.map N_of_ascii (list_ascii_of_string s).

Fixpoint str_eqb (a b : jstring) : bool :=
  match a, b with
  | [], [] => true
  | x :: a', y :: b' => N.eqb x y && str_eqb a' b'
  | _, _ => false
  end.

(** WhiteSpace and LineTerminator code points, the characters that
    [String.prototype.trim] strips. *)
Definition is_space (c : N) : bool :=
  ((9 <=? c) && (c <=? 13) ||
   (c =? 32) || (c =? 160) || (c =? 5760) ||
   (8192 <=? c) && (c <=? 8202) ||
   (c =? 8232) || (c =? 8233) || (c =? 8239) || (c =? 8287) ||
   (c =? 12288) || (c =? 65279))%N.

Fixpoint trimStart (s : jstring) : jstring :=
  match s with
  | [] => []
  | c :: s' => if is_space c then trimStart s' else s
  end.

Definition trim (s : jstring) : jstring :=
  rev (trimStart (rev (trimStart s))).

Definition is_empty (s : jstring) : bool :=
  match s with [] => true | _ :: _ => false end.

Inductive value : Type :=
| VUndefined
| VNull
| VBool (b : bool)
| VNum (n : Z)
| VStr (s : jstring)
| VArr (items : list value)
| VObj (fields : list (string * value)).

(** ToBoolean. *)
Definition truthy (v : value) : bool :=
  match v with
  | VUndefined | VNull => false
  | VBool b => b
  | VNum n => negb (n =? 0)%Z
  | VStr s => negb (is_empty s)
  | VArr _ | VObj _ => true
  end.

(** [a || b] *)
Definition or_else (a b : value) : value :=
  if truthy a then a else b.

(** Number::toString on an integer, in decimal notation (which JavaScript
    uses below 10^21, far above the integers a number holds exactly). *)
Definition numberToString (n : Z) : jstring :=
  js (NilZero.string_of_int (Z.to_int n)).

(** An own property of an object literal. *)
Definition hasOwn (k : string) (fields : list (string * value)) : bool :=
  existsb (fun f => String.eqb (fst f) k) fields.

(** ToString, as the conversion of a value to a property key performs it;
    [None] when it throws a TypeError.  An array is joined with commas, its
    null and undefined elements giving the empty string.  An object literal
    gives [object Object] through Object.prototype.toString, unless it has a
    toString property of its own: that one is no function, valueOf returns
    no primitive, and the conversion throws. *)
Fixpoint toStringValue (v : value) : option jstring :=
  match v with
  | VUndefined => Some (js "undefined")
  | VNull => Some (js "null")
  | VBool true => Some (js "true")
  | VBool false => Some (js "false")
  | VNum n => Some (numberToString n)
  | VStr s => Some s
  | VArr l =>
      (fix join (l : list value) : option jstring :=
         match l with
         | [] => Some []
         | x :: rest =>
             match match x with
                   | VUndefined | VNull => Some []
                   | _ => toStringValue x
                   end, join rest with
             | Some s, Some r =>
                 Some (match rest with [] => s | _ :: _ => s ++ js "," ++ r end)
             | _, _ => None
             end
         end) l
  | VObj fields =>
      if hasOwn "toString" fields then None else Some (js "[object Object]")
  end.

(** [v[k]] on an object literal, the last of two equal keys counting;
    undefined on anything else but for the methods of an array, which are
    not [true] either. *)
Definition field (k : string) (v : value) : value :=
  match v with
  | VObj fields =>
      match find (fun f => String.eqb (fst f) k) (rev fields) with
      | Some f => snd f
      | None => VUndefined
      end
  | _ => VUndefined
  end.

(** [x === true] on a value *)
Definition is_vtrue (v : value) : bool :=
  match v with VBool true => true | _ => false end.

End Js.

Import Js.

(** ** Exceptions, results and the monad of service calls *)

Record Exn : Type := mkExn {
  exn_code : option Z;          (* error.code, e.g. 11000 for a duplicate key *)
  exn_message : string;         (* error.message *)
  exn_status : option Z         (* error.statusCode of the AppError classes *)
}.

Definition jsError (msg : string) : Exn := mkExn None msg None.

Inductive Result (A : Type) : Type :=
| Ok (a : A)
| Throw (e : Exn).
Arguments Ok {A} a.
Arguments Throw {A} e.

(** *** Documents *)

Inductive Platform := Ios | Android | Web.

(** IFCMTokenDocument *)
Record TokenDoc : Type := mkToken {
  tok_id : nat;
  tok_userId : jstring;
  tok_token : jstring;
  tok_platform : Platform;
  tok_deviceId : option jstring;
  tok_lastActive : Z
}.

(** The channel flags of one category.  A flag that is [None] is a key the
    object does not have. *)
Record Channels : Type := mkChannels {
  email : option bool;
  push : option bool;
  sms : option bool
}.

(** INotificationPreferencesDocument.  A section that is [None] is a section
    the document does not have. *)
Record PrefDoc : Type := mkPrefs {
  pref_userId : jstring;
  transactional : option Channels;
  taskUpdates : option Channels;
  taskReminders : option Channels;
  keywordTaskAlerts : option Channels;
  recommendedTaskAlerts : option Channels;
  helpfulInformation : option Channels;
  updatesNewsletters : option Channels
}.

(** INotificationPreferences, as returned by getPreferences and
    updatePreferences: every section is there. *)
Record Preferences : Type := mkPreferences {
  r_transactional : Channels;
  r_taskUpdates : Channels;
  r_taskReminders : Channels;
  r_keywordTaskAlerts : Channels;
  r_recommendedTaskAlerts : Channels;
  r_helpfulInformation : Channels;
  r_updatesNewsletters : Channels
}.

(** *** The push transport *)

(** What is handed to [sendEachForMulticast] besides the tokens.  The data
    map [{type, ...data}] is kept as its two ingredients; the android and
    apns blocks are constants. *)
Record Message : Type := mkMessage {
  msg_title : value;
  msg_body : value;
  msg_type : value;
  msg_data : value
}.

(** SendResponse: [err_code] is [resp.error?.code]. *)
Record SendResponse : Type := mkResp {
  success : bool;
  err_code : option string
}.

(** BatchResponse *)
Record BatchResponse : Type := mkBatch {
  responses : list SendResponse;
  successCount : nat;
  failureCount : nat
}.

(** *** I/O operations, state and environment *)

Inductive Event : Type :=
| EvPrefFindOne (userId : jstring)
| EvPrefCreate (userId : jstring)
| EvPrefSave (userId : jstring)
| EvTokFind (userId : jstring)
| EvTokFindOne (token : jstring)
| EvTokInsert (token : jstring)
| EvTokSave (token : jstring)
| EvTokDeleteDevice (userId deviceId : jstring)
| EvTokUpdateMany (tokens : list jstring)
| EvTokDeleteMany (tokens : list jstring)
| EvTransport (tokens : list jstring) (m : Message).

Definition is_pref_event (e : Event) : bool :=
  match e with
  | EvPrefFindOne _ | EvPrefCreate _ | EvPrefSave _ => true
  | _ => false
  end.

Record Store : Type := mkStore {
  prefs : list PrefDoc;          (* collection NotificationPreferences *)
  fcm : list TokenDoc;           (* collection FCMToken *)
  next_id : nat;                 (* source of fresh _id values *)
  trace : list Event             (* I/O operations so far, oldest first *)
}.

Record Env : Type := mkEnv {
  faults : nat -> option Exn;
  fcm_send : list jstring -> Message -> BatchResponse;
  clock : Z;
  doc_member : PrefDoc -> jstring -> value
}.

Definition M (A : Type) : Type := Env -> Store -> Result A * Store.

Definition ret {A} (a : A) : M A := fun _ st => (Ok a, st).

Definition throw {A} (e : Exn) : M A := fun _ st => (Throw e, st).

Definition bind {A B} (m : M A) (k : A -> M B) : M B :=
  fun env st =>
    match m env st with
    | (Ok a, st') => k a env st'
    | (Throw e, st') => (Throw e, st')
    end.

(** [try { m } catch (error) { h error }] *)
Definition try_catch {A} (m : M A) (h : Exn -> M A) : M A :=
  fun env st =>
    match m env st with
    | (Ok a, st') => (Ok a, st')
    | (Throw e, st') => h e env st'
    end.

Definition now : M Z := fun env st => (Ok (clock env), st).

Declare Scope service_scope.
Delimit Scope service_scope with service.
Notation "x <- m ;; k" := (bind m (fun x => k))
  (at level 61, m at next level, right associativity) : service_scope.
Notation "m ;;; k" := (bind m (fun _ => k))
  (at level 61, right associativity) : service_scope.
Local Open Scope service_scope.

Definition log (ev : Event) (st : Store) : Store :=
  mkStore (prefs st) (fcm st) (next_id st) (trace st ++ [ev]).

(** One awaited call: it is recorded in the trace, then it either throws what
    the environment says or performs [act] on the collections. *)
Definition io {A} (ev : Event) (act : Env -> Store -> Result A * Store) : M A :=
  fun env st =>
    match faults env (List.length (trace st)) with
    | Some e => (Throw e, log ev st)
    | None => act env (log ev st)
    end.

(** ** Collection NotificationPreferences *)

Inductive Category : Type :=
| Transactional
| TaskUpdates
| TaskReminders
| KeywordTaskAlerts
| RecommendedTaskAlerts
| HelpfulInformation
| UpdatesNewsletters
| OtherKey (name : jstring)    (* any other string *)
| NotAString (v : value).      (* a value that is no string, from an untyped caller *)

Inductive Channel := Push | Email | Sms.

Definition categoryOfName (s : jstring) : Category :=
  if str_eqb s (js "transactional") then Transactional
  else if str_eqb s (js "taskUpdates") then TaskUpdates
  else if str_eqb s (js "taskReminders") then TaskReminders
  else if str_eqb s (js "keywordTaskAlerts") then KeywordTaskAlerts
  else if str_eqb s (js "recommendedTaskAlerts") then RecommendedTaskAlerts
  else if str_eqb s (js "helpfulInformation") then HelpfulInformation
  else if str_eqb s (js "updatesNewsletters") then UpdatesNewsletters
  else OtherKey s.

(** The JavaScript value a category is. *)
Definition valueOfCategory (c : Category) : value :=
  match c with
  | Transactional => VStr (js "transactional")
  | TaskUpdates => VStr (js "taskUpdates")
  | TaskReminders => VStr (js "taskReminders")
  | KeywordTaskAlerts => VStr (js "keywordTaskAlerts")
  | RecommendedTaskAlerts => VStr (js "recommendedTaskAlerts")
  | HelpfulInformation => VStr (js "helpfulInformation")
  | UpdatesNewsletters => VStr (js "updatesNewsletters")
  | OtherKey name => VStr name
  | NotAString v => v
  end.

(** The property key [obj[category]] reads: ToPropertyKey of the value;
    [None] when the conversion throws. *)
Definition propertyKey (c : Category) : option jstring :=
  toStringValue (valueOfCategory c).

(** The category by the section its property key names: a category that is
    the name of a section in another guise (an array holding the name, say)
    reads the same property as the name itself. *)
Definition named (c : Category) : Category :=
  match c with
  | OtherKey _ | NotAString _ =>
      match propertyKey c with
      | Some key => match categoryOfName key with
                    | OtherKey _ | NotAString _ => c
                    | k => k
                    end
      | None => c
      end
  | _ => c
  end.

Definition sectionAt (p : PrefDoc) (c : Category) : option Channels :=
  match c with
  | Transactional => transactional p
  | TaskUpdates => taskUpdates p
  | TaskReminders => taskReminders p
  | KeywordTaskAlerts => keywordTaskAlerts p
  | RecommendedTaskAlerts => recommendedTaskAlerts p
  | HelpfulInformation => helpfulInformation p
  | UpdatesNewsletters => updatesNewsletters p
  | OtherKey _ | NotAString _ => None
  end.

(** [preferences[category]] when the key names one of the seven sections of
    the schema: the stored section. *)
Definition section (p : PrefDoc) (c : Category) : option Channels :=
  sectionAt p (named c).

(** Whether the key names one of the seven sections. *)
Definition names_section (c : Category) : bool :=
  match named c with
  | OtherKey _ | NotAString _ => false
  | _ => true
  end.

(** [channelPrefs[channel]] *)
Definition flag (c : Channels) (ch : Channel) : option bool :=
  match ch with
  | Push => push c
  | Email => email c
  | Sms => sms c
  end.

(** [x === true] *)
Definition is_true (f : option bool) : bool :=
  match f with Some true => true | _ => false end.

(** ['k' in obj] *)
Definition has (f : option bool) : bool :=
  match f with Some _ => true | None => false end.

Definition all3 (e p s : bool) : Channels := mkChannels (Some e) (Some p) (Some s).
Definition pushOnly (p : bool) : Channels := mkChannels None (Some p) None.

(** The document built by NotificationPreferencesSchema.statics.createDefault *)
Definition defaultDoc (userId : jstring) : PrefDoc :=
  mkPrefs userId
    (Some (all3 false true true))
    (Some (all3 true true true))
    (Some (all3 true true true))
    (Some (pushOnly true))
    (Some (pushOnly true))
    (Some (all3 true true true))
    (Some (all3 true true true)).

Definition owned_by (userId : jstring) (p : PrefDoc) : bool :=
  str_eqb (pref_userId p) userId.

Definition dupKey : Exn :=
  mkExn (Some 11000%Z) "E11000 duplicate key error" None.

Module PrefsDb.

(** NotificationPreferences.findOne({ userId }) *)
Definition findOne (userId : jstring) : M (option PrefDoc) :=
  io (EvPrefFindOne userId)
     (fun _ st => (Ok (find (owned_by userId) (prefs st)), st)).

(** createDefault(userId): [this.create] under the unique index on userId *)
Definition createDefault (userId : jstring) : M PrefDoc :=
  io (EvPrefCreate userId)
     (fun _ st =>
        if existsb (owned_by userId) (prefs st)
        then (Throw dupKey, st)
        else (Ok (defaultDoc userId),
              mkStore (prefs st ++ [defaultDoc userId]) (fcm st) (next_id st) (trace st))).

(** doc.save() of a document that was read from the collection.  The unique
    index on userId makes the user id a key of the collection. *)
Definition save (p : PrefDoc) : M unit :=
  io (EvPrefSave (pref_userId p))
     (fun _ st =>
        (Ok tt,
         mkStore (List.map (fun q => if owned_by (pref_userId p) q then p else q) (prefs st))
                 (fcm st) (next_id st) (trace st))).

End PrefsDb.

Definition code_is (e : Exn) (c : Z) : bool :=
  match exn_code e with Some k => Z.eqb k c | None => false end.

(** The get-or-create sequence that opens shouldSendNotification,
    getPreferences and updatePreferences: findOne, createDefault when there
    is no record, and a second findOne when the creation hits a duplicate
    key. *)
Definition findOrCreateDefault (userId : jstring) : M (option PrefDoc) :=
  preferences <- PrefsDb.findOne userId ;;
  match preferences with
  | Some p => ret (Some p)
  | None =>
      try_catch
        (p <- PrefsDb.createDefault userId ;; ret (Some p))
        (fun error =>
           if code_is error 11000
           then PrefsDb.findOne userId
           else throw error)
  end.

(** [!userId || typeof userId !== 'string' || userId.trim() === ''] *)
Definition invalidUserId (userId : value) : bool :=
  negb (truthy userId) ||
  match userId with
  | VStr s => is_empty (trim s)
  | _ => true
  end.

(** The string behind a user id that passed the validation. *)
Definition as_userId (userId : value) : option jstring :=
  if invalidUserId userId then None
  else match userId with VStr s => Some s | _ => None end.

Definition is_push (ch : Channel) : bool :=
  match ch with Push => true | _ => false end.

(** [category === 'keywordTaskAlerts' || category === 'recommendedTaskAlerts']:
    strict equality, which only a string passes. *)
Definition push_only_category (c : Category) : bool :=
  match valueOfCategory c with
  | VStr s => str_eqb s (js "keywordTaskAlerts") || str_eqb s (js "recommendedTaskAlerts")
  | _ => false
  end.

Definition typeError (msg : string) : Exn := mkExn None msg None.

(** [preferences[category]] when it is none of the stored sections: a
    section the record lacks is undefined, and any other key reads what a
    mongoose document has under it (a path such as userId or _id, a method,
    or nothing), which the environment knows. *)
Definition member (p : PrefDoc) (category : Category) : M value :=
  fun env st =>
    match propertyKey category with
    | None => (Throw (typeError "Cannot convert object to primitive value"), st)
    | Some key =>
        if names_section category then (Ok VUndefined, st)
        else (Ok (doc_member env p key), st)
    end.

(** ['push' in x && 'email' in x && 'sms' in x] on such a value: the
    operator throws on a primitive (the message goes on to name it); an array has push from its prototype and
    neither email nor sms; an object is modelled by the properties [in]
    finds on it. *)
Definition hasChannels (x : value) : M bool :=
  match x with
  | VObj fields => ret (hasOwn "push" fields && hasOwn "email" fields && hasOwn "sms" fields)
  | VArr _ => ret false
  | _ => throw (typeError "Cannot use 'in' operator to search for 'push'")
  end.

Definition channelName (ch : Channel) : string :=
  match ch with
  | Push => "push"
  | Email => "email"
  | Sms => "sms"
  end.

(** ** NotificationService *)

Definition shouldSendNotification
    (userId : value) (category : Category) (channel : Channel) : M bool :=
  try_catch
    (match as_userId userId with
     | None => ret false
     | Some uid =>
         preferences <- findOrCreateDefault uid ;;
         match preferences with
         | None => ret true
         | Some p =>
             match section p category with
             | Some categoryPrefs =>
                 if push_only_category category
                 then ret (is_push channel && is_true (push categoryPrefs))
                 else if has (push categoryPrefs) && has (email categoryPrefs)
                         && has (sms categoryPrefs)
                 then ret (is_true (flag categoryPrefs channel))
                 else ret false
             | None =>
                 (* the same statements on a property that is no stored section *)
                 categoryPrefs <- member p category ;;
                 if negb (truthy categoryPrefs) then ret true
                 else if push_only_category category
                 then ret (is_push channel && is_vtrue (field "push" categoryPrefs))
                 else
                   complete <- hasChannels categoryPrefs ;;
                   if complete
                   then ret (is_vtrue (field (channelName channel) categoryPrefs))
                   else ret false
             end
         end
     end)
    (fun _ => ret true).

Definition or_default (s : option Channels) (d : Channels) : Channels :=
  match s with Some c => c | None => d end.

(** The object literal returned by getPreferences and updatePreferences;
    [preferences] is [None] when the variable holds null. *)
Definition preferencesOf (preferences : option PrefDoc) : Preferences :=
  let get (f : PrefDoc -> option Channels) :=
    match preferences with Some p => f p | None => None end in
  mkPreferences
    (or_default (get transactional) (all3 false true true))
    (or_default (get taskUpdates) (all3 true true true))
    (or_default (get taskReminders) (all3 true true true))
    (or_default (get keywordTaskAlerts) (pushOnly true))
    (or_default (get recommendedTaskAlerts) (pushOnly true))
    (or_default (get helpfulInformation) (all3 true true true))
    (or_default (get updatesNewsletters) (all3 true true true)).

Definition getPreferences (userId : value) : M Preferences :=
  try_catch
    (match as_userId userId with
     | None =>
         ret (mkPreferences
                (all3 false true true)
                (all3 true true true)
                (all3 true true true)
                (pushOnly true)
                (pushOnly true)
                (all3 true true true)
                (all3 true true true))
     | Some uid =>
         preferences <- findOrCreateDefault uid ;;
         ret (preferencesOf preferences)
     end)
    (fun error =>
       throw (jsError ("Failed to fetch preferences: " ++ exn_message error))).

(** [Partial<INotificationPreferences>], the argument of updatePreferences:
    the sections the caller sent, each with the flags the caller sent. *)
Record PrefsInput : Type := mkInput {
  i_transactional : option Channels;
  i_taskUpdates : option Channels;
  i_taskReminders : option Channels;
  i_keywordTaskAlerts : option Channels;
  i_recommendedTaskAlerts : option Channels;
  i_helpfulInformation : option Channels;
  i_updatesNewsletters : option Channels
}.

Definition override (old new : option bool) : option bool :=
  match new with Some b => Some b | None => old end.

(** [{ ...old, ...new }]; spreading undefined adds no key. *)
Definition spread (old : option Channels) (new : Channels) : Channels :=
  match old with
  | Some o => mkChannels (override (email o) (email new))
                         (override (push o) (push new))
                         (override (sms o) (sms new))
  | None => new
  end.

Definition set_push_true (c : Channels) : Channels :=
  mkChannels (email c) (Some true) (sms c).

Definition set_transactional (p : PrefDoc) (c : Channels) : PrefDoc :=
  mkPrefs (pref_userId p) (Some c) (taskUpdates p) (taskReminders p)
          (keywordTaskAlerts p) (recommendedTaskAlerts p)
          (helpfulInformation p) (updatesNewsletters p).
Definition set_taskUpdates (p : PrefDoc) (c : Channels) : PrefDoc :=
  mkPrefs (pref_userId p) (transactional p) (Some c) (taskReminders p)
          (keywordTaskAlerts p) (recommendedTaskAlerts p)
          (helpfulInformation p) (updatesNewsletters p).
Definition set_taskReminders (p : PrefDoc) (c : Channels) : PrefDoc :=
  mkPrefs (pref_userId p) (transactional p) (taskUpdates p) (Some c)
          (keywordTaskAlerts p) (recommendedTaskAlerts p)
          (helpfulInformation p) (updatesNewsletters p).
Definition set_keywordTaskAlerts (p : PrefDoc) (c : Channels) : PrefDoc :=
  mkPrefs (pref_userId p) (transactional p) (taskUpdates p) (taskReminders p)
          (Some c) (recommendedTaskAlerts p)
          (helpfulInformation p) (updatesNewsletters p).
Definition set_recommendedTaskAlerts (p : PrefDoc) (c : Channels) : PrefDoc :=
  mkPrefs (pref_userId p) (transactional p) (taskUpdates p) (taskReminders p)
          (keywordTaskAlerts p) (Some c)
          (helpfulInformation p) (updatesNewsletters p).
Definition set_helpfulInformation (p : PrefDoc) (c : Channels) : PrefDoc :=
  mkPrefs (pref_userId p) (transactional p) (taskUpdates p) (taskReminders p)
          (keywordTaskAlerts p) (recommendedTaskAlerts p)
          (Some c) (updatesNewsletters p).
Definition set_updatesNewsletters (p : PrefDoc) (c : Channels) : PrefDoc :=
  mkPrefs (pref_userId p) (transactional p) (taskUpdates p) (taskReminders p)
          (keywordTaskAlerts p) (recommendedTaskAlerts p)
          (helpfulInformation p) (Some c).

(** One block [if (preferences.X) { userPreferences!.X = {...userPreferences!.X,
    ...preferences.X}; }] of updatePreferences, [post] being what follows
    the assignment inside the block.  Reading a property of null throws. *)
Definition assignSection
    (sent : option Channels)
    (get : PrefDoc -> option Channels) (set : PrefDoc -> Channels -> PrefDoc)
    (post : Channels -> Channels)
    (userPreferences : option PrefDoc) : Result (option PrefDoc) :=
  match sent with
  | None => Ok userPreferences
  | Some new =>
      match userPreferences with
      | None => Throw (typeError "Cannot read properties of null")
      | Some p => Ok (Some (set p (post (spread (get p) new))))
      end
  end.

Definition andThen {A B} (r : Result A) (k : A -> Result B) : Result B :=
  match r with Ok a => k a | Throw e => Throw e end.

(** The seven blocks, in the order of the source. *)
Definition applyInput (preferences : PrefsInput) (userPreferences : option PrefDoc)
  : Result (option PrefDoc) :=
  andThen (assignSection (i_transactional preferences)
             transactional set_transactional set_push_true userPreferences) (fun u1 =>
  andThen (assignSection (i_taskUpdates preferences)
             taskUpdates set_taskUpdates (fun c => c) u1) (fun u2 =>
  andThen (assignSection (i_taskReminders preferences)
             taskReminders set_taskReminders (fun c => c) u2) (fun u3 =>
  andThen (assignSection (i_keywordTaskAlerts preferences)
             keywordTaskAlerts set_keywordTaskAlerts (fun c => c) u3) (fun u4 =>
  andThen (assignSection (i_recommendedTaskAlerts preferences)
             recommendedTaskAlerts set_recommendedTaskAlerts (fun c => c) u4) (fun u5 =>
  andThen (assignSection (i_helpfulInformation preferences)
             helpfulInformation set_helpfulInformation (fun c => c) u5) (fun u6 =>
  assignSection (i_updatesNewsletters preferences)
             updatesNewsletters set_updatesNewsletters (fun c => c) u6)))))).

Definition lift {A} (r : Result A) : M A := fun _ st => (r, st).

Definition updatePreferences (userId : value) (preferences : PrefsInput) : M Preferences :=
  try_catch
    (match as_userId userId with
     | None => throw (jsError "Invalid userId")
     | Some uid =>
         userPreferences <- findOrCreateDefault uid ;;
         updated <- lift (applyInput preferences userPreferences) ;;
         match updated with
         | Some p => PrefsDb.save p       (* await userPreferences?.save() *)
         | None => ret tt
         end ;;;
         ret (preferencesOf updated)
     end)
    (fun error =>
       throw (jsError ("Failed to update preferences: " ++ exn_message error))).

(** ** Collection FCMToken *)

Definition mem (s : jstring) (l : list jstring) : bool :=
  existsb (str_eqb s) l.

(** [.sort({ lastActive: -1 })]: most recently active first; documents with
    the same date keep their collection order. *)
Fixpoint insertDesc (d : TokenDoc) (l : list TokenDoc) : list TokenDoc :=
  match l with
  | [] => [d]
  | x :: l' =>
      if (tok_lastActive x <=? tok_lastActive d)%Z
      then d :: l
      else x :: insertDesc d l'
  end.

Definition sortDesc (l : list TokenDoc) : list TokenDoc :=
  fold_right insertDesc [] l.

Definition touch (t : Z) (d : TokenDoc) : TokenDoc :=
  mkToken (tok_id d) (tok_userId d) (tok_token d) (tok_platform d)
          (tok_deviceId d) t.

Definition same_device (userId deviceId : jstring) (d : TokenDoc) : bool :=
  str_eqb (tok_userId d) userId &&
  match tok_deviceId d with
  | Some x => str_eqb x deviceId
  | None => false
  end.

Definition set_fcm (l : list TokenDoc) (st : Store) : Store :=
  mkStore (prefs st) l (next_id st) (trace st).

Module TokensDb.

(** FCMToken.find({ userId }).sort({ lastActive: -1 }) *)
Definition find (userId : jstring) : M (list TokenDoc) :=
  io (EvTokFind userId)
     (fun _ st =>
        (Ok (sortDesc (filter (fun d => str_eqb (tok_userId d) userId) (fcm st))), st)).

(** FCMToken.findOne({ token }) *)
Definition findOne (token : jstring) : M (option TokenDoc) :=
  io (EvTokFindOne token)
     (fun _ st => (Ok (List.find (fun d => str_eqb (tok_token d) token) (fcm st)), st)).

(** FCMToken.updateMany({ token: { $in: tokens } }, { lastActive }) *)
Definition updateMany (tokens : list jstring) (lastActive : Z) : M unit :=
  io (EvTokUpdateMany tokens)
     (fun _ st =>
        (Ok tt,
         set_fcm (List.map (fun d => if mem (tok_token d) tokens
                                     then touch lastActive d else d) (fcm st)) st)).

(** FCMToken.deleteMany({ token: { $in: tokens } }) *)
Definition deleteMany (tokens : list jstring) : M unit :=
  io (EvTokDeleteMany tokens)
     (fun _ st =>
        (Ok tt, set_fcm (filter (fun d => negb (mem (tok_token d) tokens)) (fcm st)) st)).

(** FCMTokenSchema.pre('save'): a new document that carries a device id
    first removes every other document of the same user and device. *)
Definition preSave (isNew : bool) (doc : TokenDoc) : M unit :=
  match tok_deviceId doc with
  | Some deviceId =>
      if isNew && negb (is_empty deviceId)
      then
        io (EvTokDeleteDevice (tok_userId doc) deviceId)
           (fun _ st =>
              (Ok tt,
               set_fcm (filter (fun d => negb (same_device (tok_userId doc) deviceId d
                                               && negb (tok_id d =? tok_id doc)%nat))
                               (fcm st)) st))
      else ret tt
  | None => ret tt
  end.

(** The ValidationError of the schema; its message goes on to list the
    paths that failed. *)
Definition validationFailed : Exn :=
  mkExn None "FCMToken validation failed" None.

(** The validation that precedes every save, before the hooks of the
    schema: userId and token are [required], which the empty string does not
    satisfy.  (platform, required and of an enum, is typed.) *)
Definition validate (doc : TokenDoc) : M unit :=
  if is_empty (tok_userId doc) || is_empty (tok_token doc)
  then throw validationFailed
  else ret tt.

(** doc.save(): the validation, the hook, then an insert under the unique
    index on token (new document) or the update of the document with that
    _id. *)
Definition save (isNew : bool) (doc : TokenDoc) : M unit :=
  validate doc ;;;
  preSave isNew doc ;;;
  if isNew
  then
    io (EvTokInsert (tok_token doc))
       (fun _ st =>
          if existsb (fun d => str_eqb (tok_token d) (tok_token doc)) (fcm st)
          then (Throw dupKey, st)
          else (Ok tt, set_fcm (fcm st ++ [doc]) st))
  else
    io (EvTokSave (tok_token doc))
       (fun _ st =>
          (Ok tt,
           set_fcm (List.map (fun d => if (tok_id d =? tok_id doc)%nat then doc else d)
                             (fcm st)) st)).

(** FCMToken.create({...}): a document with a fresh _id, then save. *)
Definition create (userId token : jstring) (platform : Platform)
    (deviceId : option jstring) (lastActive : Z) : M TokenDoc :=
  fun env st =>
    let doc := mkToken (next_id st) userId token platform deviceId lastActive in
    let st1 := mkStore (prefs st) (fcm st) (S (next_id st)) (trace st) in
    (save true doc ;;; ret doc) env st1.

End TokensDb.

Module Transport.

(** admin.messaging().sendEachForMulticast({ tokens, ...message }) *)
Definition sendEachForMulticast (tokens : list jstring) (message : Message)
  : M BatchResponse :=
  io (EvTransport tokens message)
     (fun env st => (Ok (fcm_send env tokens message), st)).

End Transport.

Definition getUserFCMTokens (userId : jstring) : M (list TokenDoc) :=
  try_catch
    (TokensDb.find userId)
    (fun _ => throw (jsError "Failed to fetch FCM tokens")).

(** NotificationPayload without userId.  [n_category] is [None] when the
    property is undefined. *)
Record Payload : Type := mkPayload {
  n_type : value;
  n_title : value;
  n_body : value;
  n_data : value;
  n_category : option Category
}.

(** [notification.category || 'taskUpdates'] *)
Definition categoryOrDefault (c : option Category) : Category :=
  match c with
  | None => TaskUpdates
  | Some k => if truthy (valueOfCategory k) then k else TaskUpdates
  end.

Record SendResult : Type := mkSendResult {
  r_success : bool;
  sent : nat;
  failed : nat
}.

(** [resp.success] *)
Definition delivered (resp : SendResponse) : bool := success resp.

(** [!resp.success && (code === 'messaging/invalid-registration-token' ||
    code === 'messaging/registration-token-not-registered')] *)
Definition permanentlyInvalid (resp : SendResponse) : bool :=
  negb (success resp) &&
  match err_code resp with
  | Some c =>
      String.eqb c "messaging/invalid-registration-token" ||
      String.eqb c "messaging/registration-token-not-registered"
  | None => false
  end.

(** [responses.map((resp, idx) => sel(resp) ? tokens[idx].token : null)
             .filter(Boolean)], [idx] being the index of the head of
    [resps].  [tokens[idx]] is undefined past the end of [tokens], and
    reading its token throws; filter(Boolean) drops null and "". *)
Fixpoint selectTokens (sel : SendResponse -> bool) (tokens : list TokenDoc)
    (resps : list SendResponse) (idx : nat) : Result (list jstring) :=
  match resps with
  | [] => Ok []
  | resp :: rest =>
      if sel resp
      then
        match nth_error tokens idx with
        | None => Throw (typeError "Cannot read properties of undefined (reading 'token')")
        | Some t =>
            andThen (selectTokens sel tokens rest (S idx)) (fun l =>
              Ok (if is_empty (tok_token t) then l else tok_token t :: l))
        end
      else selectTokens sel tokens rest (S idx)
  end.

(** What sendPushNotification does once the transport has answered: refresh
    the delivered tokens, delete the permanently invalid ones, report the
    counts of the transport. *)
Definition settleOutcomes (tokens : list TokenDoc) (response : BatchResponse)
  : M SendResult :=
  successfulTokens <- lift (selectTokens delivered tokens (responses response) 0) ;;
  (if (0 <? List.length successfulTokens)%nat
   then lastActive <- now ;; TokensDb.updateMany successfulTokens lastActive
   else ret tt) ;;;
  invalidTokens <- lift (selectTokens permanentlyInvalid tokens (responses response) 0) ;;
  (if (0 <? List.length invalidTokens)%nat
   then TokensDb.deleteMany invalidTokens
   else ret tt) ;;;
  ret (mkSendResult (0 <? successCount response)%nat
                    (successCount response) (failureCount response)).

Definition messageOfPayload (notification : Payload) : Message :=
  mkMessage (n_title notification) (n_body notification)
            (n_type notification) (n_data notification).

(** [throw new Error(`Failed to send push notification: ${error.message}`)] *)
Definition dispatchFailure (error : Exn) : Exn :=
  jsError ("Failed to send push notification: " ++ exn_message error).

Definition sendPushNotification (userId : value) (notification : Payload) : M SendResult :=
  try_catch
    (let category := categoryOrDefault (n_category notification) in
     shouldSend <- shouldSendNotification userId category Push ;;
     if negb shouldSend then ret (mkSendResult true 0 0)
     else
       (* the preference check passes only a string *)
       tokens <- match userId with
                 | VStr uid => getUserFCMTokens uid
                 | _ => throw (jsError "Failed to fetch FCM tokens")
                 end ;;
       if (List.length tokens =? 0)%nat then ret (mkSendResult true 0 0)
       else
         let message := messageOfPayload notification in
         let tokenStrings := List.map tok_token tokens in
         response <- Transport.sendEachForMulticast tokenStrings message ;;
         settleOutcomes tokens response)
    (fun error => throw (dispatchFailure error)).

Record BatchResult : Type := mkBatchResult {
  total : nat;
  b_sent : nat;
  b_failed : nat
}.

(** The body of [for (const userId of userIds) { try {...} catch {...} }],
    with the two counters as accumulators. *)
Fixpoint sendLoop (userIds : list value) (notification : Payload)
    (totalSent totalFailed : nat) : M (nat * nat) :=
  match userIds with
  | [] => ret (totalSent, totalFailed)
  | userId :: rest =>
      counters <- try_catch
                    (result <- sendPushNotification userId notification ;;
                     ret (totalSent + sent result, totalFailed + failed result))
                    (fun _ => ret (totalSent, totalFailed + 1)) ;;
      sendLoop rest notification (fst counters) (snd counters)
  end.

Definition sendToMultipleUsers (userIds : list value) (notification : Payload)
  : M BatchResult :=
  counters <- sendLoop userIds notification 0 0 ;;
  ret (mkBatchResult (List.length userIds) (fst counters) (snd counters)).

Definition registerToken (userId token : jstring) (platform : Platform)
    (deviceId : option jstring) : M TokenDoc :=
  try_catch
    (fcmToken <- TokensDb.findOne token ;;
     match fcmToken with
     | Some d =>
         lastActive <- now ;;
         let d' := mkToken (tok_id d) userId (tok_token d) platform deviceId lastActive in
         TokensDb.save false d' ;;;
         ret d'
     | None =>
         lastActive <- now ;;
         TokensDb.create userId token platform deviceId lastActive
     end)
    (fun error =>
       throw (jsError ("Failed to register FCM token: " ++ exn_message error))).

(** ** NotificationController.sendNotification *)

(** The fields the handler destructures from [req.body]. *)
Record SendBody : Type := mkSendBody {
  b_userId : value;
  b_recipients : value;
  b_type : value;
  b_eventKey : value;
  b_title : value;
  b_body : value;
  b_data : value;
  b_category : value
}.

Definition isArray (v : value) : bool :=
  match v with VArr _ => true | _ => false end.

Definition items (v : value) : list value :=
  match v with VArr l => l | _ => [] end.

(** [recipients && Array.isArray(recipients) ? recipients : [userId]] *)
Definition targetUsers (body : SendBody) : list value :=
  if truthy (b_recipients body) && isArray (b_recipients body)
  then items (b_recipients body)
  else [b_userId body].

(** [type || eventKey] *)
Definition notificationType (body : SendBody) : value :=
  or_else (b_type body) (b_eventKey body).

(** The category of the body as the service receives it: whatever value the
    request carries, [None] standing for undefined. *)
Definition categoryOfValue (v : value) : option Category :=
  match v with
  | VUndefined => None
  | VStr s => Some (categoryOfName s)
  | _ => Some (NotAString v)
  end.

(** Modelled from the spec: the class BadRequestError of errors/AppError is
    not among the sources; validation errors surface with a 4xx status,
    taken here as 400. *)
Definition badRequestError (msg : string) : Exn := mkExn None msg (Some 400%Z).

Inductive Response : Type :=
| Json (ok : bool) (nsent nfailed : nat)   (* res.json({ success, data: { sent, failed }, ... }) *)
| ErrorJson (status : Z) (error : string). (* res.status(...).json({ success: false, error }) *)

(** [error.statusCode || 500] *)
Definition statusOf (e : Exn) : Z :=
  match exn_status e with
  | Some s => if (s =? 0)%Z then 500%Z else s
  | None => 500%Z
  end.

(** [error.message || fallback] *)
Definition messageOf (e : Exn) (fallback : string) : string :=
  if String.eqb (exn_message e) "" then fallback else exn_message e.

(** [n || 0] on a count *)
Definition orZero (n : nat) : nat := if (n =? 0)%nat then 0 else n.

Fixpoint dispatchLoop (targets : list value) (notification : Payload)
    (totalSent totalFailed : nat) : M (nat * nat) :=
  match targets with
  | [] => ret (totalSent, totalFailed)
  | uid :: rest =>
      counters <- try_catch
                    (result <- sendPushNotification uid notification ;;
                     ret (totalSent + orZero (sent result),
                          totalFailed + orZero (failed result)))
                    (fun _ => ret (totalSent, totalFailed + 1)) ;;
      dispatchLoop rest notification (fst counters) (snd counters)
  end.

(** The message of the validation error of sendNotification. *)
Definition validationMessage : string :=
  "userId (or recipients array), type (or eventKey), title, and body are required".

Definition is_nil {A} (l : list A) : bool :=
  match l with [] => true | _ => false end.

Definition sendNotification (body : SendBody) : M Response :=
  try_catch
    (let targets := targetUsers body in
     let ty := notificationType body in
     if is_nil targets || negb (truthy ty)
        || negb (truthy (b_title body)) || negb (truthy (b_body body))
     then throw (badRequestError validationMessage)
     else
       counters <- dispatchLoop targets
                     (mkPayload ty (b_title body) (b_body body) (b_data body)
                                (categoryOfValue (b_category body))) 0 0 ;;
       ret (Json (0 <? fst counters)%nat (fst counters) (snd counters)))
    (fun error =>
       ret (ErrorJson (statusOf error) (messageOf error "Failed to send notification"))).

(** ** NotificationService.removeToken *)

(** Modelled from the spec: the class NotFoundError of errors/AppError is
    not among the sources; a token to delete that does not exist surfaces
    with a 4xx status, taken here as 404. *)
Definition notFoundError (msg : string) : Exn := mkExn None msg (Some 404%Z).

(** [error instanceof NotFoundError]: the errors of the database driver
    carry no statusCode. *)
Definition isNotFoundError (e : Exn) : bool :=
  match exn_status e with
  | Some s => (s =? 404)%Z
  | None => false
  end.

(** The list without its first element that satisfies [f], and the number
    of elements removed (0 or 1). *)
Fixpoint removeFirst {A} (f : A -> bool) (l : list A) : list A * nat :=
  match l with
  | [] => ([], 0)
  | x :: l' =>
      if f x then (l', 1)
      else let (r, n) := removeFirst f l' in (x :: r, n)
  end.

(** FCMToken.deleteOne({ token }), returning [result.deletedCount].  The trace
    has no event of its own for it: it is recorded as the delete of that one
    token string. *)
Definition deleteOneToken (token : jstring) : M nat :=
  io (EvTokDeleteMany [token])
     (fun _ st =>
        let (l, n) := removeFirst (fun d => str_eqb (tok_token d) token) (fcm st) in
        (Ok n, set_fcm l st)).

Definition removeToken (token : jstring) : M unit :=
  try_catch
    (deletedCount <- deleteOneToken token ;;
     if (deletedCount =? 0)%nat
     then throw (notFoundError "FCM token not found")
     else ret tt)
    (fun error =>
       if isNotFoundError error then throw error
       else throw (jsError ("Failed to remove FCM token: " ++ exn_message error))).

(** ** NotificationController.sendBatchNotification *)

(** The fields the handler destructures from [req.body]. *)
Record BatchBody : Type := mkBatchBody {
  bb_userIds : value;
  bb_type : value;
  bb_eventKey : value;
  bb_title : value;
  bb_body : value;
  bb_data : value;
  bb_category : value
}.

Inductive BatchReply : Type :=
| BatchJson (ntotal nsent nfailed : nat)     (* res.json({ success: true, data: {...} }) *)
| BatchErrorJson (status : Z) (error : string).

Definition userIdsRequired : string := "userIds array is required".

Definition typeTitleBodyRequired : string :=
  "type (or eventKey), title, and body are required".

Definition sendBatchNotification (body : BatchBody) : M BatchReply :=
  try_catch
    (if negb (truthy (bb_userIds body)) || negb (isArray (bb_userIds body))
        || is_nil (items (bb_userIds body))
     then throw (badRequestError userIdsRequired)
     else
       let ty := or_else (bb_type body) (bb_eventKey body) in
       if negb (truthy ty) || negb (truthy (bb_title body)) || negb (truthy (bb_body body))
       then throw (badRequestError typeTitleBodyRequired)
       else
         result <- sendToMultipleUsers (items (bb_userIds body))
                     (mkPayload ty (bb_title body) (bb_body body) (bb_data body)
                                (categoryOfValue (bb_category body))) ;;
         ret (BatchJson (total result) (b_sent result) (b_failed result)))
    (fun error =>
       ret (BatchErrorJson (statusOf error)
                           (messageOf error "Failed to send batch notification"))).

(** * In-app notifications (polling) *)

(** The second half of NotificationService keeps the notifications a client
    polls for in the collection InAppNotification.  It shares nothing with
    the push half but the error values, so it has a state of its own. *)
Module InApp.

(** ** Collection InAppNotification *)

(** The schema's enum of [type]. *)
Inductive Kind : Type := TInfo | TWarning | TError | TSuccess.

(** IInAppNotificationDocument *)
Record Note : Type := mkNote {
  note_id : nat;                   (* _id *)
  note_userId : jstring;
  note_title : jstring;
  note_body : jstring;
  note_type : Kind;
  note_category : option jstring;
  note_read : bool;
  note_readAt : option Z;
  note_data : value;               (* Mixed, null when not given *)
  note_expiresAt : option Z;
  note_createdAt : Z;              (* timestamps: true *)
  note_updatedAt : Z
}.

Record Db : Type := mkDb {
  notes : list Note;               (* the collection, in insertion order *)
  fresh : nat;                     (* source of fresh _id values *)
  calls : nat                      (* awaited calls of the model so far *)
}.

Record World : Type := mkWorld {
  breaks : nat -> option Exn;            (* what the n-th awaited call throws *)
  castObjectId : jstring -> Result nat;  (* the cast of [_id] in a filter *)
  invalid : Exn;                         (* the ValidationError of the schema *)
  today : Z;                             (* [new Date()] in the service *)
  stamp : Z;                             (* the instant of the schema's timestamps *)
  thirtyDaysFromNow : Z                  (* the date the pre-save hook computes *)
}.

Definition IO (A : Type) : Type := World -> Db -> Result A * Db.

Definition ret {A} (a : A) : IO A := fun _ db => (Ok a, db).

Definition throw {A} (e : Exn) : IO A := fun _ db => (Throw e, db).

Definition bind {A B} (m : IO A) (k : A -> IO B) : IO B :=
  fun w db =>
    match m w db with
    | (Ok a, db') => k a w db'
    | (Throw e, db') => (Throw e, db')
    end.

(** [try { m } catch (error) { h error }] *)
Definition try_catch {A} (m : IO A) (h : Exn -> IO A) : IO A :=
  fun w db =>
    match m w db with
    | (Ok a, db') => (Ok a, db')
    | (Throw e, db') => h e w db'
    end.

(** [new Date()] *)
Definition now : IO Z := fun w db => (Ok (today w), db).

Declare Scope inapp_scope.
Delimit Scope inapp_scope with inapp.
Notation "x <- m ;; k" := (bind m (fun x => k))
  (at level 61, m at next level, right associativity) : inapp_scope.
Local Open Scope inapp_scope.

Definition set_notes (l : list Note) (db : Db) : Db :=
  mkDb l (fresh db) (calls db).

Definition counted (db : Db) : Db :=
  mkDb (notes db) (fresh db) (S (calls db)).

(** One awaited call of the model: it is counted, then it either throws
    what the world says or performs [act] on the collection. *)
Definition call {A} (act : World -> Db -> Result A * Db) : IO A :=
  fun w db =>
    match breaks w (calls db) with
    | Some e => (Throw e, counted db)
    | None => act w (counted db)
    end.

(** [.sort({ createdAt: -1 })]: newest first; notifications of the same
    instant keep their collection order. *)
Fixpoint insertNewest (n : Note) (l : list Note) : list Note :=
  match l with
  | [] => [n]
  | x :: l' =>
      if (note_createdAt x <=? note_createdAt n)%Z
      then n :: l
      else x :: insertNewest n l'
  end.

Definition newestFirst (l : list Note) : list Note :=
  fold_right insertNewest [] l.

(** [.limit(limit).skip(skip)]: the cursor skips first, whatever the order of
    the two calls, and a limit of 0 is no limit. *)
Definition page (limit skip : nat) (l : list Note) : list Note :=
  let rest := List.skipn skip l in
  if (limit =? 0)%nat then rest else List.firstn limit rest.

(** The filter [{ userId }], with [read] when the query carries it. *)
Definition matches (userId : jstring) (read : option bool) (n : Note) : bool :=
  str_eqb (note_userId n) userId &&
  match read with
  | Some b => Bool.eqb (note_read n) b
  | None => true
  end.

(** The filter [{ _id, userId }]. *)
Definition is_note (id : nat) (userId : jstring) (n : Note) : bool :=
  (note_id n =? id)%nat && str_eqb (note_userId n) userId.

(** The update [{ read: true, readAt }], with the [updatedAt] the schema's
    timestamps add to it. *)
Definition markRead (readAt updatedAt : Z) (n : Note) : Note :=
  mkNote (note_id n) (note_userId n) (note_title n) (note_body n) (note_type n)
         (note_category n) true (Some readAt) (note_data n) (note_expiresAt n)
         (note_createdAt n) updatedAt.

(** Whether the update leaves the stored document as it was: such a
    document is matched but not counted in modifiedCount. *)
Definition unchanged (readAt updatedAt : Z) (n : Note) : bool :=
  note_read n
  && match note_readAt n with
     | Some t => (t =? readAt)%Z
     | None => false
     end
  && (note_updatedAt n =? updatedAt)%Z.

Definition modified (readAt updatedAt : Z) (n : Note) : nat :=
  if unchanged readAt updatedAt n then 0 else 1.

(** The collection after an updateOne with the filter [f], and its
    modifiedCount: the first match in collection order is updated. *)
Fixpoint updateFirst (f : Note -> bool) (readAt updatedAt : Z) (l : list Note)
  : list Note * nat :=
  match l with
  | [] => ([], 0)
  | x :: l' =>
      if f x
      then (markRead readAt updatedAt x :: l', modified readAt updatedAt x)
      else let (r, k) := updateFirst f readAt updatedAt l' in (x :: r, k)
  end.

Module NotesDb.

(** InAppNotification.create({ userId, title, body, type, category, data,
    read }): the required strings are validated (an empty string is not a
    value), [data] takes its default, the pre-save hook sets [expiresAt]
    since the document carries none, the timestamps are set, and the
    document is inserted under a fresh _id. *)
Definition create (userId title body : jstring) (type : Kind)
    (category : option jstring) (data : value) (read : bool) : IO Note :=
  call (fun w db =>
          if is_empty userId || is_empty title || is_empty body
          then (Throw (invalid w), db)
          else
            let doc := mkNote (fresh db) userId title body type category read None
                              (match data with VUndefined => VNull | _ => data end)
                              (Some (thirtyDaysFromNow w)) (stamp w) (stamp w) in
            (Ok doc, mkDb (notes db ++ [doc]) (S (fresh db)) (calls db))).

(** InAppNotification.countDocuments({ userId }) and
    InAppNotification.countDocuments({ userId, read }) *)
Definition countDocuments (userId : jstring) (read : option bool) : IO nat :=
  call (fun _ db => (Ok (List.length (filter (matches userId read) (notes db))), db)).

(** InAppNotification.find(query).sort({ createdAt: -1 }).limit(limit)
    .skip(skip).lean() *)
Definition find (userId : jstring) (read : option bool) (limit skip : nat)
  : IO (list Note) :=
  call (fun _ db =>
          (Ok (page limit skip (newestFirst (filter (matches userId read) (notes db)))),
           db)).

(** InAppNotification.updateOne({ _id: notificationId, userId },
    { read: true, readAt }): the result is modifiedCount.  A string that is
    no ObjectId makes the cast of the filter throw. *)
Definition updateOne (notificationId userId : jstring) (readAt : Z) : IO nat :=
  call (fun w db =>
          match castObjectId w notificationId with
          | Throw e => (Throw e, db)
          | Ok id =>
              let (l, k) := updateFirst (is_note id userId) readAt (stamp w) (notes db) in
              (Ok k, set_notes l db)
          end).

(** InAppNotification.updateMany({ userId, read: false },
    { read: true, readAt }): the result is modifiedCount. *)
Definition updateMany (userId : jstring) (readAt : Z) : IO nat :=
  call (fun w db =>
          (Ok (list_sum (List.map (modified readAt (stamp w))
                                  (filter (matches userId (Some false)) (notes db)))),
           set_notes (List.map (fun n => if matches userId (Some false) n
                                         then markRead readAt (stamp w) n else n)
                               (notes db)) db)).

(** InAppNotification.deleteOne({ _id: notificationId, userId }): the result
    is deletedCount. *)
Definition deleteOne (notificationId userId : jstring) : IO nat :=
  call (fun w db =>
          match castObjectId w notificationId with
          | Throw e => (Throw e, db)
          | Ok id =>
              let (l, k) := removeFirst (is_note id userId) (notes db) in
              (Ok k, set_notes l db)
          end).

End NotesDb.

(** ** NotificationService.createInAppNotification *)

(** The argument of createInAppNotification. *)
Record NewNote : Type := mkNewNote {
  d_userId : jstring;
  d_title : jstring;
  d_body : jstring;
  d_type : option Kind;
  d_category : option jstring;
  d_data : value
}.

Definition createInAppNotification (data : NewNote) : IO Note :=
  try_catch
    (notification <- NotesDb.create (d_userId data) (d_title data) (d_body data)
                       (match d_type data with Some t => t | None => TInfo end)
                       (d_category data) (d_data data) false ;;
     ret notification)
    (fun error =>
       throw (jsError ("Failed to create in-app notification: " ++ exn_message error))).

(** ** NotificationService.getInAppNotifications *)

Record Listing : Type := mkListing {
  notifications : list Note;
  unreadCount : nat;
  hasMore : bool
}.

(** [limit] and [skip] are the non-negative integers the route passes. *)
Definition getInAppNotifications (userId : jstring) (limit skip : nat)
    (unreadOnly : bool) : IO Listing :=
  try_catch
    (let query := if unreadOnly then Some false else None in
     unreadCount <- NotesDb.countDocuments userId (Some false) ;;
     notifications <- NotesDb.find userId query limit skip ;;
     totalCount <- NotesDb.countDocuments userId query ;;
     let hasMore := (skip + limit <? totalCount)%nat in
     ret (mkListing notifications unreadCount hasMore))
    (fun error =>
       throw (jsError ("Failed to fetch in-app notifications: " ++ exn_message error))).

(** ** NotificationService.getUnreadNotificationCount *)

Definition getUnreadNotificationCount (userId : jstring) : IO nat :=
  try_catch
    (count <- NotesDb.countDocuments userId (Some false) ;;
     ret count)
    (fun error =>
       throw (jsError ("Failed to count unread notifications: " ++ exn_message error))).

(** ** NotificationService.markInAppNotificationAsRead *)

Definition markInAppNotificationAsRead (notificationId userId : jstring) : IO bool :=
  try_catch
    (readAt <- now ;;
     modifiedCount <- NotesDb.updateOne notificationId userId readAt ;;
     ret (0 <? modifiedCount)%nat)
    (fun error =>
       throw (jsError ("Failed to mark notification as read: " ++ exn_message error))).

(** ** NotificationService.markAllInAppNotificationsAsRead *)

(** The result is the modifiedCount of the object returned. *)
Definition markAllInAppNotificationsAsRead (userId : jstring) : IO nat :=
  try_catch
    (readAt <- now ;;
     modifiedCount <- NotesDb.updateMany userId readAt ;;
     ret modifiedCount)
    (fun error =>
       throw (jsError ("Failed to mark all notifications as read: "
                       ++ exn_message error))).

(** ** NotificationService.deleteInAppNotification *)

Definition deleteInAppNotification (notificationId userId : jstring) : IO bool :=
  try_catch
    (deletedCount <- NotesDb.deleteOne notificationId userId ;;
     ret (0 <? deletedCount)%nat)
    (fun error =>
       throw (jsError ("Failed to delete notification: " ++ exn_message error))).

(** ** Specification vocabulary *)

(** How many unread notifications a user has. *)
Definition unreadOf (userId : jstring) (l : list Note) : nat :=
  List.length (filter (matches userId (Some false)) l).

(** The notifications of everybody else. *)
Definition foreign (userId : jstring) (l : list Note) : list Note :=
  filter (fun n => negb (str_eqb (note_userId n) userId)) l.

(** No awaited call from the [from]-th on fails, [n] calls long. *)
Definition calm (w : World) (from n : nat) : Prop :=
  forall i, i < n -> breaks w (from + i) = None.

(** Newest first. *)
Definition not_newer (a b : Note) : Prop := (note_createdAt b <= note_createdAt a)%Z.

(** ** Sample data *)

Definition castFailed : Exn := jsError "Cast to ObjectId failed".

(** A world without faults in which an _id is written n0, n1 or n2. *)
Definition calmWorld (today stamp : Z) : World :=
  mkWorld (fun _ => None)
          (fun s => if str_eqb s (js "n0") then Ok 0
                    else if str_eqb s (js "n1") then Ok 1
                    else if str_eqb s (js "n2") then Ok 2
                    else Throw castFailed)
          (jsError "InAppNotification validation failed")
          today stamp (today + 2592000000).

(** The same world with the database down at the first call. *)
Definition downWorld : World :=
  mkWorld (fun _ => Some (jsError "connection lost"))
          (castObjectId (calmWorld 0 0)) (invalid (calmWorld 0 0)) 0 0 0.

Definition noteOf (id : nat) (userId : string) (read : bool) (createdAt : Z) : Note :=
  mkNote id (js userId) (js "Task assigned") (js "You have a new task") TInfo None
         read (if read then Some createdAt else None) VNull None createdAt createdAt.

(** u1 has one read and one unread notification, u2 one unread. *)
Definition inbox : Db :=
  mkDb [noteOf 0 "u1" true 10; noteOf 1 "u1" false 20; noteOf 2 "u2" false 30] 3 0.

Definition welcome : NewNote :=
  mkNewNote (js "u1") (js "Welcome") (js "Hello") None None VUndefined.

End InApp.

(** * The middleware authMiddleware *)

Module Auth.

(** What [auth.verifyIdToken] resolves to: the decoded token, of which the
    middleware reads uid. *)
Record DecodedToken : Type := mkDecoded {
  uid : jstring;
  email : value
}.

(** What the middleware reads of the request. *)
Record Request : Type := mkRequest {
  method : jstring;                  (* req.method *)
  authorization : option jstring     (* req.headers.authorization *)
}.

(** How the middleware leaves the request: it calls [next()], with the
    [req.user] it has set if any, or it answers itself. *)
Inductive Outcome : Type :=
| Next (user : option (jstring * DecodedToken))
| Reply (status : Z) (error : string) (details : option string).

(** A code unit the [.] of a regular expression does not match. *)
Definition isLineTerminator (c : N) : bool :=
  (c =? 10)%N || (c =? 13)%N || (c =? 8232)%N || (c =? 8233)%N.

(** [s] without the prefix [p], when it starts with it. *)
Fixpoint strip (p s : jstring) : option jstring :=
  match p, s with
  | [], _ => Some s
  | x :: p', y :: s' => if (x =? y)%N then strip p' s' else None
  | _ :: _, [] => None
  end.

(** [/^Bearer (.+)$/.exec(header)], as its group 1: the rest of a header
    that starts with [Bearer ], when it is not empty and runs to the end of
    the header without a line terminator. *)
Definition exec (header : jstring) : option jstring :=
  match strip (js "Bearer ") header with
  | Some rest =>
      if negb (is_empty rest) && forallb (fun c => negb (isLineTerminator c)) rest
      then Some rest
      else None
  | None => None
  end.

(** [verifyIdToken] is the call of the Firebase SDK, [development] is
    [process.env.NODE_ENV === 'development']. *)
Definition authMiddleware (verifyIdToken : jstring -> Result DecodedToken)
    (development : bool) (req : Request) : Outcome :=
  if str_eqb (method req) (js "OPTIONS")
  then Next None
  else
    let header := match authorization req with
                  | Some h => if is_empty h then [] else h
                  | None => []
                  end in
    match exec header with
    | None => Reply 401 "Missing Authorization header" None
    | Some idToken =>
        match verifyIdToken idToken with
        | Ok token => Next (Some (uid token, token))
        | Throw e =>
            Reply 401 "Invalid token"
                  (if development then Some (exn_message e) else None)
        end
    end.

(** ** Sample data *)

Definition alice : DecodedToken := mkDecoded (js "u1") VUndefined.

(** A verifier that knows one token. *)
Definition verifier (idToken : jstring) : Result DecodedToken :=
  if str_eqb idToken (js "good") then Ok alice
  else Throw (jsError "Decoding Firebase ID token failed").

End Auth.

(** ** Runs used in the examples *)

Definition noFaults : nat -> option Exn := fun _ => None.

Definition emptyStore : Store := mkStore [] [] 0 [].

(** The environment throws [e] at the [n]-th I/O operation and nowhere
    else. *)
Definition faultAt (n : nat) (e : Exn) : nat -> option Exn :=
  fun k => if (k =? n)%nat then Some e else None.

Definition dbDown : Exn := mkExn None "connection lost" None.

(** What a mongoose document has under some names that are no section: the
    userId path, the _id, two methods. *)
Definition documentMembers (p : PrefDoc) (name : jstring) : value :=
  if str_eqb name (js "userId") then VStr (pref_userId p)
  else if str_eqb name (js "_id") || str_eqb name (js "toString")
          || str_eqb name (js "save")
  then VObj []
  else VUndefined.

(** ** Specification vocabulary *)

(** A user id that identifies nobody: not a string, or a string that is
    empty or made of white space only. *)
Definition unidentified (userId : value) : bool :=
  match userId with
  | VStr s => forallb is_space s
  | _ => true
  end.

(** The documented defaults of a preferences object. *)
Definition documentedDefaults : Preferences :=
  {| r_transactional := mkChannels (Some false) (Some true) (Some true);
     r_taskUpdates := mkChannels (Some true) (Some true) (Some true);
     r_taskReminders := mkChannels (Some true) (Some true) (Some true);
     r_keywordTaskAlerts := mkChannels None (Some true) None;
     r_recommendedTaskAlerts := mkChannels None (Some true) None;
     r_helpfulInformation := mkChannels (Some true) (Some true) (Some true);
     r_updatesNewsletters := mkChannels (Some true) (Some true) (Some true) |}.

(** The I/O operations a call added to the trace. *)
Definition extends_by (st st' : Store) (evs : list Event) : Prop :=
  trace st' = trace st ++ evs.

(** No I/O operation throws from position [n] on. *)
Definition quiet_from (env : Env) (n : nat) : Prop :=
  forall k, n <= k -> faults env k = None.

(** The stored record has a transactional section whose push flag is true. *)
Definition transactional_push_on (p : PrefDoc) : bool :=
  match transactional p with
  | Some c => is_true (push c)
  | None => false
  end.

(** The stored records of one user. *)
Definition records_of (uid : jstring) (st : Store) : list PrefDoc :=
  filter (owned_by uid) (prefs st).

(** Every stored record has transactional.push on. *)
Definition all_push_on (st : Store) : Prop :=
  forall d, In d (prefs st) -> transactional_push_on d = true.

(** The answer of [sendEachForMulticast] for [n] tokens: one response per
    token, in the order of the tokens, and the two counts of the batch. *)
Definition multicast_contract (n : nat) (r : BatchResponse) : Prop :=
  List.length (responses r) = n /\
  successCount r = List.length (filter delivered (responses r)) /\
  failureCount r = List.length (filter (fun x => negb (delivered x)) (responses r)).

(** The unique index on token, and [required: true]: no two documents share
    a token string and no token string is empty. *)
Definition tokens_wf (l : list TokenDoc) : Prop :=
  NoDup (List.map tok_token l) /\ forall d, In d l -> tok_token d <> [].

(** The token strings of the documents whose response, at the same
    position, satisfies [sel]. *)
Fixpoint chosen (sel : SendResponse -> bool) (tokens : list TokenDoc)
    (resps : list SendResponse) : list jstring :=
  match tokens, resps with
  | t :: ts, r :: rs =>
      if sel r then tok_token t :: chosen sel ts rs else chosen sel ts rs
  | _, _ => []
  end.

(** The collection after the bulk update of the delivered tokens. *)
Definition refreshed (env : Env) (succ : list jstring) (l : list TokenDoc) : list TokenDoc :=
  List.map (fun d => if mem (tok_token d) succ then touch (clock env) d else d) l.

(** The collection after the bulk delete of the invalid tokens. *)
Definition pruned (inv : list jstring) (l : list TokenDoc) : list TokenDoc :=
  filter (fun d => negb (mem (tok_token d) inv)) l.

(** The outcomes of calling sendPushNotification for each user id in turn,
    each call starting from the store the previous one left. *)
Fixpoint runEach (userIds : list value) (notification : Payload)
    (env : Env) (st : Store) : list (Result SendResult) * Store :=
  match userIds with
  | [] => ([], st)
  | userId :: rest =>
      let (r, st1) := sendPushNotification userId notification env st in
      let (rs, st2) := runEach rest notification env st1 in
      (r :: rs, st2)
  end.

(** What one outcome adds to the two counters of a batch: its own counts
    when the call returned, one failure when it threw. *)
Definition sentOf (r : Result SendResult) : nat :=
  match r with Ok x => sent x | Throw _ => 0 end.

Definition failedOf (r : Result SendResult) : nat :=
  match r with Ok x => failed x | Throw _ => 1 end.

(** The normalisation of the targets in the words of the specification:
    the recipients if present and non-empty, else the single user id. *)
Definition specTargets (body : SendBody) : list value :=
  match b_recipients body with
  | VArr (x :: l) => x :: l
  | _ => [b_userId body]
  end.

(** The documents of one device of one user. *)
Definition device_records (userId deviceId : jstring) (st : Store) : list TokenDoc :=
  filter (same_device userId deviceId) (fcm st).

(** Every _id in the collection was handed out before. *)
Definition ids_fresh (st : Store) : Prop :=
  forall d, In d (fcm st) -> tok_id d < next_id st.

(** ** Sample data *)

Definition quietEnv : Env := mkEnv noFaults (fun _ _ => mkBatch [] 0 0) 0 documentMembers.

(** A user who switched keyword alerts off. *)
Definition mutedKeywordAlerts (uid : jstring) : PrefDoc :=
  set_keywordTaskAlerts (defaultDoc uid) (pushOnly false).

(** A user who switched push off for task updates. *)
Definition mutedTaskUpdates (uid : jstring) : PrefDoc :=
  set_taskUpdates (defaultDoc uid) (all3 true false true).

Definition samplePayload : Payload :=
  mkPayload (VStr (js "task_assigned")) (VStr (js "New task"))
            (VStr (js "You have a new task")) VUndefined None.

(** Four device tokens. *)
Definition tokA : TokenDoc := mkToken 0 (js "u1") (js "token-a") Ios (Some (js "phone")) 30.
Definition tokB : TokenDoc := mkToken 1 (js "u1") (js "token-b") Android None 20.
Definition tokC : TokenDoc := mkToken 2 (js "u1") (js "token-c") Web (Some (js "laptop")) 10.
Definition tokOther : TokenDoc := mkToken 3 (js "u2") (js "token-d") Web None 5.

(** User u1 has three tokens; u2 has one. *)
Definition threeTokens : Store :=
  mkStore [defaultDoc (js "u1")] [tokOther; tokC; tokA; tokB] 4 [].

(** The transport delivers to the first token, fails transiently on the
    second and reports the third as not registered. *)
Definition mixedOutcomes : list SendResponse :=
  [mkResp true None;
   mkResp false (Some "messaging/internal-error");
   mkResp false (Some "messaging/registration-token-not-registered")].

Definition mixedEnv (f : nat -> option Exn) : Env :=
  mkEnv f (fun _ _ => mkBatch mixedOutcomes 1 2) 100 documentMembers.

Definition tokOf (id : nat) (uid token : string) : TokenDoc :=
  mkToken id (js uid) (js token) Android None 0.

(** Users a, b and c, one token each, default preferences. *)
Definition abcStore : Store :=
  mkStore [defaultDoc (js "a"); defaultDoc (js "b"); defaultDoc (js "c")]
          [tokOf 0 "a" "ta"; tokOf 1 "b" "tb"; tokOf 2 "c" "tc"] 3 [].

(** A transport that delivers to every token. *)
Definition deliverAll (f : nat -> option Exn) : Env :=
  mkEnv f (fun toks _ => mkBatch (List.map (fun _ => mkResp true None) toks)
                                 (List.length toks) 0) 50 documentMembers.

(** A request that names a user and carries an empty recipients array. *)
Definition emptyRecipients : SendBody :=
  mkSendBody (VStr (js "u1")) (VArr []) (VStr (js "task_assigned")) VUndefined
             (VStr (js "New task")) (VStr (js "You have a new task"))
             VUndefined VUndefined.

(** A request that uses eventKey and whose title is the empty string. *)
Definition emptyTitle : SendBody :=
  mkSendBody (VStr (js "u1")) VUndefined VUndefined (VStr (js "task_assigned"))
             (VStr []) (VStr (js "You have a new task")) VUndefined VUndefined.

(** The store after a sequence of registrations, whatever they returned. *)
Definition afterRegister (userId token : string) (deviceId : string)
    (env : Env) (st : Store) : Store :=
  snd (registerToken (js userId) (js token) Android (Some (js deviceId)) env st).

(** The unique index on userId: one preference record per user. *)
Definition prefs_unique (st : Store) : Prop :=
  NoDup (List.map pref_userId (prefs st)).

(** A record on which a user muted the e-mail channel of task reminders. *)
Definition mutedReminderMail (uid : jstring) : PrefDoc :=
  set_taskReminders (defaultDoc uid) (all3 false true true).

(** A record whose taskUpdates section lost its sms key. *)
Definition partialTaskUpdates (uid : jstring) : PrefDoc :=
  set_taskUpdates (defaultDoc uid) (mkChannels (Some true) (Some true) None).

(** An environment that throws a duplicate-key error at the [n]-th I/O
    operation. *)
Definition raceAt (n : nat) : Env :=
  mkEnv (faultAt n dupKey) (fun _ _ => mkBatch [] 0 0) 0 documentMembers.

(** [preferences[category]] on the argument of updatePreferences. *)
Definition inputSection (input : PrefsInput) (c : Category) : option Channels :=
  match named c with
  | Transactional => i_transactional input
  | TaskUpdates => i_taskUpdates input
  | TaskReminders => i_taskReminders input
  | KeywordTaskAlerts => i_keywordTaskAlerts input
  | RecommendedTaskAlerts => i_recommendedTaskAlerts input
  | HelpfulInformation => i_helpfulInformation input
  | UpdatesNewsletters => i_updatesNewsletters input
  | OtherKey _ | NotAString _ => None
  end.

(** One flag after a write: the value the input carries, else the stored
    one, else none. *)
Definition writtenFlag (stored : option Channels) (get : Channels -> option bool)
    (new : Channels) : option bool :=
  match get new with
  | Some b => Some b
  | None => match stored with
            | Some o => get o
            | None => None
            end
  end.

(** What a write leaves in one section: the stored section when the input
    has none, else the stored flags overridden by the flags the input
    carries, push being forced on the transactional section. *)
Definition writtenSection (input : PrefsInput) (old : PrefDoc) (c : Category)
  : option Channels :=
  match inputSection input c with
  | None => section old c
  | Some new =>
      Some (mkChannels
              (writtenFlag (section old c) email new)
              (match named c with
               | Transactional => Some true
               | _ => writtenFlag (section old c) push new
               end)
              (writtenFlag (section old c) sms new))
  end.

(** A value that is no object: testing it with [in] throws. *)
Definition primitive (v : value) : bool :=
  match v with
  | VObj _ | VArr _ => false
  | _ => true
  end.

(** An object without one of the keys push, email and sms. *)
Definition lacks_channel (v : value) : bool :=
  match v with
  | VObj fields =>
      negb (hasOwn "push" fields && hasOwn "email" fields && hasOwn "sms" fields)
  | VArr _ => true
  | _ => false
  end.

(** The record an operation starts from: the stored one, or the default. *)
Definition recordOrDefault (uid : jstring) (st : Store) : PrefDoc :=
  match find (owned_by uid) (prefs st) with
  | Some d => d
  | None => defaultDoc uid
  end.

(** The input [{ taskUpdates: { email: false } }]. *)
Definition muteTaskMail : PrefsInput :=
  mkInput None (Some (mkChannels (Some false) None None)) None None None None None.

(** [a] was active no earlier than [b]. *)
Definition not_older (a b : TokenDoc) : Prop :=
  (tok_lastActive b <= tok_lastActive a)%Z.

(** The documents of one user. *)
Definition owned_tokens (uid : jstring) (l : list TokenDoc) : list TokenDoc :=
  filter (fun d => str_eqb (tok_userId d) uid) l.

(** The I/O operations of the cleanup after the transport has answered. *)
Definition cleanup_events (evs : list Event) : Prop :=
  evs = [] \/
  (exists s, evs = [EvTokUpdateMany s]) \/
  (exists i, evs = [EvTokDeleteMany i]) \/
  (exists s i, evs = [EvTokUpdateMany s; EvTokDeleteMany i]).

(** The I/O operations of sendPushNotification after the preference check. *)
Definition dispatch_events (uid : jstring) (evs : list Event) : Prop :=
  evs = [] \/
  evs = [EvTokFind uid] \/
  exists toks msg c,
    evs = EvTokFind uid :: EvTransport toks msg :: c /\ cleanup_events c.

Definition is_transport (e : Event) : bool :=
  match e with EvTransport _ _ => true | _ => false end.

Definition is_token_read (e : Event) : bool :=
  match e with EvTokFind _ | EvTokFindOne _ => true | _ => false end.

Definition is_bulk_update (e : Event) : bool :=
  match e with EvTokUpdateMany _ => true | _ => false end.

Definition is_bulk_delete (e : Event) : bool :=
  match e with EvTokDeleteMany _ => true | _ => false end.

(** Operations that create, rewrite or reassign one token document. *)
Definition is_registration_write (e : Event) : bool :=
  match e with
  | EvTokInsert _ | EvTokSave _ | EvTokDeleteDevice _ _ => true
  | _ => false
  end.

Definition count (p : Event -> bool) (evs : list Event) : nat :=
  List.length (filter p evs).

(** The collection of device tokens as the database keeps it: token strings
    and _id values are unique, and every _id was handed out before. *)
Definition registry_wf (st : Store) : Prop :=
  NoDup (List.map tok_token (fcm st)) /\
  NoDup (List.map tok_id (fcm st)) /\
  ids_fresh st.

(** The documents the pre-save hook of [doc] leaves in the collection. *)
Definition survivors (doc : TokenDoc) (deviceId : jstring) (l : list TokenDoc)
  : list TokenDoc :=
  filter (fun d => negb (same_device (tok_userId doc) deviceId d
                         && negb (tok_id d =? tok_id doc)%nat)) l.

(** The document registerToken writes over [d]. *)
Definition reassigned (env : Env) (d : TokenDoc) (userId : jstring)
    (platform : Platform) (deviceId : option jstring) : TokenDoc :=
  mkToken (tok_id d) userId (tok_token d) platform deviceId (clock env).

(** The document registerToken creates in store [st]. *)
Definition created (env : Env) (st : Store) (userId token : jstring)
    (platform : Platform) (deviceId : option jstring) : TokenDoc :=
  mkToken (next_id st) userId token platform deviceId (clock env).

Definition holds_token (token : jstring) (d : TokenDoc) : bool :=
  str_eqb (tok_token d) token.

(** The payload sendNotification hands to the service. *)
Definition payloadOf (body : SendBody) : Payload :=
  mkPayload (notificationType body) (b_title body) (b_body body) (b_data body)
            (categoryOfValue (b_category body)).

(** The payload sendBatchNotification hands to the service. *)
Definition batchPayloadOf (body : BatchBody) : Payload :=
  mkPayload (or_else (bb_type body) (bb_eventKey body)) (bb_title body) (bb_body body)
            (bb_data body) (categoryOfValue (bb_category body)).

(** The request passes the validation of sendNotification. *)
Definition well_formed_send (body : SendBody) : bool :=
  negb (is_nil (targetUsers body)) && truthy (notificationType body)
  && truthy (b_title body) && truthy (b_body body).

(** A request with a type, a title and a body but no target at all. *)
Definition noTarget : SendBody :=
  mkSendBody VUndefined VUndefined (VStr (js "task_assigned")) VUndefined
             (VStr (js "New task")) (VStr (js "You have a new task"))
             VUndefined VUndefined.

(** A batch request for the users a, b and c. *)
Definition abcBatch : BatchBody :=
  mkBatchBody (VArr [VStr (js "a"); VStr (js "b"); VStr (js "c")])
              VUndefined (VStr (js "task_assigned"))
              (VStr (js "New task")) (VStr (js "You have a new task"))
              VUndefined VUndefined.

(** * Properties *)

(** ** Strings *)

Lemma str_eqb_refl (a : jstring) : str_eqb a a = true.
Proof.
  induction a as [|x a IH]; simpl; [reflexivity|].
  now rewrite N.eqb_refl, IH.
Qed.

Lemma str_eqb_eq (a b : jstring) : str_eqb a b = true <-> a = b.
Proof.
  split.
  - revert b; induction a as [|x a IH]; intros [|y b] H; simpl in H;
      try discriminate; [reflexivity|].
    apply andb_true_iff in H as [Hx Hr].
    apply N.eqb_eq in Hx. apply IH in Hr. now subst.
  - intros ->. apply str_eqb_refl.
Qed.

Lemma str_eqb_neq (a b : jstring) : str_eqb a b = false <-> a <> b.
Proof.
  rewrite <- str_eqb_eq. destruct (str_eqb a b); split; congruence.
Qed.

Lemma trimStart_blank (s : jstring) :
  forallb is_space s = true -> trimStart s = [].
Proof.
  induction s as [|c s IH]; simpl; [reflexivity|].
  intros H. apply andb_true_iff in H as [Hc Hs]. now rewrite Hc, IH.
Qed.

Lemma trimStart_keeps_ink (s : jstring) :
  forallb is_space s = false -> forallb is_space (trimStart s) = false.
Proof.
  induction s as [|c s IH]; simpl; [discriminate|].
  destruct (is_space c) eqn:Hc; simpl.
  - exact IH.
  - now rewrite Hc.
Qed.

Lemma forallb_rev {A} (f : A -> bool) (l : list A) :
  forallb f (rev l) = forallb f l.
Proof.
  induction l as [|x l IH]; simpl; [reflexivity|].
  rewrite forallb_app, IH. simpl. rewrite andb_true_r. apply andb_comm.
Qed.

(** [s.trim() === ''] exactly when [s] is empty or blank. *)
Lemma trim_empty_iff_blank (s : jstring) :
  is_empty (trim s) = forallb is_space s.
Proof.
  unfold trim. destruct (forallb is_space s) eqn:E.
  - rewrite (trimStart_blank s E). reflexivity.
  - apply trimStart_keeps_ink in E.
    rewrite <- forallb_rev in E. apply trimStart_keeps_ink in E.
    rewrite <- forallb_rev in E.
    destruct (rev (trimStart (rev (trimStart s)))); [discriminate|reflexivity].
Qed.

(** The guard of the source rejects exactly the unidentified user ids. *)
Lemma invalidUserId_unidentified (userId : value) :
  invalidUserId userId = unidentified userId.
Proof.
  unfold invalidUserId, unidentified.
  destruct userId as [| |b|n|s|l|fs]; try reflexivity; try apply orb_true_r.
  rewrite trim_empty_iff_blank. destruct s; reflexivity.
Qed.

Lemma as_userId_unidentified (userId : value) :
  unidentified userId = true -> as_userId userId = None.
Proof.
  intros H. unfold as_userId. now rewrite invalidUserId_unidentified, H.
Qed.

Lemma as_userId_identified (uid : jstring) :
  unidentified (VStr uid) = false -> as_userId (VStr uid) = Some uid.
Proof.
  intros H. unfold as_userId. now rewrite invalidUserId_unidentified, H.
Qed.

(** ** The preference gate fails closed on an unidentified user *)

Lemma shouldSend_rejects (env : Env) (st : Store) (userId : value)
    (category : Category) (channel : Channel) :
  as_userId userId = None ->
  shouldSendNotification userId category channel env st = (Ok false, st).
Proof.
  intros H. unfold shouldSendNotification, try_catch. now rewrite H.
Qed.

(** C7. For every category and channel, shouldSendNotification answers false
    for a user id that is empty, blank or not a string, and it does so
    without any I/O: the collections and the trace of the store are left as
    they were, so no preference record is consulted or created. *)
Theorem shouldSend_unidentified_is_false :
  forall env st userId category channel,
    unidentified userId = true ->
    shouldSendNotification userId category channel env st = (Ok false, st).
Proof.
  intros env st userId category channel H.
  apply shouldSend_rejects, as_userId_unidentified, H.
Qed.

Lemma shouldSend_unidentified_is_false_witness :
  shouldSendNotification (VStr (js "  ")) KeywordTaskAlerts Push
      (mkEnv noFaults (fun _ _ => mkBatch [] 0 0) 0 documentMembers) emptyStore
    = (Ok false, emptyStore)
  /\ shouldSendNotification (VNum 7) Transactional Sms
      (mkEnv noFaults (fun _ _ => mkBatch [] 0 0) 0 documentMembers) emptyStore
    = (Ok false, emptyStore).
Proof.
  split; apply shouldSend_unidentified_is_false; reflexivity.
Defined.

(** ** Reading the preferences of an unidentified user *)

(** C10. For a user id that is empty, blank or not a string, getPreferences
    returns the documented defaults and performs no I/O: the store is the
    one it started from, so nothing is read and no default record is
    created; the call does not fail. *)
Theorem getPreferences_unidentified_defaults :
  forall env st userId,
    unidentified userId = true ->
    getPreferences userId env st = (Ok documentedDefaults, st).
Proof.
  intros env st userId H.
  unfold getPreferences, try_catch.
  now rewrite (as_userId_unidentified userId H).
Qed.

Lemma getPreferences_unidentified_defaults_witness :
  getPreferences (VStr []) (mkEnv (faultAt 0 dbDown) (fun _ _ => mkBatch [] 0 0) 0 documentMembers) emptyStore
    = (Ok documentedDefaults, emptyStore)
  /\ getPreferences VUndefined (mkEnv noFaults (fun _ _ => mkBatch [] 0 0) 0 documentMembers) emptyStore
    = (Ok documentedDefaults, emptyStore).
Proof.
  split; apply getPreferences_unidentified_defaults; reflexivity.
Defined.

(** ** The get-or-create sequence *)

Lemma find_none_existsb {A} (f : A -> bool) (l : list A) :
  find f l = None -> existsb f l = false.
Proof.
  induction l as [|x l IH]; simpl; [reflexivity|].
  destruct (f x); [discriminate|]. exact IH.
Qed.

Lemma find_app_fresh {A} (f : A -> bool) (l : list A) (x : A) :
  find f l = None -> f x = true -> find f (l ++ [x]) = Some x.
Proof.
  induction l as [|y l IH]; simpl; intros Hn Hx.
  - now rewrite Hx.
  - destruct (f y); [discriminate|]. now apply IH.
Qed.

Lemma owned_by_default (uid : jstring) : owned_by uid (defaultDoc uid) = true.
Proof. apply str_eqb_refl. Qed.

Ltac split_fault H :=
  match type of H with
  | context [faults ?env ?n] =>
      let F := fresh "Hfault" in destruct (faults env n) eqn:F
  end.

(** What findOrCreateDefault can do to the store, and what it returns. *)
Lemma findOrCreateDefault_shape :
  forall env st uid r st1,
    findOrCreateDefault uid env st = (r, st1) ->
    fcm st1 = fcm st /\ next_id st1 = next_id st /\
    (exists evs, extends_by st st1 evs /\ forallb is_pref_event evs = true) /\
    (prefs st1 = prefs st \/
     (prefs st1 = prefs st ++ [defaultDoc uid] /\
      find (owned_by uid) (prefs st) = None)) /\
    (forall d, r = Ok (Some d) -> find (owned_by uid) (prefs st1) = Some d).
Proof.
  intros env st uid r st1 H.
  unfold findOrCreateDefault, bind, PrefsDb.findOne, io in H.
  split_fault H.
  { inversion H; subst; clear H. simpl. repeat split; auto.
    - exists [EvPrefFindOne uid]. split; reflexivity.
    - intros d [=]. }
  destruct (find (owned_by uid) (prefs (log (EvPrefFindOne uid) st))) as [p|] eqn:Hfind.
  { unfold ret in H. inversion H; subst; clear H. simpl in *. repeat split; auto.
    - exists [EvPrefFindOne uid]. split; reflexivity.
    - intros d [= <-]. exact Hfind. }
  simpl in Hfind.
  unfold try_catch, bind, PrefsDb.createDefault, io in H.
  split_fault H.
  { destruct (code_is e 11000).
    - unfold PrefsDb.findOne, io in H. split_fault H.
      + inversion H; subst; clear H. simpl. repeat split; auto.
        * exists [EvPrefFindOne uid; EvPrefCreate uid; EvPrefFindOne uid].
          split; [unfold extends_by; simpl; now rewrite <- !app_assoc | reflexivity].
        * intros d [=].
      + inversion H; subst; clear H. simpl. repeat split; auto.
        * exists [EvPrefFindOne uid; EvPrefCreate uid; EvPrefFindOne uid].
          split; [unfold extends_by; simpl; now rewrite <- !app_assoc | reflexivity].
        * rewrite Hfind. intros d [=].
    - unfold throw in H. inversion H; subst; clear H. simpl. repeat split; auto.
      + exists [EvPrefFindOne uid; EvPrefCreate uid].
        split; [unfold extends_by; simpl; now rewrite <- !app_assoc | reflexivity].
      + intros d [=]. }
  simpl in H. rewrite (find_none_existsb _ _ Hfind) in H.
  unfold ret in H. inversion H; subst; clear H. simpl. repeat split; auto.
  - exists [EvPrefFindOne uid; EvPrefCreate uid].
    split; [unfold extends_by; simpl; now rewrite <- !app_assoc | reflexivity].
  - intros d [= <-]. apply find_app_fresh; [exact Hfind | apply owned_by_default].
Qed.

(** With a record in the collection and a findOne that does not throw, the
    sequence returns that record after one read. *)
Lemma findOrCreateDefault_found :
  forall env st uid d,
    faults env (List.length (trace st)) = None ->
    find (owned_by uid) (prefs st) = Some d ->
    findOrCreateDefault uid env st = (Ok (Some d), log (EvPrefFindOne uid) st).
Proof.
  intros env st uid d Hq Hf.
  unfold findOrCreateDefault, bind, PrefsDb.findOne, io.
  rewrite Hq. simpl. now rewrite Hf.
Qed.

Lemma log_length (ev : Event) (st : Store) :
  List.length (trace (log ev st)) = S (List.length (trace st)).
Proof. simpl. rewrite length_app. simpl. lia. Qed.

(** Without a record and without a fault, the sequence creates the default
    record and returns it. *)
Lemma findOrCreateDefault_created :
  forall env st uid,
    quiet_from env (List.length (trace st)) ->
    find (owned_by uid) (prefs st) = None ->
    findOrCreateDefault uid env st =
      (Ok (Some (defaultDoc uid)),
       mkStore (prefs st ++ [defaultDoc uid]) (fcm st) (next_id st)
               (trace st ++ [EvPrefFindOne uid; EvPrefCreate uid])).
Proof.
  intros env st uid Hq Hf.
  unfold findOrCreateDefault, bind, PrefsDb.findOne, io.
  rewrite (Hq _ (le_n _)). simpl. rewrite Hf.
  unfold try_catch, bind, PrefsDb.createDefault, io.
  rewrite log_length, (Hq _ (Nat.le_succ_diag_r _)). simpl.
  rewrite (find_none_existsb _ _ Hf). unfold ret. simpl.
  now rewrite <- app_assoc.
Qed.

(** Reading a property of the record and testing it for the channels do no
    I/O. *)
Lemma member_store (p : PrefDoc) (category : Category) (env : Env) (st : Store) :
  snd (member p category env st) = st.
Proof.
  unfold member. destruct (propertyKey category); [|reflexivity].
  destruct (names_section category); reflexivity.
Qed.

Lemma hasChannels_store (x : value) (env : Env) (st : Store) :
  snd (hasChannels x env st) = st.
Proof. destruct x; reflexivity. Qed.

(** The statements of the gate that follow the read of the record keep the
    store, whatever they answer or throw. *)
Lemma verdict_store (p : PrefDoc) (category : Category) (channel : Channel)
    (env : Env) (st : Store) :
  snd ((categoryPrefs <- member p category ;;
        if negb (truthy categoryPrefs) then ret true
        else if push_only_category category
        then ret (is_push channel && is_vtrue (field "push" categoryPrefs))
        else
          complete <- hasChannels categoryPrefs ;;
          if complete
          then ret (is_vtrue (field (channelName channel) categoryPrefs))
          else ret false) env st) = st.
Proof.
  unfold bind at 1.
  pose proof (member_store p category env st) as Hm.
  destruct (member p category env st) as [[x|e] s]; simpl in Hm; subst s;
    [|reflexivity].
  destruct (negb (truthy x)); [reflexivity|].
  destruct (push_only_category category); [reflexivity|].
  unfold bind.
  pose proof (hasChannels_store x env st) as Hc.
  destruct (hasChannels x env st) as [[c|e] s]; simpl in Hc; subst s;
    [|reflexivity].
  destruct c; reflexivity.
Qed.

(** Case analysis on the statements of the gate that follow the read of a
    record without a stored section under the key, in a hypothesis where the
    binds are unfolded. *)
Ltac gate_tail H :=
  match type of H with
  | context [member ?p ?c ?env ?st] =>
      let x := fresh "x" in
      let s := fresh "s" in
      let Hm := fresh "Hm" in
      let Hs := fresh "Hs" in
      destruct (member p c env st) as [[x|?] s] eqn:Hm;
      pose proof (member_store p c env st) as Hs;
      rewrite Hm in Hs; simpl in Hs; subst s;
      [ destruct (negb (truthy x)) eqn:?;
        [ | destruct (push_only_category c) eqn:?;
            [ | let b := fresh "complete" in
                let s' := fresh "s" in
                let Hc := fresh "Hc" in
                let Hcs := fresh "Hcs" in
                destruct (hasChannels x env st) as [[b|?] s'] eqn:Hc;
                pose proof (hasChannels_store x env st) as Hcs;
                rewrite Hc in Hcs; simpl in Hcs; subst s';
                [destruct b|] ] ]
      | ]
  end.

(** shouldSendNotification never throws. *)
Lemma shouldSend_total :
  forall env st userId category channel,
    exists b st1, shouldSendNotification userId category channel env st = (Ok b, st1).
Proof.
  intros. unfold shouldSendNotification, try_catch.
  match goal with |- context [match ?m env st with _ => _ end] =>
    destruct (m env st) as [[b|e] st1] end; eauto.
  unfold ret. eauto.
Qed.

(** The preference gate touches nothing but the preference collection. *)
Lemma shouldSend_frame :
  forall env st userId category channel b st1,
    shouldSendNotification userId category channel env st = (Ok b, st1) ->
    fcm st1 = fcm st /\ next_id st1 = next_id st /\
    exists evs, extends_by st st1 evs /\ forallb is_pref_event evs = true.
Proof.
  intros env st userId category channel b st1 H.
  unfold shouldSendNotification, try_catch in H.
  destruct (as_userId userId) as [uid|].
  2:{ unfold ret in H. inversion H; subst. repeat split; auto.
      exists []. split; [unfold extends_by; now rewrite app_nil_r | reflexivity]. }
  unfold bind in H.
  destruct (findOrCreateDefault uid env st) as [r st2] eqn:Hfc.
  apply findOrCreateDefault_shape in Hfc as (Hf & Hn & Hevs & _ & _).
  assert (st1 = st2) as ->.
  { destruct r as [[p|]|e]; unfold ret in H.
    - destruct (section p category) as [c|].
      + destruct (push_only_category category); [now inversion H|].
        destruct (has (push c) && has (email c) && has (sms c)); now inversion H.
      + gate_tail H; now inversion H.
    - now inversion H.
    - now inversion H. }
  auto.
Qed.

(** An allowed send was asked for by a string user id. *)
Lemma shouldSend_true_is_string :
  forall env st userId category channel st1,
    shouldSendNotification userId category channel env st = (Ok true, st1) ->
    exists uid, userId = VStr uid /\ unidentified userId = false.
Proof.
  intros env st userId category channel st1 H.
  destruct (unidentified userId) eqn:E.
  - rewrite (shouldSend_rejects env st userId category channel
               (as_userId_unidentified userId E)) in H.
    discriminate.
  - destruct userId; try discriminate. eauto.
Qed.

(** ** The push-only categories *)

(** C3, as stated, fails: with the user's record in the collection, a
    findOne that throws makes the gate answer true for keywordTaskAlerts on
    the email channel (and on push although the stored flag is false). *)
Lemma keyword_alerts_fail_open :
  ~ (forall env st uid,
        fst (shouldSendNotification (VStr uid) KeywordTaskAlerts Email env st) = Ok false)
  /\ ~ (forall env st uid d c,
        find (owned_by uid) (prefs st) = Some d ->
        keywordTaskAlerts d = Some c ->
        fst (shouldSendNotification (VStr uid) KeywordTaskAlerts Push env st)
          = Ok (is_true (push c))).
Proof.
  split; intros H.
  - specialize (H (mkEnv (faultAt 0 dbDown) (fun _ _ => mkBatch [] 0 0) 0 documentMembers)
                  (mkStore [mutedKeywordAlerts (js "u1")] [] 0 [])
                  (js "u1")).
    vm_compute in H. discriminate.
  - specialize (H (mkEnv (faultAt 0 dbDown) (fun _ _ => mkBatch [] 0 0) 0 documentMembers)
                  (mkStore [mutedKeywordAlerts (js "u1")] [] 0 [])
                  (js "u1") (mutedKeywordAlerts (js "u1")) (pushOnly false)
                  eq_refl eq_refl).
    vm_compute in H. discriminate.
Qed.

(** C3, amended. For an identified user and for keywordTaskAlerts or
    recommendedTaskAlerts: when the get-or-create sequence yields a record
    that has the category's settings, the gate answers false on every
    channel but push and, on push, whether the record's push flag is true;
    when the sequence throws, the gate fails open and answers true. *)
Theorem push_only_gate :
  forall env st uid category channel,
    unidentified (VStr uid) = false ->
    push_only_category category = true ->
    (forall d c st1,
        findOrCreateDefault uid env st = (Ok (Some d), st1) ->
        section d category = Some c ->
        shouldSendNotification (VStr uid) category channel env st
          = (Ok (is_push channel && is_true (push c)), st1))
    /\ (forall e st1,
        findOrCreateDefault uid env st = (Throw e, st1) ->
        shouldSendNotification (VStr uid) category channel env st = (Ok true, st1)).
Proof.
  intros env st uid category channel Hid Hcat.
  split.
  - intros d c st1 Hrec Hsec.
    unfold shouldSendNotification, try_catch, bind.
    rewrite (as_userId_identified uid Hid), Hrec, Hsec, Hcat. reflexivity.
  - intros e st1 Hrec.
    unfold shouldSendNotification, try_catch, bind.
    rewrite (as_userId_identified uid Hid), Hrec. reflexivity.
Qed.

Lemma push_only_gate_witness :
  let st := mkStore [mutedKeywordAlerts (js "u1"); defaultDoc (js "u2")] [] 0 [] in
  shouldSendNotification (VStr (js "u1")) KeywordTaskAlerts Email quietEnv st
    = (Ok false, log (EvPrefFindOne (js "u1")) st)
  /\ shouldSendNotification (VStr (js "u1")) KeywordTaskAlerts Push quietEnv st
    = (Ok false, log (EvPrefFindOne (js "u1")) st)
  /\ shouldSendNotification (VStr (js "u2")) RecommendedTaskAlerts Push quietEnv st
    = (Ok true, log (EvPrefFindOne (js "u2")) st)
  /\ shouldSendNotification (VStr (js "u2")) RecommendedTaskAlerts Sms quietEnv st
    = (Ok false, log (EvPrefFindOne (js "u2")) st).
Proof.
  intros st.
  assert (H1 : findOrCreateDefault (js "u1") quietEnv st
               = (Ok (Some (mutedKeywordAlerts (js "u1"))), log (EvPrefFindOne (js "u1")) st))
    by reflexivity.
  assert (H2 : findOrCreateDefault (js "u2") quietEnv st
               = (Ok (Some (defaultDoc (js "u2"))), log (EvPrefFindOne (js "u2")) st))
    by reflexivity.
  split; [|split; [|split]].
  - exact (proj1 (push_only_gate quietEnv st (js "u1") KeywordTaskAlerts Email
                    eq_refl eq_refl) _ (pushOnly false) _ H1 eq_refl).
  - exact (proj1 (push_only_gate quietEnv st (js "u1") KeywordTaskAlerts Push
                    eq_refl eq_refl) _ (pushOnly false) _ H1 eq_refl).
  - exact (proj1 (push_only_gate quietEnv st (js "u2") RecommendedTaskAlerts Push
                    eq_refl eq_refl) _ (pushOnly true) _ H2 eq_refl).
  - exact (proj1 (push_only_gate quietEnv st (js "u2") RecommendedTaskAlerts Sms
                    eq_refl eq_refl) _ (pushOnly true) _ H2 eq_refl).
Defined.

(** ** Writing preferences *)

Lemma applyInput_on_record (input : PrefsInput) (d : PrefDoc) :
  exists p,
    applyInput input (Some d) = Ok (Some p) /\
    pref_userId p = pref_userId d /\
    transactional p =
      match i_transactional input with
      | Some new => Some (set_push_true (spread (transactional d) new))
      | None => transactional d
      end.
Proof.
  destruct input as [[t|] [a|] [b|] [c|] [e|] [f|] [g|]];
    unfold applyInput, assignSection, andThen; simpl;
    eexists; (split; [reflexivity | split; reflexivity]).
Qed.

Lemma applyInput_without_record (input : PrefsInput) (updated : option PrefDoc) :
  applyInput input None = Ok updated ->
  updated = None /\ i_transactional input = None.
Proof.
  destruct input as [[t|] [a|] [b|] [c|] [e|] [f|] [g|]];
    unfold applyInput, assignSection, andThen; simpl;
    intros H; inversion H; auto.
Qed.

Lemma find_some_holds {A} (f : A -> bool) (l : list A) (x : A) :
  find f l = Some x -> f x = true /\ In x l.
Proof. intros H. apply find_some in H. tauto. Qed.

Lemma find_map_replace {A} (f : A -> bool) (l : list A) (d p : A) :
  find f l = Some d -> f p = true ->
  find f (List.map (fun q => if f q then p else q) l) = Some p.
Proof.
  induction l as [|x l IH]; simpl; [discriminate|].
  intros H Hp. destruct (f x) eqn:E.
  - simpl. now rewrite Hp.
  - simpl. rewrite E. now apply IH.
Qed.

Lemma owned_by_same (uid : jstring) (p q : PrefDoc) :
  pref_userId p = pref_userId q -> owned_by uid p = owned_by uid q.
Proof. unfold owned_by. now intros ->. Qed.

Lemma owned_by_userId (uid : jstring) (p : PrefDoc) :
  owned_by uid p = true -> pref_userId p = uid.
Proof. apply str_eqb_eq. Qed.

Lemma is_true_some (f : option bool) : is_true f = true -> f = Some true.
Proof. destruct f as [[|]|]; simpl; congruence. Qed.

(** C2. For every identified user and every input of updatePreferences:
    provided the input carries a transactional section or the user's stored
    record already has transactional.push on (which every record written by
    this service has), every successful call returns preferences whose
    transactional.push is true and leaves every stored record of the user
    with transactional.push true, whatever value the input supplied for it;
    and when no I/O operation throws, the call is successful and a record
    of the user is stored. *)
Theorem updatePreferences_forces_transactional_push :
  forall env st uid input,
    unidentified (VStr uid) = false ->
    (i_transactional input <> None \/
     forall d, In d (records_of uid st) -> transactional_push_on d = true) ->
    (forall p st',
        updatePreferences (VStr uid) input env st = (Ok p, st') ->
        push (r_transactional p) = Some true /\
        forall d, In d (records_of uid st') -> transactional_push_on d = true)
    /\ (quiet_from env (List.length (trace st)) ->
        exists p st' d,
          updatePreferences (VStr uid) input env st = (Ok p, st') /\
          find (owned_by uid) (prefs st') = Some d /\
          transactional_push_on d = true /\
          r_transactional p = or_default (transactional d) (all3 false true true)).
Proof.
  intros env st uid input Hid Hpre.
  unfold updatePreferences, try_catch, bind.
  rewrite (as_userId_identified uid Hid).
  destruct (findOrCreateDefault uid env st) as [r st1] eqn:Hfc.
  pose proof (findOrCreateDefault_shape _ _ _ _ _ Hfc) as (_ & _ & (evs & Hext & _) & Hprefs & Hret).
  (* the records of the user after the get-or-create step *)
  assert (Hinv1 : i_transactional input = None ->
                  forall d, In d (records_of uid st1) -> transactional_push_on d = true).
  { intros Hnone d Hd. destruct Hpre as [Hc|Hall]; [congruence|].
    unfold records_of in *. destruct Hprefs as [E|[E _]]; rewrite E in Hd;
      [now apply Hall|].
    rewrite filter_app in Hd. apply in_app_or in Hd as [Hd|Hd]; [now apply Hall|].
    simpl in Hd. rewrite owned_by_default in Hd. destruct Hd as [<-|[]]. reflexivity. }
  split.
  - intros p st' H.
    destruct r as [[d|]|e]; unfold lift in H.
    + destruct (applyInput_on_record input d) as (p' & Happ & Huid & Htr).
      rewrite Happ in H. unfold PrefsDb.save, io in H.
      destruct (faults env (List.length (trace st1))); [discriminate|].
      unfold ret in H. inversion H; subst p st'; clear H.
      pose proof (find_some_holds _ _ _ (Hret d eq_refl)) as [Hown Hin].
      assert (Hp' : transactional_push_on p' = true).
      { unfold transactional_push_on. rewrite Htr.
        destruct (i_transactional input) eqn:Hi; [reflexivity|].
        apply (Hinv1 eq_refl d). unfold records_of. apply filter_In. auto. }
      split.
      * unfold preferencesOf. simpl. unfold transactional_push_on in Hp'.
        destruct (transactional p'); [|discriminate]. simpl. now apply is_true_some.
      * intros q Hq. unfold records_of in Hq. simpl in Hq.
        apply filter_In in Hq as [Hq Hoq].
        apply in_map_iff in Hq as (x & Hx & _).
        rewrite Huid, (owned_by_userId _ _ Hown) in Hx.
        destruct (owned_by uid x) eqn:E; subst q; [exact Hp'|congruence].
    + destruct (applyInput input None) as [updated|e] eqn:Happ; [|discriminate].
      apply applyInput_without_record in Happ as [-> Hnone].
      unfold ret in H. inversion H; subst p st'; clear H.
      split; [reflexivity | now apply Hinv1].
    + discriminate.
  - intros Hq.
    destruct (find (owned_by uid) (prefs st)) as [d0|] eqn:Hfind.
    + rewrite (findOrCreateDefault_found env st uid _ (Hq _ (le_n _)) Hfind) in Hfc.
      inversion Hfc; subst r st1; clear Hfc. unfold lift.
      destruct (applyInput_on_record input d0) as (p' & Happ & Huid & Htr).
      rewrite Happ. unfold PrefsDb.save, io.
      rewrite log_length, (Hq _ (Nat.le_succ_diag_r _)). unfold ret.
      pose proof (find_some_holds _ _ _ Hfind) as [Hown Hin].
      assert (Hown' : owned_by uid p' = true) by now rewrite (owned_by_same uid _ _ Huid).
      eexists; eexists; exists p'.
      split; [reflexivity|]. simpl.
      rewrite Huid, (owned_by_userId _ _ Hown).
      split; [exact (find_map_replace _ _ _ _ Hfind Hown')|].
      split; [|reflexivity].
      unfold transactional_push_on. rewrite Htr.
      destruct (i_transactional input) eqn:Hi; [reflexivity|].
      apply (Hinv1 eq_refl d0). unfold records_of. simpl. apply filter_In. auto.
    + rewrite (findOrCreateDefault_created env st uid Hq Hfind) in Hfc.
      inversion Hfc; subst r st1; clear Hfc. unfold lift.
      destruct (applyInput_on_record input (defaultDoc uid)) as (p' & Happ & Huid & Htr).
      rewrite Happ. unfold PrefsDb.save, io. simpl trace.
      rewrite length_app. simpl List.length.
      rewrite (Hq (List.length (trace st) + 2)) by lia. unfold ret.
      assert (Hown' : owned_by uid p' = true)
        by (rewrite (owned_by_same uid _ _ Huid); apply owned_by_default).
      eexists; eexists; exists p'.
      split; [reflexivity|]. simpl prefs.
      rewrite Huid. simpl pref_userId.
      split; [apply (find_map_replace (owned_by uid) _ (defaultDoc uid));
              [apply find_app_fresh; [exact Hfind | apply owned_by_default] | exact Hown']|].
      split; [|reflexivity].
      unfold transactional_push_on. rewrite Htr.
      destruct (i_transactional input); reflexivity.
Qed.

Lemma updatePreferences_forces_transactional_push_witness :
  let input := mkInput (Some (mkChannels None (Some false) None))
                       None None None None None None in
  exists p st',
    updatePreferences (VStr (js "u1")) input quietEnv emptyStore = (Ok p, st') /\
    push (r_transactional p) = Some true /\
    forall d, In d (records_of (js "u1") st') -> transactional_push_on d = true.
Proof.
  intros input.
  destruct (updatePreferences_forces_transactional_push
              quietEnv emptyStore (js "u1") input eq_refl
              (or_introl (fun H : i_transactional input = None =>
                            match H in _ = x return
                                  match x with None => False | Some _ => True end
                            with eq_refl => I end)))
    as [Hsafe Hlive].
  destruct (Hlive (fun k _ => eq_refl)) as (p & st' & d & Hrun & _).
  exists p, st'. split; [exact Hrun | exact (Hsafe p st' Hrun)].
Defined.

(** ** transactional.push as an invariant of the preference collection *)

Lemma all_push_on_empty : all_push_on emptyStore.
Proof. intros d []. Qed.

Lemma findOrCreateDefault_keeps_push_on (env : Env) (st st1 : Store) (uid : jstring)
    (r : Result (option PrefDoc)) :
  all_push_on st ->
  findOrCreateDefault uid env st = (r, st1) ->
  all_push_on st1.
Proof.
  intros Hinv H d Hd.
  apply findOrCreateDefault_shape in H as (_ & _ & _ & [E|[E _]] & _);
    rewrite E in Hd; [now apply Hinv|].
  apply in_app_or in Hd as [Hd|[<-|[]]]; [now apply Hinv | reflexivity].
Qed.

Lemma shouldSend_keeps_push_on (env : Env) (st st1 : Store) (userId : value)
    (category : Category) (channel : Channel) (r : Result bool) :
  all_push_on st ->
  shouldSendNotification userId category channel env st = (r, st1) ->
  all_push_on st1.
Proof.
  intros Hinv H. unfold shouldSendNotification, try_catch in H.
  destruct (as_userId userId) as [uid|]; [|unfold ret in H; now inversion H; subst].
  unfold bind in H.
  destruct (findOrCreateDefault uid env st) as [r0 st2] eqn:Hfc.
  apply (findOrCreateDefault_keeps_push_on _ _ _ _ _ Hinv) in Hfc.
  assert (st1 = st2) as ->; [|exact Hfc].
  destruct r0 as [[p|]|e]; unfold ret in H.
  - destruct (section p category) as [c|].
    + destruct (push_only_category category); [now inversion H|].
      destruct (has (push c) && has (email c) && has (sms c)); now inversion H.
    + gate_tail H; now inversion H.
  - now inversion H.
  - now inversion H.
Qed.

Lemma getPreferences_keeps_push_on (env : Env) (st st1 : Store) (userId : value)
    (r : Result Preferences) :
  all_push_on st ->
  getPreferences userId env st = (r, st1) ->
  all_push_on st1.
Proof.
  intros Hinv H. unfold getPreferences, try_catch in H.
  destruct (as_userId userId) as [uid|]; [|unfold ret in H; now inversion H; subst].
  unfold bind in H.
  destruct (findOrCreateDefault uid env st) as [r0 st2] eqn:Hfc.
  apply (findOrCreateDefault_keeps_push_on _ _ _ _ _ Hinv) in Hfc.
  destruct r0 as [p|e]; unfold ret, throw in H; now inversion H; subst.
Qed.

(** Whatever the input and whatever the outcome, updatePreferences leaves
    transactional.push on in every stored record. *)
Lemma updatePreferences_keeps_push_on (env : Env) (st st1 : Store) (userId : value)
    (input : PrefsInput) (r : Result Preferences) :
  all_push_on st ->
  updatePreferences userId input env st = (r, st1) ->
  all_push_on st1.
Proof.
  intros Hinv H. unfold updatePreferences, try_catch in H.
  destruct (as_userId userId) as [uid|]; [|unfold throw in H; now inversion H; subst].
  unfold bind in H.
  destruct (findOrCreateDefault uid env st) as [r0 st2] eqn:Hfc.
  pose proof (findOrCreateDefault_shape _ _ _ _ _ Hfc) as (_ & _ & _ & _ & Hret).
  apply (findOrCreateDefault_keeps_push_on _ _ _ _ _ Hinv) in Hfc.
  destruct r0 as [[d|]|e]; unfold lift in H.
  - destruct (applyInput_on_record input d) as (p & Happ & _ & Htr).
    rewrite Happ in H. unfold PrefsDb.save, io in H.
    destruct (faults env (List.length (trace st2)));
      unfold ret, throw in H; inversion H; subst; clear H; [exact Hfc|].
    intros q Hq. simpl in Hq. apply in_map_iff in Hq as (x & Hx & Hin).
    destruct (owned_by (pref_userId p) x); [|subst q; now apply Hfc].
    subst q. unfold transactional_push_on. rewrite Htr.
    destruct (i_transactional input); [reflexivity|].
    apply (Hfc d). apply (find_some_holds _ _ _ (Hret d eq_refl)).
  - destruct (applyInput input None) as [updated|e] eqn:Happ.
    + apply applyInput_without_record in Happ as [-> _].
      unfold ret in H. now inversion H; subst.
    + unfold throw in H. now inversion H; subst.
  - unfold throw in H. now inversion H; subst.
Qed.

(** ** A denied send *)

(** C8. When the preference check denies the send, sendPushNotification
    returns sent 0 and failed 0 (with success true: a denial is not a
    failure); the only I/O it performed is that of the preference check, so
    the device tokens are not read and the transport is not called. *)
Theorem denied_send_reads_no_token :
  forall env st userId notification st1,
    shouldSendNotification userId (categoryOrDefault (n_category notification))
                           Push env st = (Ok false, st1) ->
    sendPushNotification userId notification env st = (Ok (mkSendResult true 0 0), st1)
    /\ fcm st1 = fcm st
    /\ exists evs, extends_by st st1 evs /\ forallb is_pref_event evs = true.
Proof.
  intros env st userId notification st1 H.
  split.
  - unfold sendPushNotification, try_catch, bind. rewrite H. reflexivity.
  - apply shouldSend_frame in H. tauto.
Qed.

Lemma denied_send_reads_no_token_witness :
  let st := mkStore [mutedTaskUpdates (js "u1")]
                    [mkToken 0 (js "u1") (js "tok-1") Android None 10] 1 [] in
  sendPushNotification (VStr (js "u1")) samplePayload quietEnv st
    = (Ok (mkSendResult true 0 0), log (EvPrefFindOne (js "u1")) st)
  /\ fcm (log (EvPrefFindOne (js "u1")) st) = fcm st
  /\ exists evs, extends_by st (log (EvPrefFindOne (js "u1")) st) evs
                 /\ forallb is_pref_event evs = true.
Proof.
  intros st.
  exact (denied_send_reads_no_token quietEnv st (VStr (js "u1")) samplePayload
           (log (EvPrefFindOne (js "u1")) st) eq_refl).
Defined.

(** ** Device tokens: sorting, selection by outcome *)

Lemma insertDesc_perm (d : TokenDoc) (l : list TokenDoc) :
  Permutation (insertDesc d l) (d :: l).
Proof.
  induction l as [|x l IH]; simpl; [apply Permutation_refl|].
  destruct (tok_lastActive x <=? tok_lastActive d)%Z; [apply Permutation_refl|].
  eapply perm_trans; [apply perm_skip, IH | apply perm_swap].
Qed.

Lemma sortDesc_perm (l : list TokenDoc) : Permutation (sortDesc l) l.
Proof.
  induction l as [|x l IH]; simpl; [constructor|].
  eapply perm_trans; [apply insertDesc_perm | now apply perm_skip].
Qed.

Lemma NoDup_map_filter {A B} (f : A -> B) (g : A -> bool) (l : list A) :
  NoDup (List.map f l) -> NoDup (List.map f (filter g l)).
Proof.
  induction l as [|x l IH]; simpl; intros H; [constructor|].
  inversion H as [|? ? Hx Hl]; subst.
  destruct (g x); simpl; [|now apply IH].
  constructor; [|now apply IH].
  intros Hin. apply Hx. apply in_map_iff in Hin as (y & Hy & Hin).
  apply filter_In in Hin as [Hin _]. apply in_map_iff. eauto.
Qed.

(** The tokens of a user, as find returns them, inherit the well-formedness
    of the collection and are documents of the collection. *)
Lemma user_tokens_wf (uid : jstring) (l : list TokenDoc) :
  tokens_wf l ->
  tokens_wf (sortDesc (filter (fun d => str_eqb (tok_userId d) uid) l)) /\
  forall t, In t (sortDesc (filter (fun d => str_eqb (tok_userId d) uid) l)) ->
            In t l /\ tok_userId t = uid.
Proof.
  intros [Hnd Hne].
  set (mine := filter (fun d => str_eqb (tok_userId d) uid) l).
  assert (Hin : forall t, In t (sortDesc mine) -> In t l /\ tok_userId t = uid).
  { intros t Ht. apply (Permutation_in _ (sortDesc_perm mine)) in Ht.
    apply filter_In in Ht as [Ht Hu]. split; [exact Ht | now apply str_eqb_eq]. }
  split; [split|exact Hin].
  - apply (Permutation_NoDup (l := List.map tok_token mine)).
    + apply Permutation_map, Permutation_sym, sortDesc_perm.
    + now apply NoDup_map_filter.
  - intros d Hd. apply Hne. now apply Hin.
Qed.

Lemma mem_In (s : jstring) (l : list jstring) : mem s l = true <-> In s l.
Proof.
  unfold mem. rewrite existsb_exists. split.
  - intros (x & Hx & E). apply str_eqb_eq in E. now subst.
  - intros H. exists s. split; [exact H | apply str_eqb_refl].
Qed.

Lemma mem_not_In (s : jstring) (l : list jstring) : mem s l = false <-> ~ In s l.
Proof.
  rewrite <- mem_In. destruct (mem s l); split; congruence.
Qed.

(** With one response per token and no empty token string, the two
    map-and-filter passes of the source compute [chosen]. *)
Lemma selectTokens_aligned (sel : SendResponse -> bool) :
  forall resps pre suf,
    List.length resps = List.length suf ->
    (forall t, In t suf -> tok_token t <> []) ->
    selectTokens sel (pre ++ suf) resps (List.length pre) = Ok (chosen sel suf resps).
Proof.
  induction resps as [|r resps IH]; intros pre suf Hlen Hne.
  - destruct suf; [reflexivity|discriminate].
  - destruct suf as [|t suf]; [discriminate|].
    simpl in Hlen. injection Hlen as Hlen.
    assert (Hrec : selectTokens sel (pre ++ t :: suf) resps (S (List.length pre))
                   = Ok (chosen sel suf resps)).
    { replace (pre ++ t :: suf) with ((pre ++ [t]) ++ suf)
        by (rewrite <- app_assoc; reflexivity).
      replace (S (List.length pre)) with (List.length (pre ++ [t]))
        by (rewrite length_app; simpl; lia).
      apply IH; [exact Hlen|]. intros x Hx. apply Hne. now right. }
    simpl. destruct (sel r); [|exact Hrec].
    rewrite nth_error_app2 by lia. rewrite Nat.sub_diag. simpl.
    rewrite Hrec. simpl.
    destruct (tok_token t) eqn:E; [|reflexivity].
    exfalso. apply (Hne t); [now left | exact E].
Qed.

Lemma chosen_from_tokens (sel : SendResponse -> bool) :
  forall tokens resps s,
    In s (chosen sel tokens resps) -> In s (List.map tok_token tokens).
Proof.
  induction tokens as [|t ts IH]; intros [|r rs] s H; simpl in *; try tauto.
  destruct (sel r); [destruct H as [H|H]|]; eauto.
Qed.

Lemma chosen_selected (sel : SendResponse -> bool) :
  forall tokens resps i t r,
    nth_error tokens i = Some t -> nth_error resps i = Some r ->
    sel r = true -> In (tok_token t) (chosen sel tokens resps).
Proof.
  induction tokens as [|t0 ts IH]; intros [|r0 rs] [|i] t r Ht Hr Hs;
    simpl in *; try discriminate.
  - injection Ht as ->. injection Hr as ->. rewrite Hs. now left.
  - destruct (sel r0); [right|]; eapply IH; eauto.
Qed.

Lemma chosen_rejected (sel : SendResponse -> bool) :
  forall tokens resps i t r,
    NoDup (List.map tok_token tokens) ->
    nth_error tokens i = Some t -> nth_error resps i = Some r ->
    sel r = false -> ~ In (tok_token t) (chosen sel tokens resps).
Proof.
  induction tokens as [|t0 ts IH]; intros [|r0 rs] [|i] t r Hnd Ht Hr Hs;
    simpl in *; try discriminate; try tauto.
  - injection Ht as ->. injection Hr as ->. rewrite Hs.
    inversion Hnd as [|? ? Hx _]; subst.
    intros Hin. apply Hx. eapply chosen_from_tokens; eauto.
  - inversion Hnd as [|? ? Hx Hl]; subst.
    assert (Hrest : ~ In (tok_token t) (chosen sel ts rs)) by (eapply IH; eauto).
    destruct (sel r0); [|exact Hrest].
    intros [E|Hin]; [|now apply Hrest].
    apply Hx. rewrite E. apply in_map. eapply nth_error_In; eauto.
Qed.

Lemma delivered_not_invalid (r : SendResponse) :
  delivered r = true -> permanentlyInvalid r = false.
Proof.
  unfold delivered, permanentlyInvalid. now intros ->.
Qed.

(** ** The steps of sendPushNotification *)

Lemma bind_ok {A B} (m : M A) (k : A -> M B) (env : Env) (st st' : Store) (a : A) :
  m env st = (Ok a, st') -> bind m k env st = k a env st'.
Proof. intros H. unfold bind. now rewrite H. Qed.

Lemma bind_throw {A B} (m : M A) (k : A -> M B) (env : Env) (st st' : Store) (e : Exn) :
  m env st = (Throw e, st') -> bind m k env st = (Throw e, st').
Proof. intros H. unfold bind. now rewrite H. Qed.

Lemma io_quiet {A} (ev : Event) (act : Env -> Store -> Result A * Store)
    (env : Env) (st : Store) :
  faults env (List.length (trace st)) = None ->
  io ev act env st = act env (log ev st).
Proof. intros H. unfold io. now rewrite H. Qed.

Lemma io_fault {A} (ev : Event) (act : Env -> Store -> Result A * Store)
    (env : Env) (st : Store) (e : Exn) :
  faults env (List.length (trace st)) = Some e ->
  io ev act env st = (Throw e, log ev st).
Proof. intros H. unfold io. now rewrite H. Qed.

Lemma quiet_here (env : Env) (st : Store) :
  quiet_from env (List.length (trace st)) ->
  faults env (List.length (trace st)) = None.
Proof. intros H. apply H. lia. Qed.

Lemma quiet_log (env : Env) (st : Store) (ev : Event) :
  quiet_from env (List.length (trace st)) ->
  quiet_from env (List.length (trace (log ev st))).
Proof.
  intros H k Hk. rewrite log_length in Hk. apply H. lia.
Qed.

Lemma getUserFCMTokens_ok (env : Env) (st st' : Store) (uid : jstring)
    (tokens : list TokenDoc) :
  getUserFCMTokens uid env st = (Ok tokens, st') ->
  tokens = sortDesc (filter (fun d => str_eqb (tok_userId d) uid) (fcm st)) /\
  st' = log (EvTokFind uid) st.
Proof.
  unfold getUserFCMTokens, try_catch, TokensDb.find, io.
  destruct (faults env (List.length (trace st))); simpl.
  - unfold throw. discriminate.
  - intros H. inversion H. auto.
Qed.

(** Up to the answer of the transport. *)
Lemma send_reaches_transport :
  forall env st uid notification st1 tokens st2,
    shouldSendNotification (VStr uid) (categoryOrDefault (n_category notification))
                           Push env st = (Ok true, st1) ->
    getUserFCMTokens uid env st1 = (Ok tokens, st2) ->
    tokens <> [] ->
    let tokenStrings := List.map tok_token tokens in
    let message := messageOfPayload notification in
    let st3 := log (EvTransport tokenStrings message) st2 in
    sendPushNotification (VStr uid) notification env st =
      match faults env (List.length (trace st2)) with
      | Some e => (Throw (dispatchFailure e), st3)
      | None =>
          match settleOutcomes tokens (fcm_send env tokenStrings message) env st3 with
          | (Ok r, st') => (Ok r, st')
          | (Throw e, st') => (Throw (dispatchFailure e), st')
          end
      end.
Proof.
  intros env st uid notification st1 tokens st2 Hgate Htok Hne.
  unfold sendPushNotification, try_catch, bind.
  rewrite Hgate. cbv beta iota. change (negb true) with false. cbv beta iota.
  rewrite Htok.
  destruct tokens as [|t ts]; [congruence|].
  cbv beta iota. change (List.length (t :: ts) =? 0)%nat with false. cbv beta iota.
  unfold Transport.sendEachForMulticast, io.
  destruct (faults env (List.length (trace st2))); reflexivity.
Qed.

Lemma refreshed_nil (env : Env) (l : list TokenDoc) : refreshed env [] l = l.
Proof. unfold refreshed. simpl. apply map_id. Qed.

Lemma pruned_nil (l : list TokenDoc) : pruned [] l = l.
Proof.
  unfold pruned. simpl. induction l as [|x l IH]; simpl; [reflexivity|now rewrite IH].
Qed.

Lemma refresh_step (env : Env) (st : Store) (succ : list jstring) :
  quiet_from env (List.length (trace st)) ->
  exists st',
    (if (0 <? List.length succ)%nat
     then lastActive <- now ;; TokensDb.updateMany succ lastActive
     else ret tt) env st = (Ok tt, st') /\
    prefs st' = prefs st /\
    fcm st' = refreshed env succ (fcm st) /\
    quiet_from env (List.length (trace st')).
Proof.
  intros Hq. destruct succ as [|s succ].
  - exists st. simpl. rewrite refreshed_nil. auto.
  - eexists. change (0 <? List.length (s :: succ))%nat with true. cbv beta iota.
    unfold bind, now. cbv beta iota. unfold TokensDb.updateMany.
    rewrite (io_quiet _ _ _ _ (quiet_here _ _ Hq)).
    split; [reflexivity|]. split; [reflexivity|]. split; [reflexivity|].
    exact (quiet_log _ _ _ Hq).
Qed.

Lemma prune_step (env : Env) (st : Store) (inv : list jstring) :
  quiet_from env (List.length (trace st)) ->
  exists st',
    (if (0 <? List.length inv)%nat
     then TokensDb.deleteMany inv
     else ret tt) env st = (Ok tt, st') /\
    prefs st' = prefs st /\
    fcm st' = pruned inv (fcm st).
Proof.
  intros Hq. destruct inv as [|s inv].
  - exists st. simpl. rewrite pruned_nil. auto.
  - eexists. change (0 <? List.length (s :: inv))%nat with true. cbv beta iota.
    unfold TokensDb.deleteMany.
    rewrite (io_quiet _ _ _ _ (quiet_here _ _ Hq)).
    split; [reflexivity|]. split; reflexivity.
Qed.

(** Without faults the cleanup completes, and the collection ends up
    refreshed and pruned. *)
Lemma settle_quiet (env : Env) (st : Store) (tokens : list TokenDoc)
    (response : BatchResponse) :
  quiet_from env (List.length (trace st)) ->
  List.length (responses response) = List.length tokens ->
  (forall t, In t tokens -> tok_token t <> []) ->
  exists st',
    settleOutcomes tokens response env st =
      (Ok (mkSendResult (0 <? successCount response)%nat
                        (successCount response) (failureCount response)), st') /\
    prefs st' = prefs st /\
    fcm st' = pruned (chosen permanentlyInvalid tokens (responses response))
                     (refreshed env (chosen delivered tokens (responses response))
                                (fcm st)).
Proof.
  intros Hq Hlen Hne.
  assert (Hsel : forall sel, selectTokens sel tokens (responses response) 0
                             = Ok (chosen sel tokens (responses response)))
    by (intros sel; exact (selectTokens_aligned sel (responses response) [] tokens Hlen Hne)).
  destruct (refresh_step env st (chosen delivered tokens (responses response)) Hq)
    as (st1 & Hrun1 & Hp1 & Hf1 & Hq1).
  destruct (prune_step env st1 (chosen permanentlyInvalid tokens (responses response)) Hq1)
    as (st2 & Hrun2 & Hp2 & Hf2).
  exists st2. split; [|split; [congruence | now rewrite Hf2, Hf1]].
  unfold settleOutcomes.
  erewrite bind_ok by (unfold lift; rewrite (Hsel delivered); reflexivity).
  erewrite bind_ok by exact Hrun1.
  erewrite bind_ok by (unfold lift; rewrite (Hsel permanentlyInvalid); reflexivity).
  erewrite bind_ok by exact Hrun2.
  reflexivity.
Qed.

Lemma in_pruned (inv : list jstring) (l : list TokenDoc) (x : TokenDoc) :
  In x (pruned inv l) <-> In x l /\ ~ In (tok_token x) inv.
Proof.
  unfold pruned. rewrite filter_In, negb_true_iff, mem_not_In. tauto.
Qed.

(** What the refresh and the prune do to the document of one token, by the
    outcome at its position. *)
Lemma cleanup_per_token (env : Env) (tokens : list TokenDoc)
    (resps : list SendResponse) (l : list TokenDoc) :
  NoDup (List.map tok_token tokens) ->
  (forall t, In t tokens -> In t l) ->
  forall i t r,
    nth_error tokens i = Some t -> nth_error resps i = Some r ->
    let l' := pruned (chosen permanentlyInvalid tokens resps)
                     (refreshed env (chosen delivered tokens resps) l) in
    (delivered r = true -> In (touch (clock env) t) l') /\
    (permanentlyInvalid r = true ->
       forall d, In d l' -> tok_token d <> tok_token t) /\
    (delivered r = false -> permanentlyInvalid r = false -> In t l').
Proof.
  intros Hnd Hsub i t r Ht Hr l'.
  assert (Hin : In t l) by (apply Hsub; eapply nth_error_In; eauto).
  split; [|split].
  - intros Hd. apply in_pruned. split.
    + unfold refreshed. apply in_map_iff. exists t. split; [|exact Hin].
      assert (Hm : mem (tok_token t) (chosen delivered tokens resps) = true)
        by (apply mem_In; eapply chosen_selected; eauto).
      now rewrite Hm.
    + simpl. eapply chosen_rejected; eauto. now apply delivered_not_invalid.
  - intros Hinv d Hd E. apply in_pruned in Hd as [_ Hnot].
    apply Hnot. rewrite E. eapply chosen_selected; eauto.
  - intros Hd Hinv. apply in_pruned. split.
    + unfold refreshed. apply in_map_iff. exists t. split; [|exact Hin].
      assert (Hm : mem (tok_token t) (chosen delivered tokens resps) = false)
        by (apply mem_not_In; eapply chosen_rejected; eauto).
      now rewrite Hm.
    + eapply chosen_rejected; eauto.
Qed.

(** After the refresh and the prune, every document that carries a token
    whose outcome is a delivery carries the date of the refresh. *)
Lemma refreshed_everywhere (env : Env) (tokens : list TokenDoc)
    (resps : list SendResponse) (l : list TokenDoc) :
  NoDup (List.map tok_token tokens) ->
  forall i t r d,
    nth_error tokens i = Some t -> nth_error resps i = Some r ->
    delivered r = true ->
    In d (pruned (chosen permanentlyInvalid tokens resps)
                 (refreshed env (chosen delivered tokens resps) l)) ->
    tok_token d = tok_token t ->
    tok_lastActive d = clock env.
Proof.
  intros Hnd i t r d Ht Hr Hd Hin Etok.
  apply in_pruned in Hin as [Hin _]. unfold refreshed in Hin.
  apply in_map_iff in Hin as (d0 & Hd0 & _).
  assert (Hm : mem (tok_token t) (chosen delivered tokens resps) = true)
    by (apply mem_In; eapply chosen_selected; eauto).
  destruct (mem (tok_token d0) (chosen delivered tokens resps)) eqn:E.
  - subst d. reflexivity.
  - subst d. rewrite Etok in E. congruence.
Qed.

(** ** Fan-out to the tokens of one user *)

(** C1. For an invocation of sendPushNotification whose preference check
    allows the send and that resolves a non-empty token list, over a
    collection that respects the unique index on token, when the transport
    answers with one outcome per token and the cleanup writes do not throw:
    the call returns sent = number of success outcomes and
    failed = number of failure outcomes, whatever their codes; the document
    of every token with a success outcome is in the collection with
    lastActive set to the current date and its other fields as they were,
    and no document carries that token with another date; no document
    carries a token whose outcome is a permanently-invalid code; the
    document of a token with any other failure is in the collection
    unchanged. *)
Theorem fanout_counts_and_cleanup :
  forall env st uid notification st1 tokens st2,
    let response :=
      fcm_send env (List.map tok_token tokens) (messageOfPayload notification) in
    shouldSendNotification (VStr uid) (categoryOrDefault (n_category notification))
                           Push env st = (Ok true, st1) ->
    getUserFCMTokens uid env st1 = (Ok tokens, st2) ->
    tokens <> [] ->
    multicast_contract (List.length tokens) response ->
    tokens_wf (fcm st) ->
    quiet_from env (List.length (trace st2)) ->
    exists st',
      sendPushNotification (VStr uid) notification env st =
        (Ok (mkSendResult
               (0 <? List.length (filter delivered (responses response)))%nat
               (List.length (filter delivered (responses response)))
               (List.length (filter (fun r => negb (delivered r)) (responses response)))),
         st')
      /\ forall i t r,
          nth_error tokens i = Some t ->
          nth_error (responses response) i = Some r ->
          In t (fcm st) /\
          (delivered r = true ->
             In (mkToken (tok_id t) (tok_userId t) (tok_token t) (tok_platform t)
                         (tok_deviceId t) (clock env)) (fcm st') /\
             forall d, In d (fcm st') -> tok_token d = tok_token t ->
                       tok_lastActive d = clock env) /\
          (permanentlyInvalid r = true ->
             forall d, In d (fcm st') -> tok_token d <> tok_token t) /\
          (delivered r = false -> permanentlyInvalid r = false -> In t (fcm st')).
Proof.
  intros env st uid notification st1 tokens st2 response Hgate Htok Hne
         (Hlen & Hsucc & Hfail) Hwf Hq.
  pose proof (shouldSend_frame _ _ _ _ _ _ _ Hgate) as (Hfcm1 & _ & _).
  pose proof (getUserFCMTokens_ok _ _ _ _ _ Htok) as (Htokens & Hst2).
  rewrite Hfcm1 in Htokens.
  destruct (user_tokens_wf uid (fcm st) Hwf) as ((Hnd & Hnonempty) & Hsub).
  rewrite <- Htokens in Hnd, Hnonempty, Hsub.
  set (st3 := log (EvTransport (List.map tok_token tokens) (messageOfPayload notification)) st2).
  destruct (settle_quiet env st3 tokens response (quiet_log _ _ _ Hq) Hlen Hnonempty)
    as (st' & Hrun & _ & Hfcm').
  exists st'. split.
  - rewrite (send_reaches_transport env st uid notification st1 tokens st2 Hgate Htok Hne).
    rewrite (quiet_here _ _ Hq). fold response. fold st3. rewrite Hrun.
    now rewrite <- Hsucc, <- Hfail.
  - intros i t r Ht Hr.
    assert (Hbase : fcm st3 = fcm st) by (unfold st3; rewrite Hst2; simpl; exact Hfcm1).
    rewrite Hfcm', Hbase.
    split; [apply Hsub; eapply nth_error_In; eauto|].
    destruct (cleanup_per_token env tokens (responses response) (fcm st) Hnd
                (fun x Hx => proj1 (Hsub x Hx)) i t r Ht Hr)
      as (Hfresh & Hgone & Hkept).
    split; [|split; [exact Hgone | exact Hkept]].
    intros Hd. split; [exact (Hfresh Hd)|].
    intros d Hin. exact (refreshed_everywhere env tokens (responses response) (fcm st)
                           Hnd i t r d Ht Hr Hd Hin).
Qed.

Lemma threeTokens_wf : tokens_wf (fcm threeTokens).
Proof.
  split.
  - repeat constructor; simpl; intros H;
      repeat (destruct H as [H|H]; [discriminate H|]); exact H.
  - intros d H. simpl in H.
    repeat (destruct H as [H|H]; [subst d; discriminate|]). destruct H.
Defined.

Lemma fanout_counts_and_cleanup_witness :
  exists st',
    sendPushNotification (VStr (js "u1")) samplePayload (mixedEnv noFaults) threeTokens
      = (Ok (mkSendResult true 1 2), st') /\
    In (mkToken 0 (js "u1") (js "token-a") Ios (Some (js "phone")) 100) (fcm st') /\
    In tokB (fcm st') /\
    (forall d, In d (fcm st') -> tok_token d <> tok_token tokC).
Proof.
  destruct (fanout_counts_and_cleanup
              (mixedEnv noFaults) threeTokens (js "u1") samplePayload
              (log (EvPrefFindOne (js "u1")) threeTokens)
              [tokA; tokB; tokC]
              (log (EvTokFind (js "u1")) (log (EvPrefFindOne (js "u1")) threeTokens))
              eq_refl eq_refl
              (fun H : [tokA; tokB; tokC] = [] =>
                 match H in _ = x return match x with [] => False | _ :: _ => True end
                 with eq_refl => I end)
              (conj eq_refl (conj eq_refl eq_refl))
              threeTokens_wf
              (fun k _ => eq_refl))
    as (st' & Hrun & Hper).
  exists st'. split; [exact Hrun|].
  split; [|split].
  - exact (proj1 (proj1 (proj2 (Hper 0 tokA _ eq_refl eq_refl)) eq_refl)).
  - exact (proj2 (proj2 (proj2 (Hper 1 tokB _ eq_refl eq_refl))) eq_refl eq_refl).
  - exact (proj1 (proj2 (proj2 (Hper 2 tokC _ eq_refl eq_refl))) eq_refl).
Defined.

(** The same run, evaluated: one token refreshed, one deleted, the token
    with the transient failure and the token of the other user untouched. *)
Example three_tokens_run :
  let run := sendPushNotification (VStr (js "u1")) samplePayload
                                  (mixedEnv noFaults) threeTokens in
  fst run = Ok (mkSendResult true 1 2) /\
  fcm (snd run) = [tokOther;
                   mkToken 0 (js "u1") (js "token-a") Ios (Some (js "phone")) 100;
                   tokB] /\
  trace (snd run) =
    [EvPrefFindOne (js "u1"); EvTokFind (js "u1");
     EvTransport [js "token-a"; js "token-b"; js "token-c"]
                 (messageOfPayload samplePayload);
     EvTokUpdateMany [js "token-a"]; EvTokDeleteMany [js "token-c"]].
Proof. vm_compute. auto. Qed.

(** ** Exceptions during the cleanup *)

Lemma settle_update_fault (env : Env) (st : Store) (tokens : list TokenDoc)
    (response : BatchResponse) (e : Exn) :
  List.length (responses response) = List.length tokens ->
  (forall t, In t tokens -> tok_token t <> []) ->
  chosen delivered tokens (responses response) <> [] ->
  faults env (List.length (trace st)) = Some e ->
  exists st', settleOutcomes tokens response env st = (Throw e, st').
Proof.
  intros Hlen Hne Hsome Hfault.
  pose proof (selectTokens_aligned delivered (responses response) [] tokens Hlen Hne) as Hsel.
  simpl in Hsel.
  destruct (chosen delivered tokens (responses response)) as [|s succ] eqn:E; [congruence|].
  eexists. unfold settleOutcomes.
  erewrite bind_ok by (unfold lift; rewrite Hsel; reflexivity).
  erewrite bind_throw; [reflexivity|].
  change (0 <? List.length (s :: succ))%nat with true. cbv beta iota.
  erewrite bind_ok by reflexivity.
  unfold TokensDb.updateMany. apply io_fault. exact Hfault.
Qed.

Lemma settle_delete_fault (env : Env) (st : Store) (tokens : list TokenDoc)
    (response : BatchResponse) (e : Exn) :
  List.length (responses response) = List.length tokens ->
  (forall t, In t tokens -> tok_token t <> []) ->
  chosen permanentlyInvalid tokens (responses response) <> [] ->
  (if is_nil (chosen delivered tokens (responses response))
   then faults env (List.length (trace st)) = Some e
   else faults env (List.length (trace st)) = None /\
        faults env (S (List.length (trace st))) = Some e) ->
  exists st', settleOutcomes tokens response env st = (Throw e, st').
Proof.
  intros Hlen Hne Hsome Hfault.
  assert (Hsel : forall sel, selectTokens sel tokens (responses response) 0
                             = Ok (chosen sel tokens (responses response)))
    by (intros sel; exact (selectTokens_aligned sel (responses response) [] tokens Hlen Hne)).
  destruct (chosen permanentlyInvalid tokens (responses response)) as [|i inv] eqn:Ei;
    [congruence|].
  assert (Hrefresh : exists st1,
             (if (0 <? List.length (chosen delivered tokens (responses response)))%nat
              then lastActive <- now ;;
                   TokensDb.updateMany (chosen delivered tokens (responses response)) lastActive
              else ret tt) env st = (Ok tt, st1) /\
             faults env (List.length (trace st1)) = Some e).
  { destruct (chosen delivered tokens (responses response)) as [|s succ]; simpl in Hfault.
    - exists st. split; [reflexivity | exact Hfault].
    - destruct Hfault as [Hnone Hthen]. eexists.
      change (0 <? List.length (s :: succ))%nat with true. cbv beta iota.
      split.
      + erewrite bind_ok by reflexivity. unfold TokensDb.updateMany.
        rewrite (io_quiet _ _ _ _ Hnone). reflexivity.
      + simpl trace. rewrite length_app. simpl.
        now replace (List.length (trace st) + 1) with (S (List.length (trace st))) by lia. }
  destruct Hrefresh as (st1 & Hrun1 & Hfault1).
  eexists. unfold settleOutcomes.
  erewrite bind_ok by (unfold lift; rewrite (Hsel delivered); reflexivity).
  erewrite bind_ok by exact Hrun1.
  erewrite bind_ok by (unfold lift; rewrite (Hsel permanentlyInvalid), Ei; reflexivity).
  erewrite bind_throw; [reflexivity|].
  change (0 <? List.length (i :: inv))%nat with true. cbv beta iota.
  unfold TokensDb.deleteMany. apply io_fault. exact Hfault1.
Qed.

(** C5, as stated, fails: the transport has answered (one delivery, two
    failures) and the bulk update of lastActive throws; the call throws the
    dispatch failure and the counts are lost.  The same happens when the
    bulk delete throws, after the refresh was written. *)
Lemma cleanup_fault_masks_counts :
  (let run := sendPushNotification (VStr (js "u1")) samplePayload
                                   (mixedEnv (faultAt 3 dbDown)) threeTokens in
   fst run = Throw (dispatchFailure dbDown) /\
   trace (snd run) =
     [EvPrefFindOne (js "u1"); EvTokFind (js "u1");
      EvTransport [js "token-a"; js "token-b"; js "token-c"]
                  (messageOfPayload samplePayload);
      EvTokUpdateMany [js "token-a"]])
  /\
  (let run := sendPushNotification (VStr (js "u1")) samplePayload
                                   (mixedEnv (faultAt 4 dbDown)) threeTokens in
   fst run = Throw (dispatchFailure dbDown) /\
   fcm (snd run) = [tokOther; tokC; touch 100 tokA; tokB]).
Proof. vm_compute. auto. Qed.

(** C5, amended. Once the transport has answered with one outcome per
    token, an exception thrown by the bulk update of lastActive, or by the
    bulk delete of the invalid tokens, propagates as a dispatch failure
    carrying its message, exactly as an exception of the transport call
    does; the counts are not returned. *)
Theorem cleanup_fault_is_dispatch_failure :
  forall env st uid notification st1 tokens st2 e,
    let response :=
      fcm_send env (List.map tok_token tokens) (messageOfPayload notification) in
    let n := List.length (trace st2) in
    let succ := chosen delivered tokens (responses response) in
    let inv := chosen permanentlyInvalid tokens (responses response) in
    shouldSendNotification (VStr uid) (categoryOrDefault (n_category notification))
                           Push env st = (Ok true, st1) ->
    getUserFCMTokens uid env st1 = (Ok tokens, st2) ->
    tokens <> [] ->
    List.length (responses response) = List.length tokens ->
    tokens_wf (fcm st) ->
    (* the transport call throws *)
    (faults env n = Some e \/
    (* the transport answers and the bulk update throws *)
     (faults env n = None /\ succ <> [] /\ faults env (S n) = Some e) \/
    (* the transport answers and the bulk delete throws *)
     (faults env n = None /\ inv <> [] /\
      if is_nil succ then faults env (S n) = Some e
      else faults env (S n) = None /\ faults env (S (S n)) = Some e)) ->
    exists st',
      sendPushNotification (VStr uid) notification env st
        = (Throw (dispatchFailure e), st').
Proof.
  intros env st uid notification st1 tokens st2 e response n succ inv
         Hgate Htok Hne Hlen Hwf Hcase.
  pose proof (shouldSend_frame _ _ _ _ _ _ _ Hgate) as (Hfcm1 & _ & _).
  pose proof (getUserFCMTokens_ok _ _ _ _ _ Htok) as (Htokens & Hst2).
  rewrite Hfcm1 in Htokens.
  destruct (user_tokens_wf uid (fcm st) Hwf) as ((_ & Hnonempty) & _).
  rewrite <- Htokens in Hnonempty.
  rewrite (send_reaches_transport env st uid notification st1 tokens st2 Hgate Htok Hne).
  fold response. fold n.
  set (st3 := log (EvTransport (List.map tok_token tokens) (messageOfPayload notification)) st2).
  assert (Hn3 : List.length (trace st3) = S n) by apply log_length.
  destruct Hcase as [Ht | [(Ht & Hsome & Hu) | (Ht & Hsome & Hd)]]; rewrite Ht.
  - eauto.
  - destruct (settle_update_fault env st3 tokens response e Hlen Hnonempty Hsome)
      as (st' & ->); [now rewrite Hn3|eauto].
  - destruct (settle_delete_fault env st3 tokens response e Hlen Hnonempty Hsome)
      as (st' & ->); [rewrite Hn3; exact Hd|eauto].
Qed.

Lemma cleanup_fault_is_dispatch_failure_witness :
  exists st',
    sendPushNotification (VStr (js "u1")) samplePayload
                         (mixedEnv (faultAt 4 dbDown)) threeTokens
      = (Throw (dispatchFailure dbDown), st').
Proof.
  exact (cleanup_fault_is_dispatch_failure
           (mixedEnv (faultAt 4 dbDown)) threeTokens (js "u1") samplePayload
           (log (EvPrefFindOne (js "u1")) threeTokens)
           [tokA; tokB; tokC]
           (log (EvTokFind (js "u1")) (log (EvPrefFindOne (js "u1")) threeTokens))
           dbDown
           eq_refl eq_refl
           (fun H : [tokA; tokB; tokC] = [] =>
              match H in _ = x return match x with [] => False | _ :: _ => True end
              with eq_refl => I end)
           eq_refl
           threeTokens_wf
           (or_intror (or_intror
              (conj eq_refl
                 (conj (fun H : [js "token-c"] = [] =>
                          match H in _ = x return
                                match x with [] => False | _ :: _ => True end
                          with eq_refl => I end)
                       (conj eq_refl eq_refl)))))).
Defined.

(** ** Batches *)

Lemma sendLoop_sums (notification : Payload) (env : Env) :
  forall userIds st totalSent totalFailed,
    sendLoop userIds notification totalSent totalFailed env st =
      (Ok (totalSent + list_sum (List.map sentOf (fst (runEach userIds notification env st))),
           totalFailed + list_sum (List.map failedOf (fst (runEach userIds notification env st)))),
       snd (runEach userIds notification env st)).
Proof.
  induction userIds as [|userId rest IH]; intros st totalSent totalFailed.
  - simpl. unfold ret. now rewrite !Nat.add_0_r.
  - simpl. unfold bind at 1. unfold try_catch, bind.
    destruct (sendPushNotification userId notification env st) as [[r|e] st1].
    + unfold ret. rewrite IH.
      destruct (runEach rest notification env st1) as [rs st2]. simpl.
      now rewrite !Nat.add_assoc.
    + unfold ret. rewrite IH.
      destruct (runEach rest notification env st1) as [rs st2]. simpl.
      replace (totalFailed + 1 + list_sum (List.map failedOf rs))
        with (totalFailed + S (list_sum (List.map failedOf rs))) by lia.
      reflexivity.
Qed.

Lemma runEach_length (notification : Payload) (env : Env) :
  forall userIds st,
    List.length (fst (runEach userIds notification env st)) = List.length userIds.
Proof.
  induction userIds as [|userId rest IH]; intros st; simpl; [reflexivity|].
  destruct (sendPushNotification userId notification env st) as [r st1].
  specialize (IH st1).
  destruct (runEach rest notification env st1) as [rs st2]. simpl in *. now rewrite IH.
Qed.

(** C4. sendToMultipleUsers never throws.  It calls sendPushNotification
    once for every user id, in order, whatever the earlier calls did; it
    returns total = number of user ids, sent = sum of the sent counts of the
    calls that returned, failed = sum of their failed counts plus one for
    every call that threw. *)
Theorem batch_totals :
  forall env st userIds notification,
    let outcomes := fst (runEach userIds notification env st) in
    sendToMultipleUsers userIds notification env st =
      (Ok (mkBatchResult (List.length userIds)
                         (list_sum (List.map sentOf outcomes))
                         (list_sum (List.map failedOf outcomes))),
       snd (runEach userIds notification env st))
    /\ List.length outcomes = List.length userIds.
Proof.
  intros env st userIds notification outcomes.
  split.
  - unfold sendToMultipleUsers, bind. rewrite sendLoop_sums. reflexivity.
  - apply runEach_length.
Qed.

(** Users a, b, c; reading the tokens of b throws.  The calls for a and c
    each deliver to one token, the call for b counts as one failure. *)
Example batch_with_one_throw :
  let env := deliverAll (faultAt 5 dbDown) in
  let ids := [VStr (js "a"); VStr (js "b"); VStr (js "c")] in
  fst (runEach ids samplePayload env abcStore) =
    [Ok (mkSendResult true 1 0);
     Throw (dispatchFailure (jsError "Failed to fetch FCM tokens"));
     Ok (mkSendResult true 1 0)]
  /\ fst (sendToMultipleUsers ids samplePayload env abcStore) = Ok (mkBatchResult 3 2 1)
  /\ List.map tok_lastActive (fcm (snd (sendToMultipleUsers ids samplePayload env abcStore)))
     = [50%Z; 0%Z; 50%Z].
Proof. vm_compute. auto. Qed.

(** ** Validation of a single send *)

(** C6, as stated, fails: with a user id and an empty recipients array the
    specification's normalisation targets the user, while the handler takes
    the empty array as the target list and rejects the request. *)
Lemma empty_recipients_rejected :
  specTargets emptyRecipients = [VStr (js "u1")]
  /\ targetUsers emptyRecipients = []
  /\ sendNotification emptyRecipients (deliverAll noFaults) threeTokens
     = (Ok (ErrorJson 400 validationMessage), threeTokens).
Proof. vm_compute. auto. Qed.

(** C6, amended. The target list is the recipients value whenever it is an
    array, empty or not, and the one-element list of userId otherwise; the
    type tag is type when it is truthy and eventKey otherwise; when the
    target list is empty (an empty recipients array) or the type tag, the
    title or the body is missing (falsy), the handler answers status 400 and
    leaves the store as it was: no dispatch, no I/O. *)
Theorem sendNotification_validation :
  forall env st body,
    targetUsers body =
      (if isArray (b_recipients body) then items (b_recipients body)
       else [b_userId body])
    /\ notificationType body =
      (if truthy (b_type body) then b_type body else b_eventKey body)
    /\ (targetUsers body = [] \/ truthy (notificationType body) = false \/
        truthy (b_title body) = false \/ truthy (b_body body) = false ->
        sendNotification body env st = (Ok (ErrorJson 400 validationMessage), st)).
Proof.
  intros env st body. split; [|split].
  - unfold targetUsers.
    destruct (b_recipients body); cbn [isArray truthy]; rewrite ?andb_false_r; reflexivity.
  - reflexivity.
  - intros H. unfold sendNotification, try_catch.
    assert (Hguard : is_nil (targetUsers body) || negb (truthy (notificationType body))
                     || negb (truthy (b_title body)) || negb (truthy (b_body body)) = true).
    { destruct H as [H|[H|[H|H]]]; rewrite H; simpl;
        rewrite ?orb_true_r; reflexivity. }
    rewrite Hguard. reflexivity.
Qed.

Lemma sendNotification_validation_witness :
  sendNotification emptyRecipients (deliverAll noFaults) threeTokens
    = (Ok (ErrorJson 400 validationMessage), threeTokens)
  /\ sendNotification emptyTitle (deliverAll noFaults) threeTokens
    = (Ok (ErrorJson 400 validationMessage), threeTokens).
Proof.
  split.
  - exact (proj2 (proj2 (sendNotification_validation
                           (deliverAll noFaults) threeTokens emptyRecipients))
                 (or_introl eq_refl)).
  - exact (proj2 (proj2 (sendNotification_validation
                           (deliverAll noFaults) threeTokens emptyTitle))
                 (or_intror (or_intror (or_introl eq_refl)))).
Defined.

(** A request with eventKey in place of type, and one with recipients in
    place of userId, are dispatched. *)
Example sendNotification_dispatches :
  fst (sendNotification
         (mkSendBody (VStr (js "u1")) VUndefined VUndefined (VStr (js "task_assigned"))
                     (VStr (js "New task")) (VStr (js "body")) VUndefined VUndefined)
         (deliverAll noFaults) threeTokens) = Ok (Json true 3 0)
  /\ fst (sendNotification
         (mkSendBody VUndefined (VArr [VStr (js "u1"); VStr (js "u2")])
                     (VStr (js "task_assigned")) VUndefined
                     (VStr (js "New task")) (VStr (js "body")) VUndefined VUndefined)
         (deliverAll noFaults) threeTokens) = Ok (Json true 4 0).
Proof. vm_compute. auto. Qed.

(** ** Registration of a token for a device *)

(** C9, as stated, fails: user u1 registers token t1 for device d, then a
    second, different token t2 for the same device; t2 is already in the
    collection (another user registered it), so its document is updated in
    place, the pre-save hook does nothing, and two documents remain for the
    pair (u1, d). *)
Lemma reassigned_token_keeps_old_record :
  (let st := afterRegister "u1" "t2" "d" quietEnv
               (afterRegister "u1" "t1" "d" quietEnv
                  (afterRegister "u2" "t2" "d" quietEnv emptyStore)) in
   List.map tok_token (device_records (js "u1") (js "d") st) = [js "t2"; js "t1"]
   /\ List.length (device_records (js "u1") (js "d") st) = 2)
  /\
  (* an empty device id does not trigger the hook either *)
  (let st := afterRegister "u1" "t2" "" quietEnv
               (afterRegister "u1" "t1" "" quietEnv emptyStore) in
   List.map tok_token (device_records (js "u1") (js "") st) = [js "t1"; js "t2"]).
Proof. vm_compute. auto. Qed.

Lemma find_none_iff {A} (f : A -> bool) (l : list A) :
  (forall x, In x l -> f x = false) -> find f l = None.
Proof.
  induction l as [|x l IH]; simpl; intros H; [reflexivity|].
  rewrite (H x (or_introl eq_refl)). apply IH. intros y Hy. apply H. now right.
Qed.

Lemma existsb_none {A} (f : A -> bool) (l : list A) :
  (forall x, In x l -> f x = false) -> existsb f l = false.
Proof.
  intros H. apply find_none_existsb, find_none_iff, H.
Qed.

Lemma filter_none {A} (f : A -> bool) (l : list A) :
  (forall x, In x l -> f x = false) -> filter f l = [].
Proof.
  induction l as [|x l IH]; simpl; intros H; [reflexivity|].
  rewrite (H x (or_introl eq_refl)). apply IH. intros y Hy. apply H. now right.
Qed.

(** A document with a user id and a token string passes the validation. *)
Lemma validate_ok (doc : TokenDoc) :
  tok_userId doc <> [] -> tok_token doc <> [] -> TokensDb.validate doc = ret tt.
Proof.
  intros Hu Ht. unfold TokensDb.validate.
  destruct (tok_userId doc); [congruence|].
  destruct (tok_token doc); [congruence|]. reflexivity.
Qed.

Lemma validate_fails (doc : TokenDoc) :
  is_empty (tok_userId doc) || is_empty (tok_token doc) = true ->
  TokensDb.validate doc = throw TokensDb.validationFailed.
Proof. intros H. unfold TokensDb.validate. now rewrite H. Qed.

Lemma ret_bind {A B} (a : A) (k : A -> M B) : bind (ret a) k = k a.
Proof. reflexivity. Qed.

(** The documents the pre-save hook of a new document leaves in place. *)
Lemma save_new (env : Env) (st : Store) (doc : TokenDoc) (deviceId : jstring) :
  tok_userId doc <> [] ->
  tok_token doc <> [] ->
  tok_deviceId doc = Some deviceId ->
  deviceId <> [] ->
  quiet_from env (List.length (trace st)) ->
  (forall d, In d (fcm st) -> tok_token d <> tok_token doc) ->
  exists st',
    TokensDb.save true doc env st = (Ok tt, st') /\
    fcm st' = (filter (fun d => negb (same_device (tok_userId doc) deviceId d
                                      && negb (tok_id d =? tok_id doc)%nat)) (fcm st)
               ++ [doc]) /\
    next_id st' = next_id st.
Proof.
  intros Huser Htoken Hdev Hne Hq Hnew.
  set (kept := filter (fun d => negb (same_device (tok_userId doc) deviceId d
                                      && negb (tok_id d =? tok_id doc)%nat)) (fcm st)).
  assert (Hpre : TokensDb.preSave true doc env st =
                 (Ok tt, set_fcm kept (log (EvTokDeleteDevice (tok_userId doc) deviceId) st))).
  { unfold TokensDb.preSave. rewrite Hdev.
    assert (Hfull : is_empty deviceId = false) by (destruct deviceId; [congruence|reflexivity]).
    rewrite Hfull. cbn [negb andb].
    rewrite (io_quiet _ _ _ _ (quiet_here _ _ Hq)). reflexivity. }
  eexists. split; [|split].
  - unfold TokensDb.save. rewrite (validate_ok doc Huser Htoken), ret_bind.
    erewrite bind_ok by exact Hpre.
    rewrite io_quiet.
    2:{ apply (quiet_here env), (quiet_log env st (EvTokDeleteDevice (tok_userId doc) deviceId) Hq). }
    cbn [fcm set_fcm log].
    rewrite existsb_none; [reflexivity|].
    intros d Hd. apply str_eqb_neq, Hnew. unfold kept in Hd.
    apply filter_In in Hd. tauto.
  - reflexivity.
  - reflexivity.
Qed.

(** C9, amended. For every user and every non-empty device id, registering
    a token string that is not yet in the collection (user id and token
    string not empty, as the schema requires of them) leaves exactly one
    document for that (user, device) pair, and it carries the token just
    registered: the documents the pair had before are removed when the new
    one is saved. *)
Theorem new_token_is_the_only_one_of_its_device :
  forall env st userId token platform deviceId,
    userId <> [] ->
    token <> [] ->
    deviceId <> [] ->
    (forall d, In d (fcm st) -> tok_token d <> token) ->
    ids_fresh st ->
    quiet_from env (List.length (trace st)) ->
    exists doc st',
      registerToken userId token platform (Some deviceId) env st = (Ok doc, st') /\
      device_records userId deviceId st' = [doc] /\
      tok_token doc = token /\
      ids_fresh st'.
Proof.
  intros env st userId token platform deviceId Huser Htoken Hdev Hnew Hfresh Hq.
  set (doc := mkToken (next_id st) userId token platform (Some deviceId) (clock env)).
  set (st1 := mkStore (prefs st) (fcm st) (S (next_id st))
                      (trace (log (EvTokFindOne token) st))).
  destruct (save_new env st1 doc deviceId Huser Htoken eq_refl Hdev
              (quiet_log env st (EvTokFindOne token) Hq) Hnew)
    as (st' & Hsave & Hfcm & Hnext).
  simpl in Hfcm, Hnext.
  exists doc, st'.
  split; [|split; [|split]].
  - unfold registerToken, try_catch.
    erewrite bind_ok.
    2:{ unfold TokensDb.findOne. rewrite (io_quiet _ _ _ _ (quiet_here _ _ Hq)).
        cbn [fcm log]. rewrite find_none_iff; [reflexivity|].
        intros d Hd. apply str_eqb_neq. now apply Hnew. }
    cbv beta iota. erewrite bind_ok by reflexivity.
    unfold TokensDb.create.
    change (mkToken (next_id (log (EvTokFindOne token) st)) userId token platform
                    (Some deviceId) (clock env)) with doc.
    change (mkStore (prefs (log (EvTokFindOne token) st)) (fcm (log (EvTokFindOne token) st))
                    (S (next_id (log (EvTokFindOne token) st)))
                    (trace (log (EvTokFindOne token) st))) with st1.
    erewrite bind_ok by exact Hsave. reflexivity.
  - unfold device_records. rewrite Hfcm, filter_app.
    rewrite filter_none.
    + simpl. unfold same_device. simpl. now rewrite !str_eqb_refl.
    + intros d Hd. apply filter_In in Hd as [Hin Hk].
      apply negb_true_iff, andb_false_iff in Hk as [Hk|Hk]; [exact Hk|].
      apply negb_false_iff, Nat.eqb_eq in Hk. specialize (Hfresh d Hin). lia.
  - reflexivity.
  - intros d Hd. rewrite Hfcm in Hd. rewrite Hnext.
    apply in_app_or in Hd as [Hd|[<-|[]]].
    + apply filter_In in Hd as [Hin _]. specialize (Hfresh d Hin). lia.
    + simpl. lia.
Qed.

Lemma new_token_is_the_only_one_of_its_device_witness :
  let st := afterRegister "u1" "t1" "d" quietEnv emptyStore in
  List.map tok_token (device_records (js "u1") (js "d") st) = [js "t1"] /\
  exists doc st',
    registerToken (js "u1") (js "t2") Android (Some (js "d")) quietEnv st = (Ok doc, st') /\
    device_records (js "u1") (js "d") st' = [doc] /\
    tok_token doc = js "t2" /\
    ids_fresh st'.
Proof.
  intros st. split; [reflexivity|].
  apply (new_token_is_the_only_one_of_its_device quietEnv st (js "u1") (js "t2")
           Android (js "d")).
  - discriminate.
  - discriminate.
  - discriminate.
  - intros d [<-|[]]. discriminate.
  - intros d [<-|[]]. apply le_n.
  - intros k _. reflexivity.
Defined.

(** * Further properties of the service *)

(** ** The gate on the categories with three channels *)

(** X1. For an identified user whose record is in the collection, and a
    findOne that does not throw: on a category other than the two push-only
    ones, whose stored section has the three flags, the gate answers
    whether the stored flag of the requested channel is true; a section that
    lacks one of the three keys is denied on every channel.  In both cases
    the only I/O is the one read. *)
Theorem gate_answers_stored_flag :
  forall env st uid category channel d c,
    unidentified (VStr uid) = false ->
    push_only_category category = false ->
    faults env (List.length (trace st)) = None ->
    find (owned_by uid) (prefs st) = Some d ->
    section d category = Some c ->
    shouldSendNotification (VStr uid) category channel env st =
      (Ok (if has (push c) && has (email c) && has (sms c)
           then is_true (flag c channel) else false),
       log (EvPrefFindOne uid) st).
Proof.
  intros env st uid category channel d c Hid Hcat Hq Hfind Hsec.
  unfold shouldSendNotification, try_catch.
  rewrite (as_userId_identified uid Hid).
  erewrite bind_ok by (apply findOrCreateDefault_found; eassumption).
  cbv beta iota. rewrite Hsec, Hcat.
  destruct (has (push c) && has (email c) && has (sms c)); reflexivity.
Qed.

Lemma gate_answers_stored_flag_witness :
  let st := mkStore [mutedReminderMail (js "u1"); partialTaskUpdates (js "u2")] [] 0 [] in
  shouldSendNotification (VStr (js "u1")) TaskReminders Email quietEnv st
    = (Ok false, log (EvPrefFindOne (js "u1")) st)
  /\ shouldSendNotification (VStr (js "u1")) TaskReminders Sms quietEnv st
    = (Ok true, log (EvPrefFindOne (js "u1")) st)
  /\ shouldSendNotification (VStr (js "u2")) TaskUpdates Push quietEnv st
    = (Ok false, log (EvPrefFindOne (js "u2")) st).
Proof.
  intros st. split; [|split].
  - exact (gate_answers_stored_flag quietEnv st (js "u1") TaskReminders Email
             (mutedReminderMail (js "u1")) (all3 false true true)
             eq_refl eq_refl eq_refl eq_refl eq_refl).
  - exact (gate_answers_stored_flag quietEnv st (js "u1") TaskReminders Sms
             (mutedReminderMail (js "u1")) (all3 false true true)
             eq_refl eq_refl eq_refl eq_refl eq_refl).
  - exact (gate_answers_stored_flag quietEnv st (js "u2") TaskUpdates Push
             (partialTaskUpdates (js "u2")) (mkChannels (Some true) (Some true) None)
             eq_refl eq_refl eq_refl eq_refl eq_refl).
Defined.

(** ** The gate never throws and fails open *)

Lemma push_only_names_section (c : Category) :
  push_only_category c = true -> names_section c = true.
Proof.
  unfold push_only_category.
  destruct c as [| | | | | | |name|v]; simpl; try discriminate; try reflexivity.
  - intros H. apply orb_true_iff in H as [H|H]; apply str_eqb_eq in H; subst name;
      reflexivity.
  - destruct v as [| | | |s| |]; try discriminate.
    intros H. apply orb_true_iff in H as [H|H]; apply str_eqb_eq in H; subst s;
      reflexivity.
Qed.

(** X2. shouldSendNotification never throws.  For an identified user it
    answers true, on every category and channel, when the get-or-create
    sequence throws and when it ends without a record (the creation hit a
    duplicate key and the second read found nothing).  With a record that
    stores no section under the category, it answers true when the category
    cannot be converted to a property key, when it names a section the
    record lacks, and when what the document has under that key is falsy or
    a primitive (the test for the channels throws, which is caught); it
    answers false, on every channel, when the document has an object there
    that lacks one of the keys push, email and sms, as it does under the name
    of a method. *)
Theorem gate_never_throws_and_fails_open :
  forall env st userId category channel,
    (exists b st1,
        shouldSendNotification userId category channel env st = (Ok b, st1))
    /\ forall uid r st1,
        userId = VStr uid ->
        unidentified userId = false ->
        findOrCreateDefault uid env st = (r, st1) ->
        match r with
        | Throw _ | Ok None =>
            shouldSendNotification userId category channel env st = (Ok true, st1)
        | Ok (Some d) =>
            section d category = None ->
            match propertyKey category with
            | None =>
                shouldSendNotification userId category channel env st = (Ok true, st1)
            | Some key =>
                (names_section category = true ->
                 shouldSendNotification userId category channel env st = (Ok true, st1))
                /\ (names_section category = false ->
                    (truthy (doc_member env d key) = false
                     \/ primitive (doc_member env d key) = true ->
                     shouldSendNotification userId category channel env st
                       = (Ok true, st1))
                    /\ (truthy (doc_member env d key) = true ->
                        lacks_channel (doc_member env d key) = true ->
                        shouldSendNotification userId category channel env st
                          = (Ok false, st1)))
            end
        end.
Proof.
  intros env st userId category channel. split.
  - apply shouldSend_total.
  - intros uid r st1 -> Hid Hrun.
    unfold shouldSendNotification, try_catch, bind.
    rewrite (as_userId_identified uid Hid), Hrun.
    destruct r as [[d|]|e]; [|reflexivity|reflexivity].
    intros Hsec. rewrite Hsec. unfold member.
    destruct (propertyKey category) as [key|]; [|reflexivity].
    split.
    + intros Hn. now rewrite Hn.
    + intros Hn. rewrite Hn.
      assert (Hpo : push_only_category category = false).
      { destruct (push_only_category category) eqn:E; [|reflexivity].
        apply push_only_names_section in E. congruence. }
      rewrite Hpo. split.
      * intros [Hf|Hp]; [now rewrite Hf|].
        destruct (truthy (doc_member env d key)); [|reflexivity].
        destruct (doc_member env d key); try discriminate; reflexivity.
      * intros Ht Hl. rewrite Ht.
        destruct (doc_member env d key) as [| | | | |items|fields];
          try discriminate; [reflexivity|].
        simpl in Hl. apply negb_true_iff in Hl. simpl. unfold ret. now rewrite Hl.
Qed.

Lemma gate_never_throws_and_fails_open_witness :
  (* the store is down *)
  shouldSendNotification (VStr (js "u1")) Transactional Sms
      (mkEnv (faultAt 0 dbDown) (fun _ _ => mkBatch [] 0 0) 0 documentMembers) emptyStore
    = (Ok true, log (EvPrefFindOne (js "u1")) emptyStore)
  (* a concurrent request created the record, and it is gone again *)
  /\ fst (shouldSendNotification (VStr (js "u1")) TaskUpdates Email (raceAt 1) emptyStore)
    = Ok true
  (* a key under which the document has nothing *)
  /\ fst (shouldSendNotification (VStr (js "u1")) (OtherKey (js "payments")) Push quietEnv
            (mkStore [defaultDoc (js "u1")] [] 0 []))
    = Ok true
  (* the name of a path that holds a string *)
  /\ fst (shouldSendNotification (VStr (js "u1")) (OtherKey (js "userId")) Push quietEnv
            (mkStore [defaultDoc (js "u1")] [] 0 []))
    = Ok true
  (* the name of a method *)
  /\ fst (shouldSendNotification (VStr (js "u1")) (OtherKey (js "toString")) Push quietEnv
            (mkStore [defaultDoc (js "u1")] [] 0 []))
    = Ok false.
Proof.
  split; [|split; [|split; [|split]]].
  - exact (proj2 (gate_never_throws_and_fails_open
                    (mkEnv (faultAt 0 dbDown) (fun _ _ => mkBatch [] 0 0) 0 documentMembers)
                    emptyStore (VStr (js "u1")) Transactional Sms)
                 (js "u1") (Throw dbDown) _ eq_refl eq_refl eq_refl).
  - exact (f_equal fst
             (proj2 (gate_never_throws_and_fails_open (raceAt 1) emptyStore
                       (VStr (js "u1")) TaskUpdates Email)
                    (js "u1") (Ok None) _ eq_refl eq_refl eq_refl)).
  - exact (f_equal fst
             (proj1 (proj2 (proj2 (gate_never_throws_and_fails_open quietEnv
                                     (mkStore [defaultDoc (js "u1")] [] 0 [])
                                     (VStr (js "u1")) (OtherKey (js "payments")) Push)
                                  (js "u1") (Ok (Some (defaultDoc (js "u1")))) _
                                  eq_refl eq_refl eq_refl eq_refl)
                           eq_refl)
                    (or_introl eq_refl))).
  - exact (f_equal fst
             (proj1 (proj2 (proj2 (gate_never_throws_and_fails_open quietEnv
                                     (mkStore [defaultDoc (js "u1")] [] 0 [])
                                     (VStr (js "u1")) (OtherKey (js "userId")) Push)
                                  (js "u1") (Ok (Some (defaultDoc (js "u1")))) _
                                  eq_refl eq_refl eq_refl eq_refl)
                           eq_refl)
                    (or_intror eq_refl))).
  - exact (f_equal fst
             (proj2 (proj2 (proj2 (gate_never_throws_and_fails_open quietEnv
                                     (mkStore [defaultDoc (js "u1")] [] 0 [])
                                     (VStr (js "u1")) (OtherKey (js "toString")) Push)
                                  (js "u1") (Ok (Some (defaultDoc (js "u1")))) _
                                  eq_refl eq_refl eq_refl eq_refl)
                           eq_refl)
                    eq_refl eq_refl)).
Defined.

(** ** Lazy creation of the preference record *)

Lemma as_userId_some_string (userId : value) (uid : jstring) :
  as_userId userId = Some uid -> userId = VStr uid /\ unidentified userId = false.
Proof.
  unfold as_userId. rewrite invalidUserId_unidentified.
  destruct (unidentified userId) eqn:E; [discriminate|].
  destruct userId; try discriminate. intros [= ->]. auto.
Qed.

Lemma findOrCreateDefault_existing (env : Env) (st st1 : Store) (uid : jstring)
    (d : PrefDoc) (r : Result (option PrefDoc)) :
  find (owned_by uid) (prefs st) = Some d ->
  findOrCreateDefault uid env st = (r, st1) ->
  prefs st1 = prefs st.
Proof.
  intros Hfind H.
  apply findOrCreateDefault_shape in H as (_ & _ & _ & [E|[_ E]] & _);
    [exact E | congruence].
Qed.

(** The store a call of the gate leaves is the one its get-or-create
    sequence leaves. *)
Lemma shouldSend_store (env : Env) (st : Store) (uid : jstring)
    (category : Category) (channel : Channel) :
  unidentified (VStr uid) = false ->
  snd (shouldSendNotification (VStr uid) category channel env st)
    = snd (findOrCreateDefault uid env st).
Proof.
  intros Hid. unfold shouldSendNotification, try_catch, bind.
  rewrite (as_userId_identified uid Hid).
  destruct (findOrCreateDefault uid env st) as [[[p|]|e] st2]; try reflexivity.
  unfold ret. destruct (section p category) as [c|].
  - destruct (push_only_category category); [reflexivity|].
    destruct (has (push c) && has (email c) && has (sms c)); reflexivity.
  - pose proof (verdict_store p category channel env st2) as Hv.
    unfold bind, ret in Hv. revert Hv.
    match goal with |- snd ?t = st2 -> _ => destruct t as [[v|e] s] end;
      simpl; now intros ->.
Qed.

Lemma getPreferences_store (env : Env) (st : Store) (uid : jstring) :
  unidentified (VStr uid) = false ->
  snd (getPreferences (VStr uid) env st) = snd (findOrCreateDefault uid env st).
Proof.
  intros Hid. unfold getPreferences, try_catch, bind.
  rewrite (as_userId_identified uid Hid).
  destruct (findOrCreateDefault uid env st) as [[p|e] st2]; reflexivity.
Qed.

(** X3. For an identified user without a record, a first preference check
    during which no I/O operation throws appends exactly the default record
    to the collection (and leaves the device tokens alone); from then on no
    preference check for that user, whatever the environment does, adds or
    changes a record. *)
Theorem default_record_created_once :
  forall env st uid category channel,
    unidentified (VStr uid) = false ->
    quiet_from env (List.length (trace st)) ->
    find (owned_by uid) (prefs st) = None ->
    exists b st1,
      shouldSendNotification (VStr uid) category channel env st = (Ok b, st1) /\
      prefs st1 = prefs st ++ [defaultDoc uid] /\
      fcm st1 = fcm st /\
      forall env2 category2 channel2 r st2,
        shouldSendNotification (VStr uid) category2 channel2 env2 st1 = (r, st2) ->
        prefs st2 = prefs st1.
Proof.
  intros env st uid category channel Hid Hq Hnone.
  destruct (shouldSend_total env st (VStr uid) category channel) as (b & st1 & Hrun).
  exists b, st1. split; [exact Hrun|].
  pose proof (shouldSend_store env st uid category channel Hid) as Hst.
  rewrite Hrun, (findOrCreateDefault_created env st uid Hq Hnone) in Hst.
  simpl in Hst.
  assert (Hprefs : prefs st1 = prefs st ++ [defaultDoc uid]) by now rewrite Hst.
  split; [exact Hprefs|]. split; [now rewrite Hst|].
  intros env2 category2 channel2 r st2 Hrun2.
  pose proof (shouldSend_store env2 st1 uid category2 channel2 Hid) as Hst2.
  rewrite Hrun2 in Hst2.
  destruct (findOrCreateDefault uid env2 st1) as [r2 st3] eqn:Hfc.
  simpl in Hst2. subst st3.
  eapply findOrCreateDefault_existing; [|exact Hfc].
  rewrite Hprefs. apply find_app_fresh; [exact Hnone | apply owned_by_default].
Qed.

Lemma default_record_created_once_witness :
  exists b st1,
    shouldSendNotification (VStr (js "u1")) TaskUpdates Push quietEnv emptyStore
      = (Ok b, st1) /\
    prefs st1 = prefs emptyStore ++ [defaultDoc (js "u1")] /\
    fcm st1 = fcm emptyStore /\
    forall env2 category2 channel2 r st2,
      shouldSendNotification (VStr (js "u1")) category2 channel2 env2 st1 = (r, st2) ->
      prefs st2 = prefs st1.
Proof.
  exact (default_record_created_once quietEnv emptyStore (js "u1") TaskUpdates Push
           eq_refl (fun k _ => eq_refl) eq_refl).
Defined.

(** ** One preference record per user *)

Lemma find_none_not_in (uid : jstring) (l : list PrefDoc) :
  find (owned_by uid) l = None -> ~ In uid (List.map pref_userId l).
Proof.
  intros Hnone Hin. apply in_map_iff in Hin as (d & Hd & Hin).
  pose proof (find_none _ _ Hnone d Hin) as Hno.
  unfold owned_by in Hno. rewrite Hd, str_eqb_refl in Hno. discriminate.
Qed.

Lemma findOrCreateDefault_keeps_unique (env : Env) (st st1 : Store) (uid : jstring)
    (r : Result (option PrefDoc)) :
  prefs_unique st ->
  findOrCreateDefault uid env st = (r, st1) ->
  prefs_unique st1.
Proof.
  unfold prefs_unique. intros Hu H.
  apply findOrCreateDefault_shape in H as (_ & _ & _ & [E|[E Hnone]] & _); rewrite E.
  - exact Hu.
  - rewrite map_app. simpl.
    apply NoDup_app; [exact Hu | repeat constructor; intros [] |].
    intros x Hx [<-|[]]. exact (find_none_not_in _ _ Hnone Hx).
Qed.

Lemma save_keeps_userIds (p : PrefDoc) (l : list PrefDoc) :
  List.map pref_userId
           (List.map (fun q => if owned_by (pref_userId p) q then p else q) l)
  = List.map pref_userId l.
Proof.
  rewrite map_map. apply map_ext_in. intros q _.
  destruct (owned_by (pref_userId p) q) eqn:E; [|reflexivity].
  symmetry. now apply owned_by_userId.
Qed.

(** X4. One record per user is an invariant of the three operations that
    write the preference collection: whatever they return or throw,
    shouldSendNotification, getPreferences and updatePreferences leave a
    collection without two records of the same user as such. *)
Theorem one_record_per_user_kept :
  forall env st userId,
    prefs_unique st ->
    (forall category channel,
        prefs_unique (snd (shouldSendNotification userId category channel env st)))
    /\ prefs_unique (snd (getPreferences userId env st))
    /\ (forall input, prefs_unique (snd (updatePreferences userId input env st))).
Proof.
  intros env st userId Hu.
  destruct (as_userId userId) as [uid|] eqn:Huid.
  - apply as_userId_some_string in Huid as [-> Hid].
    split; [|split].
    + intros category channel. rewrite (shouldSend_store _ _ _ _ _ Hid).
      destruct (findOrCreateDefault uid env st) as [r st1] eqn:H.
      exact (findOrCreateDefault_keeps_unique _ _ _ _ _ Hu H).
    + rewrite (getPreferences_store _ _ _ Hid).
      destruct (findOrCreateDefault uid env st) as [r st1] eqn:H.
      exact (findOrCreateDefault_keeps_unique _ _ _ _ _ Hu H).
    + intros input. unfold updatePreferences, try_catch, bind.
      rewrite (as_userId_identified uid Hid).
      destruct (findOrCreateDefault uid env st) as [r st1] eqn:H.
      apply (findOrCreateDefault_keeps_unique _ _ _ _ _ Hu) in H.
      destruct r as [up|e]; [|exact H].
      unfold lift. destruct (applyInput input up) as [[p|]|e]; try exact H.
      unfold PrefsDb.save, io.
      destruct (faults env (List.length (trace st1))); [exact H|].
      unfold prefs_unique. simpl. rewrite save_keeps_userIds. exact H.
  - split; [|split].
    + intros category channel. now rewrite shouldSend_rejects.
    + unfold getPreferences, try_catch. now rewrite Huid.
    + intros input. unfold updatePreferences, try_catch. now rewrite Huid.
Qed.

Lemma one_record_per_user_kept_witness :
  let st := mkStore [defaultDoc (js "u1"); mutedKeywordAlerts (js "u2")] [] 0 [] in
  prefs_unique (snd (shouldSendNotification (VStr (js "u3")) TaskUpdates Push quietEnv st))
  /\ prefs_unique
       (snd (updatePreferences (VStr (js "u2"))
               (mkInput None None None (Some (pushOnly true)) None None None)
               quietEnv st)).
Proof.
  intros st.
  assert (Hu : prefs_unique st).
  { unfold prefs_unique. simpl. repeat constructor; simpl; intros H;
      repeat (destruct H as [H|H]; [discriminate H|]); exact H. }
  destruct (one_record_per_user_kept quietEnv st (VStr (js "u3")) Hu) as (H1 & _ & _).
  destruct (one_record_per_user_kept quietEnv st (VStr (js "u2")) Hu) as (_ & _ & H3).
  split; [apply H1 | apply H3].
Defined.

(** ** Reading and writing preferences *)

(** X5. getPreferences for an identified user: a stored record is returned
    section by section (a missing section replaced by its default) after
    one read and without any write; without a record, and without faults,
    the default record is stored and the documented defaults are returned;
    an exception of the first read is not swallowed as in the gate but
    rethrown with the prefix "Failed to fetch preferences: ". *)
Theorem getPreferences_reads_the_record :
  forall env st uid,
    unidentified (VStr uid) = false ->
    (forall d,
        faults env (List.length (trace st)) = None ->
        find (owned_by uid) (prefs st) = Some d ->
        getPreferences (VStr uid) env st
          = (Ok (mkPreferences
                   (or_default (transactional d) (all3 false true true))
                   (or_default (taskUpdates d) (all3 true true true))
                   (or_default (taskReminders d) (all3 true true true))
                   (or_default (keywordTaskAlerts d) (pushOnly true))
                   (or_default (recommendedTaskAlerts d) (pushOnly true))
                   (or_default (helpfulInformation d) (all3 true true true))
                   (or_default (updatesNewsletters d) (all3 true true true))),
             log (EvPrefFindOne uid) st))
    /\ (quiet_from env (List.length (trace st)) ->
        find (owned_by uid) (prefs st) = None ->
        exists st',
          getPreferences (VStr uid) env st = (Ok documentedDefaults, st') /\
          prefs st' = prefs st ++ [defaultDoc uid])
    /\ (forall e,
        faults env (List.length (trace st)) = Some e ->
        getPreferences (VStr uid) env st
          = (Throw (jsError ("Failed to fetch preferences: " ++ exn_message e)),
             log (EvPrefFindOne uid) st)).
Proof.
  intros env st uid Hid. split; [|split].
  - intros d Hq Hfind. unfold getPreferences, try_catch.
    rewrite (as_userId_identified uid Hid).
    erewrite bind_ok by (apply findOrCreateDefault_found; eassumption).
    reflexivity.
  - intros Hq Hnone. eexists. unfold getPreferences, try_catch.
    rewrite (as_userId_identified uid Hid).
    erewrite bind_ok by (apply findOrCreateDefault_created; eassumption).
    split; reflexivity.
  - intros e Hfault. unfold getPreferences, try_catch.
    rewrite (as_userId_identified uid Hid).
    erewrite bind_throw; [reflexivity|].
    unfold findOrCreateDefault. erewrite bind_throw; [reflexivity|].
    unfold PrefsDb.findOne. now apply io_fault.
Qed.

Lemma getPreferences_reads_the_record_witness :
  let st := mkStore [mutedKeywordAlerts (js "u1")] [] 0 [] in
  r_keywordTaskAlerts
    (match fst (getPreferences (VStr (js "u1")) quietEnv st) with
     | Ok p => p | Throw _ => documentedDefaults end) = pushOnly false
  /\ (exists st', getPreferences (VStr (js "u2")) quietEnv st = (Ok documentedDefaults, st')
                  /\ prefs st' = prefs st ++ [defaultDoc (js "u2")])
  /\ getPreferences (VStr (js "u1"))
       (mkEnv (faultAt 0 dbDown) (fun _ _ => mkBatch [] 0 0) 0 documentMembers) st
     = (Throw (jsError "Failed to fetch preferences: connection lost"),
        log (EvPrefFindOne (js "u1")) st).
Proof.
  intros st.
  destruct (getPreferences_reads_the_record quietEnv st (js "u1") eq_refl) as (H1 & _ & _).
  destruct (getPreferences_reads_the_record quietEnv st (js "u2") eq_refl) as (_ & H2 & _).
  destruct (getPreferences_reads_the_record
              (mkEnv (faultAt 0 dbDown) (fun _ _ => mkBatch [] 0 0) 0 documentMembers) st (js "u1") eq_refl)
    as (_ & _ & H3).
  split; [|split].
  - rewrite (H1 (mutedKeywordAlerts (js "u1")) eq_refl eq_refl). reflexivity.
  - exact (H2 (fun k _ => eq_refl) eq_refl).
  - exact (H3 dbDown eq_refl).
Defined.

(** The flags a write leaves are those of the spread of the stored section
    and the input. *)
Lemma written_is_spread (stored : option Channels) (new : Channels) :
  mkChannels (writtenFlag stored email new) (writtenFlag stored push new)
             (writtenFlag stored sms new)
  = spread stored new.
Proof.
  destruct stored as [o|]; destruct new as [[e|] [p|] [m|]]; reflexivity.
Qed.

Lemma written_is_forced (stored : option Channels) (new : Channels) :
  mkChannels (writtenFlag stored email new) (Some true) (writtenFlag stored sms new)
  = set_push_true (spread stored new).
Proof.
  destruct stored as [o|]; destruct new as [[e|] [p|] [m|]]; reflexivity.
Qed.

Lemma applyInput_sections (input : PrefsInput) (d p : PrefDoc) :
  applyInput input (Some d) = Ok (Some p) ->
  pref_userId p = pref_userId d /\
  forall c, section p c = writtenSection input d c.
Proof.
  destruct input as [[t|] [a|] [b|] [c|] [e|] [f|] [g|]];
    unfold applyInput, assignSection, andThen; simpl;
    intros [= <-]; (split; [reflexivity|]); intros k;
    unfold writtenSection, inputSection, section; destruct (named k);
    cbn -[writtenFlag spread set_push_true]; try reflexivity;
    f_equal; symmetry; first [apply written_is_forced | apply written_is_spread].
Qed.

Lemma in_replace_foreign (uid : jstring) (p q : PrefDoc) (l : list PrefDoc) :
  owned_by uid p = true -> owned_by uid q = false ->
  (In q (List.map (fun x => if owned_by uid x then p else x) l) <-> In q l).
Proof.
  intros Hp Hq. rewrite in_map_iff. split.
  - intros (x & Hx & Hin). destruct (owned_by uid x) eqn:E; subst; [congruence|exact Hin].
  - intros Hin. exists q. now rewrite Hq.
Qed.

(** A write during which no I/O operation throws. *)
Lemma updatePreferences_quiet :
  forall env st uid input,
    unidentified (VStr uid) = false ->
    quiet_from env (List.length (trace st)) ->
    exists p st',
      applyInput input (Some (recordOrDefault uid st)) = Ok (Some p) /\
      updatePreferences (VStr uid) input env st = (Ok (preferencesOf (Some p)), st') /\
      find (owned_by uid) (prefs st') = Some p /\
      (forall q, owned_by uid q = false -> (In q (prefs st') <-> In q (prefs st))) /\
      fcm st' = fcm st.
Proof.
  intros env st uid input Hid Hq.
  destruct (applyInput_on_record input (recordOrDefault uid st)) as (p & Happ & Huid & _).
  exists p.
  unfold updatePreferences, try_catch. rewrite (as_userId_identified uid Hid).
  unfold recordOrDefault in *.
  destruct (find (owned_by uid) (prefs st)) as [d|] eqn:Hfind;
    eexists; (split; [exact Happ|]).
  - pose proof (find_some_holds _ _ _ Hfind) as [Hown _].
    assert (Hp : owned_by uid p = true) by now rewrite (owned_by_same uid _ _ Huid).
    erewrite bind_ok by (apply findOrCreateDefault_found; [apply quiet_here, Hq | exact Hfind]).
    erewrite bind_ok by (unfold lift; rewrite Happ; reflexivity).
    cbv beta iota.
    erewrite bind_ok.
    2:{ unfold PrefsDb.save. rewrite io_quiet by apply quiet_here, quiet_log, Hq.
        reflexivity. }
    cbv beta iota. unfold ret.
    split; [reflexivity|]. simpl. rewrite Huid, (owned_by_userId _ _ Hown).
    split; [exact (find_map_replace _ _ _ _ Hfind Hp)|].
    split; [|reflexivity]. intros q Hqo. now apply in_replace_foreign.
  - assert (Hp : owned_by uid p = true)
      by (rewrite (owned_by_same uid _ _ Huid); apply owned_by_default).
    erewrite bind_ok by (apply findOrCreateDefault_created; [exact Hq | exact Hfind]).
    erewrite bind_ok by (unfold lift; rewrite Happ; reflexivity).
    cbv beta iota.
    erewrite bind_ok.
    2:{ unfold PrefsDb.save.
        rewrite io_quiet by (simpl; rewrite length_app; simpl; apply Hq; lia).
        reflexivity. }
    cbv beta iota. unfold ret.
    split; [reflexivity|]. simpl. rewrite Huid. simpl pref_userId.
    split.
    + apply (find_map_replace (owned_by uid) _ (defaultDoc uid));
        [apply find_app_fresh; [exact Hfind | apply owned_by_default] | exact Hp].
    + split; [|reflexivity]. intros q Hqo.
      rewrite (in_replace_foreign uid p q _ Hp Hqo), in_app_iff. simpl.
      split; [|tauto]. intros [H|[<-|[]]]; [exact H|].
      rewrite owned_by_default in Hqo. discriminate.
Qed.

(** X6. What updatePreferences returns is what getPreferences returns next:
    after a write during which no I/O operation throws, a read of the same
    user (whose findOne does not throw) returns the very preferences the
    write returned, and writes nothing. *)
Theorem update_then_get_round_trip :
  forall env st uid input,
    unidentified (VStr uid) = false ->
    quiet_from env (List.length (trace st)) ->
    exists p st',
      updatePreferences (VStr uid) input env st = (Ok p, st') /\
      forall env2,
        faults env2 (List.length (trace st')) = None ->
        getPreferences (VStr uid) env2 st' = (Ok p, log (EvPrefFindOne uid) st').
Proof.
  intros env st uid input Hid Hq.
  destruct (updatePreferences_quiet env st uid input Hid Hq)
    as (p & st' & _ & Hrun & Hfind & _).
  exists (preferencesOf (Some p)), st'. split; [exact Hrun|].
  intros env2 Hq2. unfold getPreferences, try_catch.
  rewrite (as_userId_identified uid Hid).
  erewrite bind_ok by (apply findOrCreateDefault_found; eassumption).
  reflexivity.
Qed.

Lemma update_then_get_round_trip_witness :
  exists p st',
    updatePreferences (VStr (js "u1")) muteTaskMail quietEnv emptyStore = (Ok p, st') /\
    r_taskUpdates p = all3 false true true /\
    getPreferences (VStr (js "u1")) quietEnv st' = (Ok p, log (EvPrefFindOne (js "u1")) st').
Proof.
  destruct (update_then_get_round_trip quietEnv emptyStore (js "u1") muteTaskMail
              eq_refl (fun k _ => eq_refl)) as (p & st' & Hrun & Hget).
  exists p, st'. split; [exact Hrun|]. split.
  - exact (eq_sym
             (f_equal (fun r => r_taskUpdates
                         (match fst r with Ok x => x | Throw _ => documentedDefaults end))
                      Hrun)).
  - exact (Hget quietEnv eq_refl).
Defined.

(** X7. A write during which no I/O operation throws changes, in the record
    of the user (the stored one, or the default one when there was none),
    exactly the sections the input carries, and in each of them exactly the
    flags the input carries (push being forced on in the transactional
    section); every other section keeps its stored value, the records of
    other users are the same before and after, and the device tokens are
    not touched. *)
Theorem update_merges_section_by_section :
  forall env st uid input,
    unidentified (VStr uid) = false ->
    quiet_from env (List.length (trace st)) ->
    exists p st' d,
      updatePreferences (VStr uid) input env st = (Ok p, st') /\
      find (owned_by uid) (prefs st') = Some d /\
      (forall c, section d c = writtenSection input (recordOrDefault uid st) c) /\
      (forall q, owned_by uid q = false -> (In q (prefs st') <-> In q (prefs st))) /\
      fcm st' = fcm st.
Proof.
  intros env st uid input Hid Hq.
  destruct (updatePreferences_quiet env st uid input Hid Hq)
    as (p & st' & Happ & Hrun & Hfind & Hothers & Hfcm).
  exists (preferencesOf (Some p)), st', p.
  split; [exact Hrun|]. split; [exact Hfind|].
  split; [exact (proj2 (applyInput_sections _ _ _ Happ))|].
  split; assumption.
Qed.

Lemma update_merges_section_by_section_witness :
  let st := mkStore [mutedKeywordAlerts (js "u1"); defaultDoc (js "u2")] [] 0 [] in
  exists p st' d,
    updatePreferences (VStr (js "u1")) muteTaskMail quietEnv st = (Ok p, st') /\
    find (owned_by (js "u1")) (prefs st') = Some d /\
    taskUpdates d = Some (all3 false true true) /\
    keywordTaskAlerts d = Some (pushOnly false) /\
    In (defaultDoc (js "u2")) (prefs st').
Proof.
  intros st.
  destruct (update_merges_section_by_section quietEnv st (js "u1") muteTaskMail
              eq_refl (fun k _ => eq_refl))
    as (p & st' & d & Hrun & Hfind & Hsec & Hothers & _).
  exists p, st', d. split; [exact Hrun|]. split; [exact Hfind|].
  split; [exact (Hsec TaskUpdates)|].
  split; [exact (Hsec KeywordTaskAlerts)|].
  apply (proj2 (Hothers (defaultDoc (js "u2")) eq_refl)). right. left. reflexivity.
Defined.

(** X8. updatePreferences for a user id that is empty, blank or not a string
    throws "Failed to update preferences: Invalid userId" without any I/O
    (where getPreferences returns the defaults). *)
Theorem updatePreferences_rejects_unidentified :
  forall env st userId input,
    unidentified userId = true ->
    updatePreferences userId input env st
      = (Throw (jsError "Failed to update preferences: Invalid userId"), st).
Proof.
  intros env st userId input H.
  unfold updatePreferences, try_catch.
  now rewrite (as_userId_unidentified userId H).
Qed.

Lemma updatePreferences_rejects_unidentified_witness :
  updatePreferences (VStr (js " ")) muteTaskMail quietEnv emptyStore
    = (Throw (jsError "Failed to update preferences: Invalid userId"), emptyStore)
  /\ updatePreferences VNull muteTaskMail quietEnv emptyStore
    = (Throw (jsError "Failed to update preferences: Invalid userId"), emptyStore).
Proof.
  split; apply updatePreferences_rejects_unidentified; reflexivity.
Defined.

(** ** The tokens of a user *)

Lemma insertDesc_in (d x : TokenDoc) (l : list TokenDoc) :
  In x (insertDesc d l) -> x = d \/ In x l.
Proof.
  intros H. apply (Permutation_in _ (insertDesc_perm d l)) in H.
  destruct H as [<-|H]; auto.
Qed.

Lemma insertDesc_sorted (d : TokenDoc) (l : list TokenDoc) :
  StronglySorted not_older l -> StronglySorted not_older (insertDesc d l).
Proof.
  induction l as [|x l IH]; intros Hs; simpl.
  - repeat constructor.
  - inversion Hs as [|? ? Hl Hx]; subst.
    destruct (tok_lastActive x <=? tok_lastActive d)%Z eqn:E.
    + apply Z.leb_le in E. constructor; [exact Hs|].
      constructor; [exact E|].
      rewrite Forall_forall in *. intros y Hy. specialize (Hx y Hy).
      unfold not_older in *. lia.
    + apply Z.leb_gt in E. constructor; [now apply IH|].
      rewrite Forall_forall in *. intros y Hy.
      apply insertDesc_in in Hy as [->|Hy]; [unfold not_older; lia | now apply Hx].
Qed.

Lemma sortDesc_sorted (l : list TokenDoc) : StronglySorted not_older (sortDesc l).
Proof.
  induction l as [|x l IH]; simpl; [constructor | now apply insertDesc_sorted].
Qed.

(** X9. getUserFCMTokens: when the read does not throw it returns exactly
    the documents of the user (each as often as the collection holds it),
    most recently active first, and changes nothing; when the read throws,
    whatever the cause, the error thrown is "Failed to fetch FCM tokens". *)
Theorem getUserFCMTokens_sorted_tokens_of_user :
  forall env st uid,
    (faults env (List.length (trace st)) = None ->
     exists tokens,
       getUserFCMTokens uid env st = (Ok tokens, log (EvTokFind uid) st) /\
       Permutation tokens (owned_tokens uid (fcm st)) /\
       StronglySorted not_older tokens)
    /\ (forall e,
        faults env (List.length (trace st)) = Some e ->
        getUserFCMTokens uid env st
          = (Throw (jsError "Failed to fetch FCM tokens"), log (EvTokFind uid) st)).
Proof.
  intros env st uid. split.
  - intros Hq. eexists.
    unfold getUserFCMTokens, try_catch, TokensDb.find.
    rewrite (io_quiet _ _ _ _ Hq). cbv beta iota.
    split; [reflexivity|]. split; [apply sortDesc_perm | apply sortDesc_sorted].
  - intros e Hfault.
    unfold getUserFCMTokens, try_catch, TokensDb.find.
    now rewrite (io_fault _ _ _ _ _ Hfault).
Qed.

Lemma getUserFCMTokens_sorted_tokens_of_user_witness :
  (exists tokens,
      getUserFCMTokens (js "u1") quietEnv threeTokens
        = (Ok tokens, log (EvTokFind (js "u1")) threeTokens) /\
      Permutation tokens [tokC; tokA; tokB] /\
      StronglySorted not_older tokens)
  /\ getUserFCMTokens (js "u1")
       (mkEnv (faultAt 0 dbDown) (fun _ _ => mkBatch [] 0 0) 0 documentMembers) threeTokens
     = (Throw (jsError "Failed to fetch FCM tokens"), log (EvTokFind (js "u1")) threeTokens).
Proof.
  split.
  - exact (proj1 (getUserFCMTokens_sorted_tokens_of_user quietEnv threeTokens (js "u1"))
                 eq_refl).
  - exact (proj2 (getUserFCMTokens_sorted_tokens_of_user
                    (mkEnv (faultAt 0 dbDown) (fun _ _ => mkBatch [] 0 0) 0 documentMembers)
                    threeTokens (js "u1")) dbDown eq_refl).
Defined.

(** ** Every run of sendPushNotification *)

Lemma selectTokens_incl (sel : SendResponse -> bool) (tokens : list TokenDoc) :
  forall resps idx l,
    selectTokens sel tokens resps idx = Ok l ->
    incl l (List.map tok_token tokens).
Proof.
  induction resps as [|r resps IH]; intros idx l H; simpl in H.
  - injection H as <-. intros x [].
  - destruct (sel r); [|eauto].
    destruct (nth_error tokens idx) as [t|] eqn:Ht; [|discriminate].
    destruct (selectTokens sel tokens resps (S idx)) as [l0|e] eqn:Hrec; [|discriminate].
    simpl in H. injection H as <-.
    specialize (IH _ _ Hrec).
    destruct (is_empty (tok_token t)); [exact IH|].
    intros x [<-|Hx]; [|now apply IH].
    apply in_map. eapply nth_error_In; eauto.
Qed.

Lemma refresh_any (env : Env) (st st1 : Store) (succ : list jstring) (r : Result unit) :
  (if (0 <? List.length succ)%nat
   then lastActive <- now ;; TokensDb.updateMany succ lastActive
   else ret tt) env st = (r, st1) ->
  prefs st1 = prefs st /\ next_id st1 = next_id st /\
  exists succ' u,
    incl succ' succ /\ fcm st1 = refreshed env succ' (fcm st) /\
    trace st1 = trace st ++ u /\ (u = [] \/ u = [EvTokUpdateMany succ]) /\
    (u = [] -> r = Ok tt).
Proof.
  destruct (0 <? List.length succ)%nat.
  - unfold bind, now. cbv beta iota. unfold TokensDb.updateMany, io.
    destruct (faults env (List.length (trace st))); intros [= <- <-]; simpl;
      (split; [reflexivity|]); (split; [reflexivity|]).
    + exists [], [EvTokUpdateMany succ]. rewrite refreshed_nil.
      repeat split; auto using incl_nil_l; try discriminate.
    + exists succ, [EvTokUpdateMany succ].
      repeat split; auto using incl_refl; try discriminate.
  - unfold ret. intros [= <- <-]. split; [reflexivity|]. split; [reflexivity|].
    exists [], []. rewrite refreshed_nil, app_nil_r.
    repeat split; auto using incl_nil_l.
Qed.

Lemma prune_any (env : Env) (st st1 : Store) (inv : list jstring) (r : Result unit) :
  (if (0 <? List.length inv)%nat
   then TokensDb.deleteMany inv
   else ret tt) env st = (r, st1) ->
  prefs st1 = prefs st /\ next_id st1 = next_id st /\
  exists inv' u,
    incl inv' inv /\ fcm st1 = pruned inv' (fcm st) /\
    trace st1 = trace st ++ u /\ (u = [] \/ u = [EvTokDeleteMany inv]).
Proof.
  destruct (0 <? List.length inv)%nat.
  - unfold TokensDb.deleteMany, io.
    destruct (faults env (List.length (trace st))); intros [= <- <-]; simpl;
      (split; [reflexivity|]); (split; [reflexivity|]).
    + exists [], [EvTokDeleteMany inv]. rewrite pruned_nil.
      repeat split; auto using incl_nil_l.
    + exists inv, [EvTokDeleteMany inv]. repeat split; auto using incl_refl.
  - unfold ret. intros [= <- <-]. split; [reflexivity|]. split; [reflexivity|].
    exists [], []. rewrite pruned_nil, app_nil_r.
    repeat split; auto using incl_nil_l.
Qed.

(** Whatever the transport answered and whatever throws, the cleanup
    refreshes and prunes documents of the given tokens only. *)
Lemma settle_shape (env : Env) (st st' : Store) (tokens : list TokenDoc)
    (response : BatchResponse) (r : Result SendResult) :
  settleOutcomes tokens response env st = (r, st') ->
  prefs st' = prefs st /\ next_id st' = next_id st /\
  exists succ inv evs,
    incl succ (List.map tok_token tokens) /\
    incl inv (List.map tok_token tokens) /\
    fcm st' = pruned inv (refreshed env succ (fcm st)) /\
    extends_by st st' evs /\ cleanup_events evs.
Proof.
  intros H. unfold settleOutcomes in H.
  assert (Hnothing : forall e, (r, st') = (Throw e, st) ->
            prefs st' = prefs st /\ next_id st' = next_id st /\
            exists succ inv evs,
              incl succ (List.map tok_token tokens) /\
              incl inv (List.map tok_token tokens) /\
              fcm st' = pruned inv (refreshed env succ (fcm st)) /\
              extends_by st st' evs /\ cleanup_events evs).
  { intros e [= -> ->]. split; [reflexivity|]. split; [reflexivity|].
    exists [], [], []. rewrite pruned_nil, refreshed_nil.
    unfold extends_by, cleanup_events. rewrite app_nil_r.
    repeat split; auto using incl_nil_l. }
  unfold bind at 1, lift at 1 in H.
  destruct (selectTokens delivered tokens (responses response) 0) as [succ|e] eqn:Hs;
    [|now apply (Hnothing e)].
  apply selectTokens_incl in Hs.
  unfold bind at 1 in H.
  match type of H with context [match ?m env st with _ => _ end] =>
    destruct (m env st) as [r1 st1] eqn:H1 end.
  apply refresh_any in H1 as (Hp1 & Hn1 & succ' & u & Hsub & Hf1 & Ht1 & Hu & Hok).
  destruct r1 as [ok1|e].
  2:{ injection H as <- <-. split; [exact Hp1|]. split; [exact Hn1|].
      exists succ', [], u. rewrite pruned_nil.
      split; [eapply incl_tran; eauto|]. split; [apply incl_nil_l|].
      split; [exact Hf1|]. split; [exact Ht1|].
      destruct Hu as [-> | ->]; [discriminate (Hok eq_refl)|].
      right. left. eauto. }
  unfold bind at 1, lift at 1 in H.
  destruct (selectTokens permanentlyInvalid tokens (responses response) 0)
    as [inv|e] eqn:Hi.
  2:{ injection H as <- <-. split; [exact Hp1|]. split; [exact Hn1|].
      exists succ', [], u. rewrite pruned_nil.
      split; [eapply incl_tran; eauto|]. split; [apply incl_nil_l|].
      split; [exact Hf1|]. split; [exact Ht1|].
      destruct Hu as [-> | ->]; [now left | right; left; eauto]. }
  apply selectTokens_incl in Hi.
  unfold bind at 1 in H.
  match type of H with context [match ?m env st1 with _ => _ end] =>
    destruct (m env st1) as [r2 st2] eqn:H2 end.
  apply prune_any in H2 as (Hp2 & Hn2 & inv' & v & Hsub2 & Hf2 & Ht2 & Hv).
  assert (st' = st2) as ->
    by (destruct r2 as [ok2|e]; unfold ret in H; now inversion H).
  split; [congruence|]. split; [congruence|].
  exists succ', inv', (u ++ v).
  split; [eapply incl_tran; eauto|]. split; [eapply incl_tran; eauto|].
  split; [now rewrite Hf2, Hf1|].
  split; [unfold extends_by; now rewrite Ht2, Ht1, app_assoc|].
  unfold cleanup_events.
  destruct Hu as [-> | ->], Hv as [-> | ->]; simpl; eauto 10.
Qed.

Lemma sorted_tokens_in (uid : jstring) (l : list TokenDoc) (t : TokenDoc) :
  In t (sortDesc (filter (fun d => str_eqb (tok_userId d) uid) l)) ->
  In t l /\ tok_userId t = uid.
Proof.
  intros Ht. apply (Permutation_in _ (sortDesc_perm _)) in Ht.
  apply filter_In in Ht as [Ht Hu]. split; [exact Ht | now apply str_eqb_eq].
Qed.

(** What any run of sendPushNotification does to the store. *)
Lemma send_shape (env : Env) (st st' : Store) (userId : value)
    (notification : Payload) (r : Result SendResult) :
  sendPushNotification userId notification env st = (r, st') ->
  next_id st' = next_id st /\
  exists succ inv pre tail,
    fcm st' = pruned inv (refreshed env succ (fcm st)) /\
    (forall s, In s succ \/ In s inv ->
       exists t, In t (fcm st) /\ VStr (tok_userId t) = userId /\ tok_token t = s) /\
    extends_by st st' (pre ++ tail) /\
    forallb is_pref_event pre = true /\
    (tail = [] \/ exists uid, userId = VStr uid /\ dispatch_events uid tail).
Proof.
  intros H. unfold sendPushNotification, try_catch in H.
  match type of H with context [match ?m env st with _ => _ end] =>
    destruct (m env st) as [r0 st0] eqn:Hb end.
  assert (st' = st0) as -> by (destruct r0; unfold throw in H; now inversion H).
  clear H r.
  unfold bind at 1 in Hb.
  destruct (shouldSend_total env st userId (categoryOrDefault (n_category notification)) Push)
    as (b & st1 & Hg).
  rewrite Hg in Hb.
  pose proof (shouldSend_frame _ _ _ _ _ _ _ Hg) as (Hf1 & Hn1 & pre & Hpre & Hprefev).
  assert (Hquiet : forall stx tail,
             fcm stx = fcm st -> next_id stx = next_id st ->
             trace stx = trace st1 ++ tail ->
             (tail = [] \/ exists uid, userId = VStr uid /\ dispatch_events uid tail) ->
             next_id stx = next_id st /\
             exists succ inv pre tail,
               fcm stx = pruned inv (refreshed env succ (fcm st)) /\
               (forall s, In s succ \/ In s inv ->
                  exists t, In t (fcm st) /\ VStr (tok_userId t) = userId /\ tok_token t = s) /\
               extends_by st stx (pre ++ tail) /\
               forallb is_pref_event pre = true /\
               (tail = [] \/ exists uid, userId = VStr uid /\ dispatch_events uid tail)).
  { intros stx tail Hfx Hnx Htx Htail. split; [exact Hnx|].
    exists [], [], pre, tail. rewrite pruned_nil, refreshed_nil.
    split; [exact Hfx|]. split; [intros s [[]|[]]|].
    split; [unfold extends_by in *; now rewrite Htx, Hpre, app_assoc|].
    split; assumption. }
  cbv beta iota in Hb. destruct b.
  2:{ change (negb false) with true in Hb. cbv beta iota in Hb.
      unfold ret in Hb. injection Hb as _ <-.
      apply (Hquiet st1 []); auto. now rewrite app_nil_r. }
  change (negb true) with false in Hb. cbv beta iota in Hb.
  destruct (shouldSend_true_is_string _ _ _ _ _ _ Hg) as (uid & -> & _).
  unfold bind at 1 in Hb.
  destruct (getUserFCMTokens uid env st1) as [rt st2] eqn:Ht.
  unfold getUserFCMTokens, try_catch, TokensDb.find, io in Ht.
  destruct (faults env (List.length (trace st1))) eqn:Hfault1.
  { unfold throw in Ht. inversion Ht; subst rt st2; clear Ht. injection Hb as _ <-.
    apply (Hquiet _ [EvTokFind uid]); auto.
    right. exists uid. split; [reflexivity|]. right. now left. }
  cbv beta iota in Ht. inversion Ht; subst rt st2; clear Ht.
  cbv beta iota in Hb.
  set (tokens := sortDesc (filter (fun d => str_eqb (tok_userId d) uid) (fcm st1))) in *.
  destruct (List.length tokens =? 0)%nat.
  { unfold ret in Hb. injection Hb as _ <-.
    apply (Hquiet _ [EvTokFind uid]); auto.
    right. exists uid. split; [reflexivity|]. right. now left. }
  unfold bind at 1, Transport.sendEachForMulticast, io in Hb.
  set (toks := List.map tok_token tokens) in *.
  set (msg := messageOfPayload notification) in *.
  destruct (faults env (List.length (trace (log (EvTokFind uid) st1)))).
  { injection Hb as _ <-.
    apply (Hquiet _ [EvTokFind uid; EvTransport toks msg]); auto.
    - simpl. now rewrite <- app_assoc.
    - right. exists uid. split; [reflexivity|]. right. right.
      exists toks, msg, []. split; [reflexivity | now left]. }
  apply settle_shape in Hb as (_ & Hn3 & succ & inv & evs & Hs & Hi & Hfcm & Hext & Hcl).
  split; [simpl in Hn3; congruence|].
  exists succ, inv, pre, (EvTokFind uid :: EvTransport toks msg :: evs).
  split; [rewrite Hfcm; simpl; now rewrite Hf1|].
  split.
  { intros s Hs'.
    assert (Hin : In s (List.map tok_token tokens)) by (destruct Hs'; auto).
    apply in_map_iff in Hin as (t & <- & Hin).
    unfold tokens in Hin. rewrite Hf1 in Hin.
    apply sorted_tokens_in in Hin as [Hin Hown].
    exists t. rewrite Hown. auto. }
  split.
  { unfold extends_by in *. rewrite Hext. simpl. rewrite Hpre.
    rewrite <- !app_assoc. reflexivity. }
  split; [exact Hprefev|].
  right. exists uid. split; [reflexivity|]. right. right.
  exists toks, msg, evs. split; [reflexivity | exact Hcl].
Qed.

(** X10. A user who is allowed the send but has no device token: when the
    read of the tokens does not throw, sendPushNotification returns sent 0
    and failed 0 and its only I/O after the preference check is that read
    (no transport call, no write); when the read throws, the call throws
    "Failed to send push notification: Failed to fetch FCM tokens". *)
Theorem send_without_tokens :
  forall env st uid notification st1,
    shouldSendNotification (VStr uid) (categoryOrDefault (n_category notification))
                           Push env st = (Ok true, st1) ->
    (faults env (List.length (trace st1)) = None ->
     owned_tokens uid (fcm st) = [] ->
     sendPushNotification (VStr uid) notification env st
       = (Ok (mkSendResult true 0 0), log (EvTokFind uid) st1))
    /\ (forall e,
        faults env (List.length (trace st1)) = Some e ->
        sendPushNotification (VStr uid) notification env st
          = (Throw (dispatchFailure (jsError "Failed to fetch FCM tokens")),
             log (EvTokFind uid) st1)).
Proof.
  intros env st uid notification st1 Hgate.
  pose proof (shouldSend_frame _ _ _ _ _ _ _ Hgate) as (Hf1 & _ & _).
  split.
  - intros Hq Hnone.
    unfold sendPushNotification, try_catch.
    erewrite bind_ok by exact Hgate.
    change (negb true) with false. cbv beta iota.
    erewrite bind_ok.
    2:{ unfold getUserFCMTokens, try_catch, TokensDb.find.
        rewrite (io_quiet _ _ _ _ Hq). cbv beta iota.
        change (fcm (log (EvTokFind uid) st1)) with (fcm st1).
        rewrite Hf1. unfold owned_tokens in Hnone. rewrite Hnone. reflexivity. }
    reflexivity.
  - intros e Hfault.
    unfold sendPushNotification, try_catch.
    erewrite bind_ok by exact Hgate.
    change (negb true) with false. cbv beta iota.
    erewrite bind_throw; [reflexivity|].
    unfold getUserFCMTokens, try_catch, TokensDb.find.
    now rewrite (io_fault _ _ _ _ _ Hfault).
Qed.

Lemma send_without_tokens_witness :
  let st := mkStore [defaultDoc (js "u9")] (fcm threeTokens) 4 [] in
  sendPushNotification (VStr (js "u9")) samplePayload (deliverAll noFaults) st
    = (Ok (mkSendResult true 0 0),
       log (EvTokFind (js "u9")) (log (EvPrefFindOne (js "u9")) st))
  /\ sendPushNotification (VStr (js "u9")) samplePayload (deliverAll (faultAt 1 dbDown)) st
    = (Throw (dispatchFailure (jsError "Failed to fetch FCM tokens")),
       log (EvTokFind (js "u9")) (log (EvPrefFindOne (js "u9")) st)).
Proof.
  intros st. split.
  - exact (proj1 (send_without_tokens (deliverAll noFaults) st (js "u9") samplePayload
                    (log (EvPrefFindOne (js "u9")) st) eq_refl) eq_refl eq_refl).
  - exact (proj2 (send_without_tokens (deliverAll (faultAt 1 dbDown)) st (js "u9")
                    samplePayload (log (EvPrefFindOne (js "u9")) st) eq_refl)
                 dbDown eq_refl).
Defined.

Lemma refreshed_tokens (env : Env) (succ : list jstring) (l : list TokenDoc) :
  List.map tok_token (refreshed env succ l) = List.map tok_token l.
Proof.
  unfold refreshed. rewrite map_map. apply map_ext. intros d.
  destruct (mem (tok_token d) succ); reflexivity.
Qed.

Lemma in_refreshed (env : Env) (succ : list jstring) (l : list TokenDoc) (x : TokenDoc) :
  In x (refreshed env succ l) ->
  exists d, In d l /\ (x = d \/ x = touch (clock env) d).
Proof.
  unfold refreshed. intros H. apply in_map_iff in H as (d & Hd & Hin).
  exists d. split; [exact Hin|].
  destruct (mem (tok_token d) succ); subst; auto.
Qed.

Lemma filter_length_le {A} (f : A -> bool) (l : list A) :
  List.length (filter f l) <= List.length l.
Proof.
  induction l as [|x l IH]; simpl; [lia|]. destruct (f x); simpl; lia.
Qed.

(** X11. sendPushNotification never creates a token document and never
    changes the owner, token string, platform or device of one: whatever it
    returns or throws, every document of the collection afterwards is a
    document from before, possibly with lastActive set to the current date;
    the collection does not grow, no fresh _id is drawn, and no two
    documents come to share a token string. *)
Theorem send_never_creates_tokens :
  forall env st userId notification,
    let st' := snd (sendPushNotification userId notification env st) in
    (forall d', In d' (fcm st') ->
       exists d, In d (fcm st) /\
                 (d' = d \/
                  d' = mkToken (tok_id d) (tok_userId d) (tok_token d) (tok_platform d)
                               (tok_deviceId d) (clock env)))
    /\ List.length (fcm st') <= List.length (fcm st)
    /\ next_id st' = next_id st
    /\ (NoDup (List.map tok_token (fcm st)) -> NoDup (List.map tok_token (fcm st'))).
Proof.
  intros env st userId notification st'.
  destruct (sendPushNotification userId notification env st) as [r st0] eqn:Hrun.
  subst st'. simpl.
  apply send_shape in Hrun as (Hn & succ & inv & _ & _ & Hfcm & _).
  rewrite Hfcm. split; [|split; [|split]].
  - intros d' Hd'. apply in_pruned in Hd' as [Hd' _].
    apply in_refreshed in Hd'. exact Hd'.
  - unfold pruned. eapply Nat.le_trans; [apply filter_length_le|].
    unfold refreshed. now rewrite length_map.
  - exact Hn.
  - intros Hnd. unfold pruned. apply NoDup_map_filter.
    now rewrite refreshed_tokens.
Qed.

Lemma send_never_creates_tokens_witness :
  let st' := snd (sendPushNotification (VStr (js "u1")) samplePayload
                                       (mixedEnv noFaults) threeTokens) in
  List.length (fcm st') <= 4 /\ next_id st' = 4 /\ NoDup (List.map tok_token (fcm st')).
Proof.
  intros st'.
  destruct (send_never_creates_tokens (mixedEnv noFaults) threeTokens (VStr (js "u1"))
              samplePayload) as (_ & Hlen & Hnext & Hnd).
  split; [exact Hlen|]. split; [exact Hnext|].
  exact (Hnd (proj1 threeTokens_wf)).
Defined.

Lemma NoDup_map_inj {A B} (f : A -> B) (l : list A) (x y : A) :
  NoDup (List.map f l) -> In x l -> In y l -> f x = f y -> x = y.
Proof.
  induction l as [|a l IH]; simpl; intros Hnd Hx Hy E; [destruct Hx|].
  inversion Hnd as [|? ? Ha Hl]; subst.
  destruct Hx as [->|Hx], Hy as [->|Hy]; auto.
  - exfalso. apply Ha. rewrite E. now apply in_map.
  - exfalso. apply Ha. rewrite <- E. now apply in_map.
Qed.

(** X12. Over a collection with unique token strings, sendPushNotification
    for one user leaves the documents of every other user exactly as they
    were, whatever the transport answers and whatever throws. *)
Theorem send_leaves_other_users_tokens :
  forall env st userId notification d,
    NoDup (List.map tok_token (fcm st)) ->
    In d (fcm st) ->
    VStr (tok_userId d) <> userId ->
    In d (fcm (snd (sendPushNotification userId notification env st))).
Proof.
  intros env st userId notification d Hnd Hin Hother.
  destruct (sendPushNotification userId notification env st) as [r st'] eqn:Hrun.
  simpl. apply send_shape in Hrun as (_ & succ & inv & _ & _ & Hfcm & Hmine & _).
  assert (Hfree : forall s, In s succ \/ In s inv -> tok_token d <> s).
  { intros s Hs E. destruct (Hmine s Hs) as (t & Ht & Hown & Htok).
    apply Hother. rewrite <- Hown. f_equal. f_equal.
    apply (NoDup_map_inj tok_token (fcm st)); auto. congruence. }
  rewrite Hfcm. apply in_pruned. split.
  - unfold refreshed. apply in_map_iff. exists d. split; [|exact Hin].
    destruct (mem (tok_token d) succ) eqn:E; [|reflexivity].
    apply mem_In in E. exfalso. exact (Hfree _ (or_introl E) eq_refl).
  - intros E. exact (Hfree _ (or_intror E) eq_refl).
Qed.

Lemma send_leaves_other_users_tokens_witness :
  In tokOther
     (fcm (snd (sendPushNotification (VStr (js "u1")) samplePayload
                                     (mixedEnv noFaults) threeTokens))).
Proof.
  apply send_leaves_other_users_tokens.
  - exact (proj1 threeTokens_wf).
  - left. reflexivity.
  - discriminate.
Defined.

Lemma count_app (p : Event -> bool) (a b : list Event) :
  count p (a ++ b) = count p a + count p b.
Proof. unfold count. now rewrite filter_app, length_app. Qed.

Lemma count_pref_events (p : Event -> bool) (pre : list Event) :
  (forall e, p e = true -> is_pref_event e = false) ->
  forallb is_pref_event pre = true ->
  count p pre = 0.
Proof.
  intros Hp. induction pre as [|e pre IH]; simpl; intros H; [reflexivity|].
  apply andb_true_iff in H as [He Hpre].
  unfold count in *. simpl. destruct (p e) eqn:E.
  - rewrite (Hp e E) in He. discriminate.
  - now apply IH.
Qed.

(** In the operations of the dispatch, every bulk write has the transport
    call before it. *)
Lemma bulk_write_after_transport (uid : jstring) (tail : list Event) :
  dispatch_events uid tail ->
  forall pre before ev after,
    forallb is_pref_event pre = true ->
    pre ++ tail = before ++ ev :: after ->
    is_bulk_update ev || is_bulk_delete ev = true ->
    exists t, In t before /\ is_transport t = true.
Proof.
  intros Htail pre. induction pre as [|p pre IH]; intros before ev after Hpre Heq Hbulk.
  - simpl in Heq.
    destruct Htail as [->|[->|(toks & msg & c & -> & Hc)]].
    + destruct before; discriminate.
    + destruct before as [|b [|b' before]]; try discriminate.
      injection Heq as <- _. discriminate.
    + destruct before as [|b1 [|b2 before]].
      * injection Heq as <- _. discriminate.
      * injection Heq as _ <- _. discriminate.
      * injection Heq as <- <- _. exists (EvTransport toks msg).
        split; [right; now left | reflexivity].
  - simpl in Hpre. apply andb_true_iff in Hpre as [Hp Hpre].
    destruct before as [|b before].
    + simpl in Heq. injection Heq as <- _.
      destruct p; simpl in Hp, Hbulk; discriminate.
    + simpl in Heq. injection Heq as <- Heq.
      destruct (IH before ev after Hpre Heq Hbulk) as (t & Hin & Ht).
      exists t. split; [now right | exact Ht].
Qed.

(** X13. The I/O of one sendPushNotification, whatever happens: at most one
    read of the tokens, at most one transport call, at most one bulk update
    and at most one bulk delete; a bulk write is only ever issued after the
    transport call of the same invocation (wherever a bulk write stands
    among the operations of the call, a transport call stands before it); no
    token document is inserted, saved or deleted by device. *)
Theorem send_io_budget :
  forall env st userId notification,
    exists evs,
      extends_by st (snd (sendPushNotification userId notification env st)) evs /\
      count is_token_read evs <= 1 /\
      count is_transport evs <= 1 /\
      count is_bulk_update evs <= 1 /\
      count is_bulk_delete evs <= 1 /\
      count is_registration_write evs = 0 /\
      (0 < count is_bulk_update evs + count is_bulk_delete evs ->
       count is_transport evs = 1) /\
      (forall before ev after,
          evs = before ++ ev :: after ->
          is_bulk_update ev || is_bulk_delete ev = true ->
          exists t, In t before /\ is_transport t = true).
Proof.
  intros env st userId notification.
  destruct (sendPushNotification userId notification env st) as [r st'] eqn:Hrun.
  simpl. apply send_shape in Hrun
    as (_ & succ & inv & pre & tail & _ & _ & Hext & Hpre & Htail).
  exists (pre ++ tail). split; [exact Hext|].
  assert (Horder : forall before ev after,
             pre ++ tail = before ++ ev :: after ->
             is_bulk_update ev || is_bulk_delete ev = true ->
             exists t, In t before /\ is_transport t = true).
  { intros before ev after Heq Hbulk.
    destruct Htail as [->|(uid & _ & Hd)].
    - exact (bulk_write_after_transport [] [] (or_introl eq_refl)
               pre before ev after Hpre Heq Hbulk).
    - exact (bulk_write_after_transport uid tail Hd pre before ev after Hpre Heq Hbulk). }
  rewrite !count_app.
  rewrite (count_pref_events is_token_read pre), (count_pref_events is_transport pre),
    (count_pref_events is_bulk_update pre), (count_pref_events is_bulk_delete pre),
    (count_pref_events is_registration_write pre);
    try exact Hpre; try (intros []; simpl; congruence).
  simpl.
  destruct Htail as [->|(uid & _ & [->|[->|(toks & msg & c & -> & Hc)]])];
    try (cbn; repeat split; try lia; exact Horder).
  destruct Hc as [->|[(s & ->)|[(i & ->)|(s & i & ->)]]]; cbn; repeat split;
    try lia; exact Horder.
Qed.

Lemma send_io_budget_witness :
  count is_transport
        (trace (snd (sendPushNotification (VStr (js "u1")) samplePayload
                                          (mixedEnv noFaults) threeTokens))) = 1
  /\ exists t,
       In t [EvPrefFindOne (js "u1"); EvTokFind (js "u1");
             EvTransport [js "token-a"; js "token-b"; js "token-c"]
                         (messageOfPayload samplePayload)]
       /\ is_transport t = true.
Proof.
  destruct (send_io_budget (mixedEnv noFaults) threeTokens (VStr (js "u1")) samplePayload)
    as (evs & Hext & _ & _ & _ & _ & _ & Hwrites & Horder).
  unfold extends_by in Hext. simpl app in Hext.
  split.
  - rewrite Hext. apply Hwrites. rewrite <- Hext. apply le_S, le_n.
  - apply (Horder _ (EvTokUpdateMany [js "token-a"]) [EvTokDeleteMany [js "token-c"]]);
      [|reflexivity].
    rewrite <- Hext. reflexivity.
Defined.

(** ** Registration *)

(** What any run of registerToken does to the collection. *)
Lemma registerToken_shape (env : Env) (st st' : Store) (userId token : jstring)
    (platform : Platform) (deviceId : option jstring) (r : Result TokenDoc) :
  registerToken userId token platform deviceId env st = (r, st') ->
  (* nothing written *)
  (fcm st' = fcm st /\ next_id st <= next_id st' /\ (forall d, r <> Ok d))
  \/
  (* the document that holds the token is rewritten *)
  (exists d,
      find (holds_token token) (fcm st) = Some d /\
      next_id st' = next_id st /\
      r = Ok (reassigned env d userId platform deviceId) /\
      fcm st' = List.map (fun x => if (tok_id x =? tok_id d)%nat
                                   then reassigned env d userId platform deviceId
                                   else x) (fcm st))
  \/
  (* a document is created *)
  (find (holds_token token) (fcm st) = None /\
   next_id st' = S (next_id st) /\
   exists kept,
     (kept = fcm st \/
      exists did, deviceId = Some did /\ did <> [] /\
                  kept = survivors (created env st userId token platform deviceId)
                                   did (fcm st)) /\
     ((fcm st' = kept /\ forall d, r <> Ok d) \/
      (fcm st' = kept ++ [created env st userId token platform deviceId] /\
       r = Ok (created env st userId token platform deviceId)))).
Proof.
  intros H. unfold registerToken, try_catch in H.
  match type of H with context [match ?m env st with _ => _ end] =>
    destruct (m env st) as [r0 st0] eqn:Hb end.
  assert (Hres : st' = st0 /\ (forall d, r0 = Ok d -> r = Ok d) /\
                 ((forall d, r0 <> Ok d) -> forall d, r <> Ok d)).
  { destruct r0 as [d|e]; unfold throw in H; inversion H; subst;
      (split; [reflexivity|]); split; try congruence;
      try (intros Hno0; exfalso; exact (Hno0 _ eq_refl)). }
  destruct Hres as (-> & Hok & Hno). clear H.
  unfold bind at 1, TokensDb.findOne, io in Hb.
  destruct (faults env (List.length (trace st))).
  { injection Hb as <- <-. left. simpl. split; [reflexivity|]. split; [lia|].
    apply Hno. discriminate. }
  cbv beta iota in Hb. change (fcm (log (EvTokFindOne token) st)) with (fcm st) in Hb.
  fold (holds_token token) in Hb.
  destruct (find (holds_token token) (fcm st)) as [d|] eqn:Hfind.
  - (* update in place *)
    unfold bind at 1, now in Hb. cbv beta iota in Hb.
    fold (reassigned env d userId platform deviceId) in Hb.
    set (d' := reassigned env d userId platform deviceId) in *.
    unfold bind at 1, TokensDb.save in Hb.
    unfold bind at 1, TokensDb.validate in Hb.
    destruct (is_empty (tok_userId d') || is_empty (tok_token d')).
    { unfold throw in Hb. injection Hb as <- <-. left. simpl.
      split; [reflexivity|]. split; [lia|]. apply Hno. discriminate. }
    unfold ret at 1 in Hb. cbv beta iota in Hb.
    assert (Hpre : TokensDb.preSave false d' = ret tt).
    { unfold TokensDb.preSave. destruct (tok_deviceId d'); reflexivity. }
    rewrite Hpre in Hb. unfold bind at 1, ret at 1 in Hb. cbv beta iota in Hb.
    unfold io in Hb.
    destruct (faults env (List.length (trace (log (EvTokFindOne token) st)))).
    + injection Hb as <- <-. left. simpl. split; [reflexivity|]. split; [lia|].
      apply Hno. discriminate.
    + unfold ret in Hb. injection Hb as <- <-. right. left. exists d.
      split; [reflexivity|]. split; [reflexivity|]. split; [now apply Hok|].
      reflexivity.
  - (* creation *)
    unfold bind at 1, now in Hb. cbv beta iota in Hb.
    unfold TokensDb.create in Hb.
    change (mkToken (next_id (log (EvTokFindOne token) st)) userId token platform
                    deviceId (clock env))
      with (created env st userId token platform deviceId) in Hb.
    set (doc := created env st userId token platform deviceId) in *.
    unfold bind at 1 in Hb.
    match type of Hb with context [TokensDb.save true doc env ?s] =>
      set (st1 := s) in *; destruct (TokensDb.save true doc env st1) as [rs st2] eqn:Hsave
    end.
    assert (Hst2 : next_id st2 = S (next_id st) /\
                   exists kept,
                     (kept = fcm st \/
                      exists did, deviceId = Some did /\ did <> [] /\
                                  kept = survivors doc did (fcm st)) /\
                     ((fcm st2 = kept /\ exists e, rs = Throw e) \/
                      (fcm st2 = kept ++ [doc] /\ rs = Ok tt))).
    { unfold TokensDb.save, bind at 1, TokensDb.validate in Hsave.
      destruct (is_empty (tok_userId doc) || is_empty (tok_token doc)).
      { unfold throw in Hsave. injection Hsave as <- <-. simpl.
        split; [reflexivity|]. exists (fcm st). split; [now left|]. left. eauto. }
      unfold ret at 1 in Hsave. cbv beta iota in Hsave. unfold bind at 1 in Hsave.
      destruct (TokensDb.preSave true doc env st1) as [rp stp] eqn:Hpre.
      assert (Hp : next_id stp = S (next_id st) /\
                   ((fcm stp = fcm st) \/
                    (exists did, deviceId = Some did /\ did <> [] /\
                                 fcm stp = survivors doc did (fcm st) /\ rp = Ok tt)) /\
                   (rp = Ok tt \/ (exists e, rp = Throw e) /\ fcm stp = fcm st)).
      { unfold TokensDb.preSave in Hpre.
        change (tok_deviceId doc) with deviceId in Hpre.
        destruct deviceId as [did|].
        - destruct (is_empty did) eqn:Hemp; cbn [negb andb] in Hpre.
          + unfold ret in Hpre. injection Hpre as <- <-. simpl. auto.
          + unfold io in Hpre.
            destruct (faults env (List.length (trace st1))).
            * injection Hpre as <- <-. simpl. split; [reflexivity|].
              split; [now left|]. right. eauto.
            * injection Hpre as <- <-. simpl. split; [reflexivity|].
              split; [|now left]. right. exists did.
              split; [reflexivity|]. split; [|split; reflexivity].
              intros ->. discriminate.
        - unfold ret in Hpre. injection Hpre as <- <-. simpl. auto. }
      destruct Hp as (Hn & Hkept & Hrp).
      destruct rp as [u|e].
      2:{ injection Hsave as <- <-. split; [exact Hn|].
          destruct Hrp as [Hrp|[_ Hsame]]; [discriminate|].
          exists (fcm st). split; [now left|]. left. eauto. }
      unfold io in Hsave.
      assert (Hkept' : exists kept,
                 fcm stp = kept /\
                 (kept = fcm st \/
                  exists did, deviceId = Some did /\ did <> [] /\
                              kept = survivors doc did (fcm st))).
      { exists (fcm stp). split; [reflexivity|].
        destruct Hkept as [E|(did & E1 & E2 & E3 & _)]; [now left|].
        right. exists did. auto. }
      destruct Hkept' as (kept & Hk & Hkk).
      destruct (faults env (List.length (trace stp))).
      { injection Hsave as <- <-. simpl. split; [exact Hn|].
        exists kept. split; [exact Hkk|]. left. eauto. }
      change (fcm (log (EvTokInsert (tok_token doc)) stp)) with (fcm stp) in Hsave.
      destruct (existsb (fun d => str_eqb (tok_token d) (tok_token doc)) (fcm stp)).
      { injection Hsave as <- <-. simpl. split; [exact Hn|].
        exists kept. split; [exact Hkk|]. left. eauto. }
      injection Hsave as <- <-. simpl. split; [exact Hn|].
      exists kept. split; [exact Hkk|]. right. rewrite Hk. auto. }
    destruct Hst2 as (Hn2 & kept & Hkk & Hout).
    right. right. split; [reflexivity|].
    destruct rs as [u|e].
    + unfold ret in Hb. injection Hb as <- <-.
      split; [exact Hn2|]. exists kept. split; [exact Hkk|].
      destruct Hout as [(_ & e & He)|(Hf & _)]; [discriminate|].
      right. split; [exact Hf | now apply Hok].
    + injection Hb as <- <-.
      split; [exact Hn2|]. exists kept. split; [exact Hkk|].
      destruct Hout as [(Hf & _)|(_ & He)]; [|discriminate].
      left. split; [exact Hf|]. apply Hno. discriminate.
Qed.

Lemma replace_by_id_keeps (f : TokenDoc -> TokenDoc) (d d' : TokenDoc) (l : list TokenDoc) :
  NoDup (List.map tok_id l) -> In d l ->
  tok_id d' = tok_id d -> tok_token d' = tok_token d ->
  List.map tok_token (List.map (fun x => if (tok_id x =? tok_id d)%nat then d' else x) l)
    = List.map tok_token l /\
  List.map tok_id (List.map (fun x => if (tok_id x =? tok_id d)%nat then d' else x) l)
    = List.map tok_id l.
Proof.
  intros Hnd Hin Hid Htok. rewrite !map_map.
  split; apply map_ext_in; intros x Hx;
    destruct (tok_id x =? tok_id d)%nat eqn:E; try reflexivity;
    apply Nat.eqb_eq in E;
    rewrite (NoDup_map_inj tok_id l x d Hnd Hx Hin E); assumption.
Qed.

Lemma holds_token_eq (token : jstring) (d : TokenDoc) :
  holds_token token d = true <-> tok_token d = token.
Proof. apply str_eqb_eq. Qed.

Lemma find_none_token (token : jstring) (l : list TokenDoc) :
  find (holds_token token) l = None -> ~ In token (List.map tok_token l).
Proof.
  intros Hnone Hin. apply in_map_iff in Hin as (d & Hd & Hin).
  pose proof (find_none _ _ Hnone d Hin) as Hno.
  apply holds_token_eq in Hd. congruence.
Qed.

Lemma survivors_incl (doc : TokenDoc) (did : jstring) (l : list TokenDoc) :
  incl (survivors doc did l) l.
Proof. intros x Hx. unfold survivors in Hx. apply filter_In in Hx. tauto. Qed.

Lemma NoDup_snoc {A} (l : list A) (x : A) :
  NoDup l -> ~ In x l -> NoDup (l ++ [x]).
Proof.
  intros Hl Hx. apply NoDup_app; [exact Hl | repeat constructor; intros [] |].
  intros y Hy [<-|[]]. now apply Hx.
Qed.

(** Whatever registerToken returns or throws, it leaves a well-formed
    collection well-formed. *)
Lemma registerToken_keeps_wf (env : Env) (st st' : Store) (userId token : jstring)
    (platform : Platform) (deviceId : option jstring) (r : Result TokenDoc) :
  registry_wf st ->
  registerToken userId token platform deviceId env st = (r, st') ->
  registry_wf st'.
Proof.
  intros (Htok & Hid & Hfresh) H.
  apply registerToken_shape in H
    as [(Hf & Hn & _) | [(d & Hfind & Hn & _ & Hf) | (Hfind & Hn & kept & Hkept & Hout)]].
  - unfold registry_wf, ids_fresh. rewrite Hf.
    repeat split; auto. intros d Hd. specialize (Hfresh d Hd). lia.
  - apply find_some in Hfind as [Hin _].
    destruct (replace_by_id_keeps (fun x => x) d (reassigned env d userId platform deviceId)
                (fcm st) Hid Hin eq_refl eq_refl) as [Et Ei].
    unfold registry_wf, ids_fresh. rewrite Hf, Et, Ei, Hn.
    repeat split; auto.
    intros x Hx. apply in_map_iff in Hx as (y & Hy & Hiny).
    specialize (Hfresh y Hiny).
    destruct (tok_id y =? tok_id d)%nat eqn:E; subst x; [|exact Hfresh].
    apply Nat.eqb_eq in E. simpl. lia.
  - set (doc := created env st userId token platform deviceId) in *.
    assert (Hsub : incl kept (fcm st)).
    { destruct Hkept as [->|(did & _ & _ & ->)];
        [apply incl_refl | apply survivors_incl]. }
    assert (Hkt : NoDup (List.map tok_token kept) /\ NoDup (List.map tok_id kept)).
    { destruct Hkept as [->|(did & _ & _ & ->)]; [auto|].
      unfold survivors. split; now apply NoDup_map_filter. }
    assert (Hkf : forall x, In x kept -> tok_id x < next_id st)
      by (intros x Hx; apply Hfresh, Hsub, Hx).
    destruct Hkt as [Hkt Hki].
    unfold registry_wf, ids_fresh. rewrite Hn.
    destruct Hout as [(Hf & _)|(Hf & _)]; rewrite Hf.
    + repeat split; auto. intros x Hx. specialize (Hkf x Hx). lia.
    + rewrite !map_app. simpl.
      split; [|split].
      * apply NoDup_snoc; [exact Hkt|]. intros Hin.
        apply (find_none_token token (fcm st) Hfind).
        apply in_map_iff in Hin as (x & Hx & Hinx).
        apply in_map_iff. exists x. split; [exact Hx | now apply Hsub].
      * apply NoDup_snoc; [exact Hki|]. intros Hin.
        apply in_map_iff in Hin as (x & Hx & Hinx).
        specialize (Hkf x Hinx). simpl in Hx. lia.
      * intros x Hx. apply in_app_or in Hx as [Hx|[<-|[]]];
          [specialize (Hkf x Hx); lia | simpl; lia].
Qed.

(** X14. The well-formedness of the token collection (unique token strings,
    unique _id values, every _id drawn from the counter) is an invariant of
    registerToken: it holds afterwards whenever it held before, whether the
    call returns or throws, on the update path and on the create path. *)
Theorem registration_keeps_tokens_unique :
  forall env st userId token platform deviceId,
    registry_wf st ->
    registry_wf (snd (registerToken userId token platform deviceId env st)).
Proof.
  intros env st userId token platform deviceId Hwf.
  destruct (registerToken userId token platform deviceId env st) as [r st'] eqn:H.
  exact (registerToken_keeps_wf _ _ _ _ _ _ _ _ Hwf H).
Qed.

Lemma emptyStore_wf : registry_wf emptyStore.
Proof.
  unfold registry_wf, ids_fresh. simpl. repeat split; try constructor.
  intros d [].
Defined.

Lemma registration_keeps_tokens_unique_witness :
  registry_wf
    (afterRegister "u1" "t2" "d" quietEnv
       (afterRegister "u1" "t1" "d" quietEnv
          (afterRegister "u2" "t2" "d" quietEnv emptyStore))).
Proof.
  unfold afterRegister.
  repeat apply registration_keeps_tokens_unique. exact emptyStore_wf.
Defined.

Lemma findOne_token_quiet (env : Env) (st : Store) (token : jstring) :
  faults env (List.length (trace st)) = None ->
  TokensDb.findOne token env st
    = (Ok (find (holds_token token) (fcm st)), log (EvTokFindOne token) st).
Proof.
  intros Hq. unfold TokensDb.findOne. now rewrite (io_quiet _ _ _ _ Hq).
Qed.

(** X15. Registering a token string that the collection already holds,
    with no I/O operation throwing.  With a user id that is not empty, that
    one document is rewritten in place: it keeps its _id and token and takes
    the new owner, platform, device and the current date; the collection has
    as many documents as before, all the others unchanged, and no _id is
    drawn.  With the empty user id the save fails the validation of the
    schema: registerToken throws "Failed to register FCM token: ..." after
    its one read, and nothing is written. *)
Theorem reregistration_updates_in_place :
  forall env st userId token platform deviceId d,
    registry_wf st ->
    token <> [] ->
    find (holds_token token) (fcm st) = Some d ->
    quiet_from env (List.length (trace st)) ->
    (userId <> [] ->
     exists st',
       registerToken userId token platform deviceId env st
         = (Ok (reassigned env d userId platform deviceId), st') /\
       List.length (fcm st') = List.length (fcm st) /\
       In (reassigned env d userId platform deviceId) (fcm st') /\
       (forall x, In x (fcm st) -> x <> d -> In x (fcm st')) /\
       next_id st' = next_id st)
    /\ (userId = [] ->
        registerToken userId token platform deviceId env st
          = (Throw (jsError ("Failed to register FCM token: "
                             ++ exn_message TokensDb.validationFailed)),
             log (EvTokFindOne token) st)).
Proof.
  intros env st userId token platform deviceId d (_ & Hid & _) Htoken Hfind Hq.
  set (d' := reassigned env d userId platform deviceId).
  pose proof (find_some _ _ Hfind) as [Hin Hholds].
  apply holds_token_eq in Hholds.
  split.
  - intros Huser. eexists. split.
    + unfold registerToken, try_catch.
      erewrite bind_ok by (apply findOne_token_quiet, quiet_here, Hq).
      rewrite Hfind. cbv beta iota.
      erewrite bind_ok by reflexivity.
      fold (reassigned env d userId platform deviceId). fold d'.
      erewrite bind_ok.
      2:{ unfold TokensDb.save.
          rewrite (validate_ok d') by (simpl; congruence).
          rewrite ret_bind.
          erewrite bind_ok.
          2:{ unfold TokensDb.preSave. destruct (tok_deviceId d'); reflexivity. }
          cbv beta iota.
          rewrite io_quiet by apply quiet_here, quiet_log, Hq.
          reflexivity. }
      reflexivity.
    + simpl. split; [now rewrite length_map|]. split; [|split; [|reflexivity]].
      * apply in_map_iff. exists d. split; [|exact Hin].
        now rewrite Nat.eqb_refl.
      * intros x Hx Hne. apply in_map_iff. exists x. split; [|exact Hx].
        destruct (tok_id x =? tok_id d)%nat eqn:E; [|reflexivity].
        apply Nat.eqb_eq in E. exfalso. apply Hne.
        exact (NoDup_map_inj tok_id (fcm st) x d Hid Hx Hin E).
  - intros ->.
    unfold registerToken, try_catch.
    erewrite bind_ok by (apply findOne_token_quiet, quiet_here, Hq).
    rewrite Hfind. cbv beta iota.
    erewrite bind_ok by reflexivity.
    unfold TokensDb.save.
    rewrite validate_fails by reflexivity.
    reflexivity.
Qed.

Lemma reregistration_updates_in_place_witness :
  (exists st',
      registerToken (js "u2") (js "token-a") Web None (deliverAll noFaults) threeTokens
        = (Ok (mkToken 0 (js "u2") (js "token-a") Web None 50), st') /\
      List.length (fcm st') = 4 /\
      In (mkToken 0 (js "u2") (js "token-a") Web None 50) (fcm st') /\
      (forall x, In x (fcm threeTokens) -> x <> tokA -> In x (fcm st')) /\
      next_id st' = 4)
  /\ registerToken [] (js "token-a") Web None (deliverAll noFaults) threeTokens
     = (Throw (jsError "Failed to register FCM token: FCMToken validation failed"),
        log (EvTokFindOne (js "token-a")) threeTokens).
Proof.
  assert (Hwf : registry_wf threeTokens).
  { split; [exact (proj1 threeTokens_wf)|]. split.
    - repeat constructor; simpl; intros H;
        repeat (destruct H as [H|H]; [discriminate H|]); exact H.
    - intros d H. simpl in H.
      repeat (destruct H as [H|H]; [subst d; simpl; repeat constructor|]). destruct H. }
  split.
  - refine (proj1 (reregistration_updates_in_place (deliverAll noFaults) threeTokens
                     (js "u2") (js "token-a") Web None tokA Hwf _ eq_refl
                     (fun k _ => eq_refl)) _); discriminate.
  - refine (proj2 (reregistration_updates_in_place (deliverAll noFaults) threeTokens
                     [] (js "token-a") Web None tokA Hwf _ eq_refl
                     (fun k _ => eq_refl)) eq_refl); discriminate.
Defined.

Lemma find_unique_token (token : jstring) (l : list TokenDoc) (x : TokenDoc) :
  NoDup (List.map tok_token l) -> In x l -> tok_token x = token ->
  find (holds_token token) l = Some x.
Proof.
  intros Hnd Hin Htok.
  destruct (find (holds_token token) l) as [y|] eqn:Hfind.
  - apply find_some in Hfind as [Hy Hty]. apply holds_token_eq in Hty.
    f_equal. apply (NoDup_map_inj tok_token l); auto. congruence.
  - exfalso. pose proof (find_none _ _ Hfind x Hin) as Hno.
    apply holds_token_eq in Htok. congruence.
Qed.

(** X16. A registration that returns has stored what it returns: over a
    well-formed collection, the returned document carries the user, token,
    platform, device and current date of the call, it is the document the
    collection holds for that token string, and the next read of the user's
    tokens (when it does not throw) contains it. *)
Theorem registered_token_is_found :
  forall env st userId token platform deviceId doc st',
    registry_wf st ->
    registerToken userId token platform deviceId env st = (Ok doc, st') ->
    tok_userId doc = userId /\ tok_token doc = token /\
    tok_platform doc = platform /\ tok_deviceId doc = deviceId /\
    tok_lastActive doc = clock env /\
    find (holds_token token) (fcm st') = Some doc /\
    forall env2,
      faults env2 (List.length (trace st')) = None ->
      exists tokens,
        getUserFCMTokens userId env2 st' = (Ok tokens, log (EvTokFind userId) st') /\
        In doc tokens.
Proof.
  intros env st userId token platform deviceId doc st' Hwf Hrun.
  pose proof (registerToken_keeps_wf _ _ _ _ _ _ _ _ Hwf Hrun) as (Htok' & _ & _).
  assert (Hdoc : In doc (fcm st') /\ tok_userId doc = userId /\ tok_token doc = token /\
                 tok_platform doc = platform /\ tok_deviceId doc = deviceId /\
                 tok_lastActive doc = clock env).
  { apply registerToken_shape in Hrun
      as [(_ & _ & Hno) | [(d & Hfind & _ & Hr & Hf) | (_ & _ & kept & _ & Hout)]].
    - exfalso. exact (Hno doc eq_refl).
    - injection Hr as ->. apply find_some in Hfind as [Hin Hh].
      apply holds_token_eq in Hh. rewrite Hf. repeat split; auto.
      apply in_map_iff. exists d. split; [|exact Hin]. now rewrite Nat.eqb_refl.
    - destruct Hout as [(_ & Hno)|(Hf & Hr)]; [exfalso; exact (Hno doc eq_refl)|].
      injection Hr as ->. rewrite Hf. repeat split; auto.
      apply in_or_app. right. now left. }
  destruct Hdoc as (Hin & Hu & Ht & Hp & Hd & Hl).
  repeat split; auto.
  - now apply find_unique_token.
  - intros env2 Hq2. eexists.
    unfold getUserFCMTokens, try_catch, TokensDb.find.
    rewrite (io_quiet _ _ _ _ Hq2). cbv beta iota.
    split; [reflexivity|].
    apply (Permutation_in _ (Permutation_sym (sortDesc_perm _))).
    apply filter_In. split; [exact Hin|]. rewrite Hu. apply str_eqb_refl.
Qed.

Lemma registered_token_is_found_witness :
  let run := registerToken (js "u1") (js "t1") Ios (Some (js "d")) quietEnv emptyStore in
  find (holds_token (js "t1")) (fcm (snd run))
    = Some (mkToken 0 (js "u1") (js "t1") Ios (Some (js "d")) 0)
  /\ exists tokens,
       getUserFCMTokens (js "u1") quietEnv (snd run)
         = (Ok tokens, log (EvTokFind (js "u1")) (snd run)) /\
       In (mkToken 0 (js "u1") (js "t1") Ios (Some (js "d")) 0) tokens.
Proof.
  intros run.
  destruct (registered_token_is_found quietEnv emptyStore (js "u1") (js "t1") Ios
              (Some (js "d")) (mkToken 0 (js "u1") (js "t1") Ios (Some (js "d")) 0)
              (snd run) emptyStore_wf eq_refl)
    as (_ & _ & _ & _ & _ & Hfind & Hget).
  split; [exact Hfind | exact (Hget quietEnv eq_refl)].
Defined.

(** X17. Registration is not atomic: for a user id and a token string
    that are not empty, when the pre-save hook of a new document has run and
    the insert that follows throws, registerToken throws "Failed to register
    FCM token: ..." while the older documents of the device are already
    deleted, so the (user, device) pair is left without any token and the
    new token string is not stored.  With an empty user id or token string
    the validation of the schema fails before the hook: registerToken throws
    with the message of the validation and the collection is as before. *)
Theorem failed_insert_unregisters_device :
  forall env st userId token platform deviceId,
    deviceId <> [] ->
    find (holds_token token) (fcm st) = None ->
    ids_fresh st ->
    faults env (List.length (trace st)) = None ->
    (forall e,
        userId <> [] -> token <> [] ->
        faults env (S (List.length (trace st))) = None ->
        faults env (S (S (List.length (trace st)))) = Some e ->
        exists st',
          registerToken userId token platform (Some deviceId) env st
            = (Throw (jsError ("Failed to register FCM token: " ++ exn_message e)), st') /\
          device_records userId deviceId st' = [] /\
          find (holds_token token) (fcm st') = None)
    /\ (is_empty userId || is_empty token = true ->
        exists st',
          registerToken userId token platform (Some deviceId) env st
            = (Throw (jsError ("Failed to register FCM token: "
                               ++ exn_message TokensDb.validationFailed)), st') /\
          fcm st' = fcm st /\
          trace st' = trace st ++ [EvTokFindOne token]).
Proof.
  intros env st userId token platform deviceId Hdev Hfind Hfresh Hq0.
  set (doc := created env st userId token platform (Some deviceId)).
  assert (Hfull : is_empty deviceId = false) by (destruct deviceId; [congruence|reflexivity]).
  split.
  - intros e Huser Htoken Hq1 Hq2. eexists. split.
    + unfold registerToken, try_catch.
      erewrite bind_ok by (apply findOne_token_quiet, Hq0).
      rewrite Hfind. cbv beta iota.
      erewrite bind_ok by reflexivity.
      unfold TokensDb.create.
      change (mkToken (next_id (log (EvTokFindOne token) st)) userId token platform
                      (Some deviceId) (clock env)) with doc.
      erewrite bind_throw; [reflexivity|].
      unfold TokensDb.save.
      rewrite (validate_ok doc Huser Htoken), ret_bind.
      erewrite bind_ok.
      2:{ unfold TokensDb.preSave. change (tok_deviceId doc) with (Some deviceId).
          cbv beta iota. rewrite Hfull. cbn [negb andb].
          rewrite io_quiet by (simpl; rewrite length_app; simpl;
                               now rewrite Nat.add_1_r).
          reflexivity. }
      cbv beta iota. apply io_fault.
      simpl. rewrite !length_app. simpl. now rewrite !Nat.add_1_r.
    + simpl. split.
      * unfold device_records. simpl. apply filter_none.
        intros x Hx. apply filter_In in Hx as [Hin Hk].
        apply negb_true_iff, andb_false_iff in Hk as [Hk|Hk]; [exact Hk|].
        apply negb_false_iff, Nat.eqb_eq in Hk. specialize (Hfresh x Hin).
        simpl in Hk. lia.
      * apply find_none_iff. intros x Hx. apply filter_In in Hx as [Hin _].
        exact (find_none _ _ Hfind x Hin).
  - intros Hempty. eexists. split.
    + unfold registerToken, try_catch.
      erewrite bind_ok by (apply findOne_token_quiet, Hq0).
      rewrite Hfind. cbv beta iota.
      erewrite bind_ok by reflexivity.
      unfold TokensDb.create.
      change (mkToken (next_id (log (EvTokFindOne token) st)) userId token platform
                      (Some deviceId) (clock env)) with doc.
      erewrite bind_throw; [reflexivity|].
      unfold TokensDb.save.
      rewrite (validate_fails doc) by exact Hempty.
      reflexivity.
    + split; reflexivity.
Qed.

Lemma failed_insert_unregisters_device_witness :
  let st := afterRegister "u1" "t1" "d" quietEnv emptyStore in
  List.map tok_token (device_records (js "u1") (js "d") st) = [js "t1"] /\
  (exists st',
      registerToken (js "u1") (js "t2") Android (Some (js "d"))
                    (mkEnv (faultAt 5 dbDown) (fun _ _ => mkBatch [] 0 0) 0 documentMembers) st
        = (Throw (jsError "Failed to register FCM token: connection lost"), st') /\
      device_records (js "u1") (js "d") st' = [] /\
      find (holds_token (js "t2")) (fcm st') = None) /\
  (exists st',
      registerToken (js "u1") [] Android (Some (js "d")) quietEnv st
        = (Throw (jsError "Failed to register FCM token: FCMToken validation failed"),
           st') /\
      fcm st' = fcm st /\
      trace st' = trace st ++ [EvTokFindOne []]).
Proof.
  intros st. split; [reflexivity|]. split.
  - refine (proj1 (failed_insert_unregisters_device
                     (mkEnv (faultAt 5 dbDown) (fun _ _ => mkBatch [] 0 0) 0
                            documentMembers) st
                     (js "u1") (js "t2") Android (js "d") _ eq_refl _ eq_refl)
                  dbDown _ _ eq_refl eq_refl); try discriminate.
    intros d [<-|[]]. apply le_n.
  - refine (proj2 (failed_insert_unregisters_device quietEnv st
                     (js "u1") [] Android (js "d") _ eq_refl _ eq_refl)
                  eq_refl); try discriminate.
    intros d [<-|[]]. apply le_n.
Defined.

(** ** Removing a token *)

Lemma removeFirst_absent {A} (f : A -> bool) (l : list A) :
  find f l = None -> removeFirst f l = (l, 0).
Proof.
  induction l as [|x l IH]; simpl; [reflexivity|].
  destruct (f x); [discriminate|]. intros H. now rewrite (IH H).
Qed.

Lemma filter_all {A} (f : A -> bool) (l : list A) :
  (forall x, In x l -> f x = true) -> filter f l = l.
Proof.
  induction l as [|x l IH]; simpl; intros H; [reflexivity|].
  rewrite (H x (or_introl eq_refl)). f_equal. apply IH. intros y Hy. apply H. now right.
Qed.

Lemma removeFirst_unique (token : jstring) (l : list TokenDoc) (d : TokenDoc) :
  NoDup (List.map tok_token l) -> In d l -> tok_token d = token ->
  removeFirst (fun x => str_eqb (tok_token x) token) l
    = (filter (fun x => negb (holds_token token x)) l, 1).
Proof.
  unfold holds_token.
  induction l as [|a l IH]; simpl; intros Hnd Hin Htok; [destruct Hin|].
  inversion Hnd as [|? ? Ha Hl]; subst.
  destruct (str_eqb (tok_token a) (tok_token d)) eqn:E; simpl.
  - apply str_eqb_eq in E. f_equal. symmetry. apply filter_all.
    intros x Hx. apply negb_true_iff, str_eqb_neq. intros Ex.
    apply Ha. rewrite E, <- Ex. now apply in_map.
  - destruct Hin as [->|Hin]; [rewrite str_eqb_refl in E; discriminate|].
    now rewrite (IH Hl Hin eq_refl).
Qed.

(** X18. removeToken of a token string that no document holds throws the
    not-found error "FCM token not found" unchanged and leaves the
    collection as it was; an exception of the database is rethrown as
    "Failed to remove FCM token: ..." with its message. *)
Theorem removeToken_not_found_or_failed :
  forall env st token,
    (faults env (List.length (trace st)) = None ->
     find (holds_token token) (fcm st) = None ->
     removeToken token env st
       = (Throw (notFoundError "FCM token not found"),
          log (EvTokDeleteMany [token]) st))
    /\ (forall e,
        faults env (List.length (trace st)) = Some e ->
        isNotFoundError e = false ->
        removeToken token env st
          = (Throw (jsError ("Failed to remove FCM token: " ++ exn_message e)),
             log (EvTokDeleteMany [token]) st)).
Proof.
  intros env st token. split.
  - intros Hq Hnone. unfold removeToken, try_catch.
    erewrite bind_ok.
    2:{ unfold deleteOneToken. rewrite (io_quiet _ _ _ _ Hq).
        change (fcm (log (EvTokDeleteMany [token]) st)) with (fcm st).
        fold (holds_token token). rewrite (removeFirst_absent _ _ Hnone).
        reflexivity. }
    simpl. destruct st; reflexivity.
  - intros e Hfault Hdb. unfold removeToken, try_catch.
    erewrite bind_throw
      by (unfold deleteOneToken; rewrite (io_fault _ _ _ _ _ Hfault); reflexivity).
    now rewrite Hdb.
Qed.

Lemma removeToken_not_found_or_failed_witness :
  removeToken (js "token-x") quietEnv threeTokens
    = (Throw (notFoundError "FCM token not found"),
       log (EvTokDeleteMany [js "token-x"]) threeTokens)
  /\ removeToken (js "token-a")
       (mkEnv (faultAt 0 dbDown) (fun _ _ => mkBatch [] 0 0) 0 documentMembers) threeTokens
     = (Throw (jsError "Failed to remove FCM token: connection lost"),
        log (EvTokDeleteMany [js "token-a"]) threeTokens).
Proof.
  split.
  - exact (proj1 (removeToken_not_found_or_failed quietEnv threeTokens (js "token-x"))
                 eq_refl eq_refl).
  - exact (proj2 (removeToken_not_found_or_failed
                    (mkEnv (faultAt 0 dbDown) (fun _ _ => mkBatch [] 0 0) 0 documentMembers)
                    threeTokens (js "token-a")) dbDown eq_refl eq_refl).
Defined.

(** X19. removeToken of a token string held by a document of a collection
    with unique token strings, when the delete does not throw: the call
    returns, that one document is gone, every other document is unchanged,
    and a second removeToken of the same string answers not found. *)
Theorem removeToken_removes_exactly_that_token :
  forall env st token d,
    NoDup (List.map tok_token (fcm st)) ->
    In d (fcm st) ->
    tok_token d = token ->
    faults env (List.length (trace st)) = None ->
    exists st',
      removeToken token env st = (Ok tt, st') /\
      (forall x, In x (fcm st') <-> In x (fcm st) /\ x <> d) /\
      S (List.length (fcm st')) = List.length (fcm st) /\
      forall env2,
        faults env2 (List.length (trace st')) = None ->
        fst (removeToken token env2 st') = Throw (notFoundError "FCM token not found").
Proof.
  intros env st token d Hnd Hin Htok Hq.
  set (rest := filter (fun x => negb (holds_token token x)) (fcm st)).
  assert (Hrun : removeToken token env st
                 = (Ok tt, set_fcm rest (log (EvTokDeleteMany [token]) st))).
  { unfold removeToken, try_catch.
    erewrite bind_ok.
    2:{ unfold deleteOneToken. rewrite (io_quiet _ _ _ _ Hq).
        change (fcm (log (EvTokDeleteMany [token]) st)) with (fcm st).
        rewrite (removeFirst_unique token (fcm st) d Hnd Hin Htok). reflexivity. }
    reflexivity. }
  assert (Hrest : forall x, In x rest <-> In x (fcm st) /\ x <> d).
  { intros x. unfold rest. rewrite filter_In, negb_true_iff. split.
    - intros [Hx Hh]. split; [exact Hx|]. intros ->.
      apply holds_token_eq in Htok. congruence.
    - intros [Hx Hne]. split; [exact Hx|].
      destruct (holds_token token x) eqn:E; [|reflexivity].
      apply holds_token_eq in E. exfalso. apply Hne.
      apply (NoDup_map_inj tok_token (fcm st)); auto. congruence. }
  eexists. split; [exact Hrun|]. simpl. split; [exact Hrest|]. split.
  - unfold rest. clear Hrun Hrest rest Hq. revert Hnd Hin.
    induction (fcm st) as [|a l IH]; simpl; intros Hnd Hin; [destruct Hin|].
    inversion Hnd as [|? ? Ha Hl]; subst.
    destruct (holds_token (tok_token d) a) eqn:E; simpl.
    + f_equal. f_equal. apply filter_all. intros x Hx.
      apply negb_true_iff. destruct (holds_token (tok_token d) x) eqn:Ex; [|reflexivity].
      apply holds_token_eq in E, Ex. exfalso. apply Ha. rewrite E, <- Ex. now apply in_map.
    + destruct Hin as [->|Hin].
      * unfold holds_token in E. rewrite str_eqb_refl in E. discriminate.
      * f_equal. now apply IH.
  - intros env2 Hq2.
    assert (Hgone : find (holds_token token) rest = None).
    { apply find_none_iff. intros x Hx. unfold rest in Hx.
      apply filter_In in Hx as [_ Hx]. now apply negb_true_iff. }
    unfold removeToken, try_catch.
    erewrite bind_ok.
    2:{ unfold deleteOneToken.
        rewrite (io_quiet _ _ env2 (set_fcm rest (log (EvTokDeleteMany [token]) st)) Hq2).
        cbn [fcm set_fcm log]. fold (holds_token token).
        rewrite (removeFirst_absent _ _ Hgone). reflexivity. }
    reflexivity.
Qed.

Lemma removeToken_removes_exactly_that_token_witness :
  exists st',
    removeToken (js "token-b") quietEnv threeTokens = (Ok tt, st') /\
    (forall x, In x (fcm st') <-> In x (fcm threeTokens) /\ x <> tokB) /\
    S (List.length (fcm st')) = 4 /\
    forall env2,
      faults env2 (List.length (trace st')) = None ->
      fst (removeToken (js "token-b") env2 st') = Throw (notFoundError "FCM token not found").
Proof.
  apply (removeToken_removes_exactly_that_token quietEnv threeTokens (js "token-b") tokB).
  - exact (proj1 threeTokens_wf).
  - right. right. right. left. reflexivity.
  - reflexivity.
  - reflexivity.
Defined.

(** ** The two send handlers *)

Lemma orZero_id (n : nat) : orZero n = n.
Proof. unfold orZero. destruct n; reflexivity. Qed.

Lemma dispatchLoop_is_sendLoop (notification : Payload) (env : Env) :
  forall targets st totalSent totalFailed,
    dispatchLoop targets notification totalSent totalFailed env st
      = sendLoop targets notification totalSent totalFailed env st.
Proof.
  induction targets as [|uid rest IH]; intros st totalSent totalFailed; [reflexivity|].
  simpl. unfold bind at 1 3. unfold try_catch, bind.
  destruct (sendPushNotification uid notification env st) as [[r|e] st1].
  - unfold ret. rewrite !orZero_id. apply IH.
  - unfold ret. apply IH.
Qed.

Lemma well_formed_send_guard (body : SendBody) :
  well_formed_send body = true ->
  is_nil (targetUsers body) || negb (truthy (notificationType body))
  || negb (truthy (b_title body)) || negb (truthy (b_body body)) = false.
Proof.
  unfold well_formed_send. intros H.
  apply andb_true_iff in H as [H Hb]. apply andb_true_iff in H as [H Ht].
  apply andb_true_iff in H as [Hn Hty]. apply negb_true_iff in Hn.
  now rewrite Hn, Hty, Ht, Hb.
Qed.

(** X20. A request that passes the validation of sendNotification is
    answered like a batch over its targets: the handler never answers an
    error, its store is the one sendToMultipleUsers leaves for the same
    targets and payload, its sent and failed counts are those of the batch
    (a target whose dispatch throws counts as one failure), and its success
    flag is sent > 0. *)
Theorem sendNotification_is_a_batch :
  forall env st body,
    well_formed_send body = true ->
    exists b st',
      sendToMultipleUsers (targetUsers body) (payloadOf body) env st = (Ok b, st') /\
      sendNotification body env st
        = (Ok (Json (0 <? b_sent b)%nat (b_sent b) (b_failed b)), st').
Proof.
  intros env st body Hwf.
  eexists. eexists. split.
  - unfold sendToMultipleUsers, bind. rewrite sendLoop_sums. reflexivity.
  - unfold sendNotification, try_catch.
    rewrite (well_formed_send_guard body Hwf).
    fold (payloadOf body).
    unfold bind. rewrite dispatchLoop_is_sendLoop, sendLoop_sums. reflexivity.
Qed.

Lemma sendNotification_is_a_batch_witness :
  exists b st',
    sendToMultipleUsers [VStr (js "u1")] samplePayload (mixedEnv noFaults) threeTokens
      = (Ok b, st') /\
    sendNotification
      (mkSendBody (VStr (js "u1")) VUndefined (VStr (js "task_assigned")) VUndefined
                  (VStr (js "New task")) (VStr (js "You have a new task"))
                  VUndefined VUndefined)
      (mixedEnv noFaults) threeTokens
      = (Ok (Json (0 <? b_sent b)%nat (b_sent b) (b_failed b)), st').
Proof.
  exact (sendNotification_is_a_batch (mixedEnv noFaults) threeTokens
           (mkSendBody (VStr (js "u1")) VUndefined (VStr (js "task_assigned")) VUndefined
                       (VStr (js "New task")) (VStr (js "You have a new task"))
                       VUndefined VUndefined)
           eq_refl).
Defined.

(** X21. sendNotification does not reject a request without a target: when
    recipients is not an array and userId is missing, blank or not a string,
    while type, title and body are present, the target list is the
    one-element list of that userId, the validation passes, and the handler
    answers success false with sent 0 and failed 0, without any I/O. *)
Theorem sendNotification_without_target :
  forall env st body,
    isArray (b_recipients body) = false ->
    unidentified (b_userId body) = true ->
    truthy (notificationType body) = true ->
    truthy (b_title body) = true ->
    truthy (b_body body) = true ->
    sendNotification body env st = (Ok (Json false 0 0), st).
Proof.
  intros env st body Harr Hid Hty Ht Hb.
  assert (Htargets : targetUsers body = [b_userId body]).
  { unfold targetUsers. now rewrite Harr, andb_false_r. }
  unfold sendNotification, try_catch.
  rewrite Htargets, Hty, Ht, Hb.
  change (is_nil [b_userId body] || negb true || negb true || negb true) with false.
  cbv beta iota.
  assert (Hsend : forall n, sendPushNotification (b_userId body) n env st
                            = (Ok (mkSendResult true 0 0), st)).
  { intros n. unfold sendPushNotification, try_catch, bind.
    now rewrite (shouldSend_rejects env st _ _ _ (as_userId_unidentified _ Hid)). }
  cbn [dispatchLoop]. unfold bind, try_catch. cbv beta. rewrite Hsend. reflexivity.
Qed.

Lemma sendNotification_without_target_witness :
  sendNotification noTarget (deliverAll noFaults) threeTokens
    = (Ok (Json false 0 0), threeTokens).
Proof.
  exact (sendNotification_without_target (deliverAll noFaults) threeTokens noTarget
           eq_refl eq_refl eq_refl eq_refl eq_refl).
Defined.

(** X22. sendBatchNotification: a userIds value that is missing, not an
    array or an empty array is answered with status 400 "userIds array is
    required"; a missing type tag, title or body with status 400 and the
    other message; both without any I/O.  Every other request is answered
    with success and the total, sent and failed counts of
    sendToMultipleUsers over the array, total being its length. *)
Theorem sendBatchNotification_answers :
  forall env st body,
    (isArray (bb_userIds body) = false \/ items (bb_userIds body) = [] ->
     sendBatchNotification body env st = (Ok (BatchErrorJson 400 userIdsRequired), st))
    /\ (isArray (bb_userIds body) = true -> items (bb_userIds body) <> [] ->
        truthy (or_else (bb_type body) (bb_eventKey body)) = false \/
        truthy (bb_title body) = false \/ truthy (bb_body body) = false ->
        sendBatchNotification body env st
          = (Ok (BatchErrorJson 400 typeTitleBodyRequired), st))
    /\ (isArray (bb_userIds body) = true -> items (bb_userIds body) <> [] ->
        truthy (or_else (bb_type body) (bb_eventKey body)) = true ->
        truthy (bb_title body) = true -> truthy (bb_body body) = true ->
        let outcomes :=
          fst (runEach (items (bb_userIds body)) (batchPayloadOf body) env st) in
        sendBatchNotification body env st
          = (Ok (BatchJson (List.length (items (bb_userIds body)))
                           (list_sum (List.map sentOf outcomes))
                           (list_sum (List.map failedOf outcomes))),
             snd (runEach (items (bb_userIds body)) (batchPayloadOf body) env st))).
Proof.
  intros env st body.
  assert (Harr : isArray (bb_userIds body) = true -> truthy (bb_userIds body) = true)
    by (destruct (bb_userIds body); simpl; congruence).
  split; [|split].
  - intros H. unfold sendBatchNotification, try_catch.
    assert (Hguard : negb (truthy (bb_userIds body)) || negb (isArray (bb_userIds body))
                     || is_nil (items (bb_userIds body)) = true).
    { destruct H as [H|H]; rewrite H; simpl; rewrite ?orb_true_r; reflexivity. }
    now rewrite Hguard.
  - intros Ha Hne H. unfold sendBatchNotification, try_catch.
    assert (Hg1 : negb (truthy (bb_userIds body)) || negb (isArray (bb_userIds body))
                  || is_nil (items (bb_userIds body)) = false).
    { rewrite (Harr Ha), Ha. destruct (items (bb_userIds body)); [congruence|reflexivity]. }
    rewrite Hg1.
    assert (Hguard : negb (truthy (or_else (bb_type body) (bb_eventKey body)))
                     || negb (truthy (bb_title body)) || negb (truthy (bb_body body)) = true).
    { destruct H as [H|[H|H]]; rewrite H; simpl; rewrite ?orb_true_r; reflexivity. }
    now rewrite Hguard.
  - intros Ha Hne Hty Ht Hb outcomes. subst outcomes.
    unfold sendBatchNotification, try_catch.
    assert (Hg1 : negb (truthy (bb_userIds body)) || negb (isArray (bb_userIds body))
                  || is_nil (items (bb_userIds body)) = false).
    { rewrite (Harr Ha), Ha. destruct (items (bb_userIds body)); [congruence|reflexivity]. }
    assert (Hg2 : negb (truthy (or_else (bb_type body) (bb_eventKey body)))
                  || negb (truthy (bb_title body)) || negb (truthy (bb_body body)) = false)
      by now rewrite Hty, Ht, Hb.
    rewrite Hg1, Hg2. fold (batchPayloadOf body).
    unfold sendToMultipleUsers, bind. rewrite sendLoop_sums. reflexivity.
Qed.

Lemma sendBatchNotification_answers_witness :
  sendBatchNotification
    (mkBatchBody (VStr (js "a")) (VStr (js "t")) VUndefined (VStr (js "T"))
                 (VStr (js "B")) VUndefined VUndefined)
    (deliverAll noFaults) abcStore
    = (Ok (BatchErrorJson 400 userIdsRequired), abcStore)
  /\ sendBatchNotification
       (mkBatchBody (VArr [VStr (js "a")]) VUndefined VUndefined (VStr (js "T"))
                    (VStr (js "B")) VUndefined VUndefined)
       (deliverAll noFaults) abcStore
     = (Ok (BatchErrorJson 400 typeTitleBodyRequired), abcStore)
  /\ fst (sendBatchNotification abcBatch (deliverAll (faultAt 5 dbDown)) abcStore)
     = Ok (BatchJson 3 2 1).
Proof.
  split; [|split].
  - exact (proj1 (sendBatchNotification_answers (deliverAll noFaults) abcStore
                    (mkBatchBody (VStr (js "a")) (VStr (js "t")) VUndefined (VStr (js "T"))
                                 (VStr (js "B")) VUndefined VUndefined))
                 (or_introl eq_refl)).
  - exact (proj1 (proj2 (sendBatchNotification_answers (deliverAll noFaults) abcStore
                           (mkBatchBody (VArr [VStr (js "a")]) VUndefined VUndefined
                                        (VStr (js "T")) (VStr (js "B"))
                                        VUndefined VUndefined)))
                 eq_refl
                 (fun H : [VStr (js "a")] = [] =>
                    match H in _ = x return match x with [] => False | _ :: _ => True end
                    with eq_refl => I end)
                 (or_introl eq_refl)).
  - exact (f_equal fst
             (proj2 (proj2 (sendBatchNotification_answers
                              (deliverAll (faultAt 5 dbDown)) abcStore abcBatch))
                    eq_refl
                    (fun H : [VStr (js "a"); VStr (js "b"); VStr (js "c")] = [] =>
                       match H in _ = x return
                             match x with [] => False | _ :: _ => True end
                       with eq_refl => I end)
                    eq_refl eq_refl eq_refl)).
Defined.

(** * Properties of the in-app notifications *)

Section InAppProperties.
Import InApp.

Lemma call_calm {A} (act : World -> Db -> Result A * Db) (w : World) (db : Db) :
  breaks w (calls db) = None -> call act w db = act w (counted db).
Proof. intros H. unfold call. now rewrite H. Qed.

Lemma call_broken {A} (act : World -> Db -> Result A * Db) (w : World) (db : Db)
    (e : Exn) :
  breaks w (calls db) = Some e -> call act w db = (Throw e, counted db).
Proof. intros H. unfold call. now rewrite H. Qed.

Lemma unreadOf_app (userId : jstring) (a b : list Note) :
  unreadOf userId (a ++ b) = unreadOf userId a + unreadOf userId b.
Proof. unfold unreadOf. now rewrite filter_app, length_app. Qed.

Lemma getUnread_calm (userId : jstring) (w : World) (db : Db) :
  breaks w (calls db) = None ->
  getUnreadNotificationCount userId w db
    = (Ok (unreadOf userId (notes db)), counted db).
Proof.
  intros H. unfold getUnreadNotificationCount, try_catch, bind, NotesDb.countDocuments.
  now rewrite (call_calm _ w db H).
Qed.

(** X23. createInAppNotification with a user, a title and a body that are
    not empty appends exactly one notification to the collection: it belongs
    to that user, is unread with no read date, has the type info when none
    was given, expires at the date the pre-save hook computes, and a count of
    unread notifications taken afterwards is one higher for that user and
    as before for everybody else. *)
Theorem created_notification_is_unread :
  forall w w' db data,
    breaks w (calls db) = None ->
    is_empty (d_userId data) = false ->
    is_empty (d_title data) = false ->
    is_empty (d_body data) = false ->
    exists n,
      createInAppNotification data w db
        = (Ok n, mkDb (notes db ++ [n]) (S (fresh db)) (S (calls db)))
      /\ note_id n = fresh db
      /\ note_userId n = d_userId data
      /\ note_read n = false /\ note_readAt n = None
      /\ (d_type data = None -> note_type n = TInfo)
      /\ note_expiresAt n = Some (thirtyDaysFromNow w)
      /\ (breaks w' (S (calls db)) = None ->
          forall userId,
            fst (getUnreadNotificationCount userId w'
                   (mkDb (notes db ++ [n]) (S (fresh db)) (S (calls db))))
            = Ok (unreadOf userId (notes db)
                  + if str_eqb (d_userId data) userId then 1 else 0)).
Proof.
  intros w w' db data Hcalm Hu Ht Hb.
  unfold createInAppNotification, try_catch, bind, NotesDb.create.
  rewrite (call_calm _ w db Hcalm), Hu, Ht, Hb. simpl.
  eexists. split; [reflexivity|]. simpl.
  repeat split; try reflexivity.
  - intros ->. reflexivity.
  - intros Hcalm' userId. rewrite getUnread_calm by exact Hcalm'. simpl.
    rewrite unreadOf_app. do 2 f_equal. unfold unreadOf. simpl. unfold matches. simpl.
    destruct (str_eqb (d_userId data) userId); reflexivity.
Qed.

Lemma created_notification_is_unread_witness :
  exists n,
    createInAppNotification welcome (calmWorld 100 101) inbox
      = (Ok n, mkDb (notes inbox ++ [n]) 4 1)
    /\ note_id n = 3
    /\ note_userId n = js "u1"
    /\ note_read n = false /\ note_readAt n = None
    /\ (d_type welcome = None -> note_type n = TInfo)
    /\ note_expiresAt n = Some 2592000100%Z
    /\ (breaks (calmWorld 200 201) 1 = None ->
        forall userId,
          fst (getUnreadNotificationCount userId (calmWorld 200 201)
                 (mkDb (notes inbox ++ [n]) 4 1))
          = Ok (unreadOf userId (notes inbox)
                + if str_eqb (js "u1") userId then 1 else 0)).
Proof.
  exact (created_notification_is_unread (calmWorld 100 101) (calmWorld 200 201)
           inbox welcome eq_refl eq_refl eq_refl eq_refl).
Defined.

(** ** Marking as read *)

Lemma matches_unread_inv (userId : jstring) (n : Note) :
  matches userId (Some false) n = true ->
  note_userId n = userId /\ note_read n = false.
Proof.
  unfold matches. intros H. apply andb_true_iff in H as [Hu Hr].
  apply str_eqb_eq in Hu. split; [exact Hu|]. now destruct (note_read n).
Qed.

Lemma matches_markRead (userId : jstring) (readAt updatedAt : Z) (n : Note) :
  matches userId (Some false) (markRead readAt updatedAt n) = false.
Proof. unfold matches. simpl. apply andb_false_r. Qed.

Lemma modified_unread (userId : jstring) (readAt updatedAt : Z) (l : list Note) :
  list_sum (List.map (modified readAt updatedAt)
                     (filter (matches userId (Some false)) l))
  = unreadOf userId l.
Proof.
  unfold unreadOf. induction l as [|n l IH]; simpl; [reflexivity|].
  destruct (matches userId (Some false) n) eqn:Hm; [|exact IH].
  apply matches_unread_inv in Hm as [_ Hr]. simpl.
  unfold modified at 1, unchanged. rewrite Hr. simpl. now rewrite IH.
Qed.

(** X24. markAllInAppNotificationsAsRead, when the database answers,
    returns the number of notifications of the user that were unread, and
    afterwards the user has none: a count taken next answers 0.  The
    notifications of other users are left as they were, and no
    notification is added or removed. *)
Theorem markAll_clears_the_users_unread :
  forall w w' db userId,
    breaks w (calls db) = None ->
    exists db',
      markAllInAppNotificationsAsRead userId w db
        = (Ok (unreadOf userId (notes db)), db')
      /\ (breaks w' (calls db') = None ->
          fst (getUnreadNotificationCount userId w' db') = Ok 0)
      /\ foreign userId (notes db') = foreign userId (notes db)
      /\ List.map note_id (notes db') = List.map note_id (notes db).
Proof.
  intros w w' db userId Hcalm.
  unfold markAllInAppNotificationsAsRead, try_catch, bind, now, NotesDb.updateMany.
  rewrite (call_calm _ w db Hcalm). simpl.
  rewrite modified_unread.
  eexists. split; [reflexivity|].
  unfold set_notes. simpl. split; [|split].
  - intros Hcalm'. rewrite getUnread_calm by exact Hcalm'. simpl. f_equal.
    unfold unreadOf. induction (notes db) as [|n l IH]; simpl; [reflexivity|].
    destruct (matches userId (Some false) n) eqn:Hm.
    + now rewrite matches_markRead.
    + now rewrite Hm.
  - unfold foreign. induction (notes db) as [|n l IH]; simpl; [reflexivity|].
    destruct (matches userId (Some false) n) eqn:Hm.
    + apply matches_unread_inv in Hm as [Hu _]. simpl. rewrite Hu, str_eqb_refl.
      simpl. exact IH.
    + now rewrite IH.
  - induction (notes db) as [|n l IH]; simpl; [reflexivity|].
    rewrite IH. now destruct (matches userId (Some false) n).
Qed.

Lemma markAll_clears_the_users_unread_witness :
  exists db',
    markAllInAppNotificationsAsRead (js "u1") (calmWorld 100 101) inbox = (Ok 1, db')
    /\ (breaks (calmWorld 200 201) (calls db') = None ->
        fst (getUnreadNotificationCount (js "u1") (calmWorld 200 201) db') = Ok 0)
    /\ foreign (js "u1") (notes db') = foreign (js "u1") (notes inbox)
    /\ List.map note_id (notes db') = List.map note_id (notes inbox).
Proof.
  exact (markAll_clears_the_users_unread (calmWorld 100 101) (calmWorld 200 201)
           inbox (js "u1") eq_refl).
Defined.

(** ** One notification: marking and deleting *)

Lemma is_note_inv (id : nat) (userId : jstring) (n : Note) :
  is_note id userId n = true <-> note_id n = id /\ note_userId n = userId.
Proof.
  unfold is_note. rewrite andb_true_iff, Nat.eqb_eq, str_eqb_eq. tauto.
Qed.

Lemma not_own_no_match (id : nat) (userId : jstring) (l : list Note) :
  (forall n, In n l -> note_id n = id -> note_userId n <> userId) ->
  forall n, In n l -> is_note id userId n = false.
Proof.
  intros H n Hin. destruct (is_note id userId n) eqn:E; [|reflexivity].
  apply is_note_inv in E as [Hid Hu]. now destruct (H n Hin Hid).
Qed.

Lemma updateFirst_no_match (f : Note -> bool) (readAt updatedAt : Z) (l : list Note) :
  (forall n, In n l -> f n = false) ->
  updateFirst f readAt updatedAt l = (l, 0).
Proof.
  induction l as [|x l IH]; simpl; intros H; [reflexivity|].
  rewrite (H x (or_introl eq_refl)), IH; [reflexivity|].
  intros n Hn. apply H. now right.
Qed.

Lemma removeFirst_no_match {A} (f : A -> bool) (l : list A) :
  (forall n, In n l -> f n = false) -> removeFirst f l = (l, 0).
Proof.
  induction l as [|x l IH]; simpl; intros H; [reflexivity|].
  rewrite (H x (or_introl eq_refl)), IH; [reflexivity|].
  intros n Hn. apply H. now right.
Qed.

Lemma map_other_ids (id : nat) (g : Note -> Note) (l : list Note) :
  ~ In id (List.map note_id l) ->
  List.map (fun m => if (note_id m =? id)%nat then g m else m) l = l.
Proof.
  induction l as [|x l IH]; simpl; intros H; [reflexivity|].
  destruct (note_id x =? id)%nat eqn:E.
  - apply Nat.eqb_eq in E. destruct H. now left.
  - rewrite IH; [reflexivity|]. intros Hin. apply H. now right.
Qed.

Lemma filter_other_ids (id : nat) (l : list Note) :
  ~ In id (List.map note_id l) ->
  filter (fun m => negb (note_id m =? id)%nat) l = l.
Proof.
  induction l as [|x l IH]; simpl; intros H; [reflexivity|].
  destruct (note_id x =? id)%nat eqn:E.
  - apply Nat.eqb_eq in E. destruct H. now left.
  - simpl. rewrite IH; [reflexivity|]. intros Hin. apply H. now right.
Qed.

Lemma updateFirst_own (id : nat) (userId : jstring) (readAt updatedAt : Z)
    (l : list Note) (n : Note) :
  NoDup (List.map note_id l) -> In n l ->
  note_id n = id -> note_userId n = userId ->
  updateFirst (is_note id userId) readAt updatedAt l
    = (List.map (fun m => if (note_id m =? id)%nat
                          then markRead readAt updatedAt m else m) l,
       modified readAt updatedAt n).
Proof.
  intros Hnd Hin Hid Hu. induction l as [|x l IH]; [destruct Hin|].
  simpl in Hnd. inversion Hnd as [|? ? Hx Hl]; subst.
  simpl. destruct Hin as [-> | Hin].
  - assert (E : is_note (note_id n) (note_userId n) n = true) by now apply is_note_inv.
    rewrite E, Nat.eqb_refl. now rewrite map_other_ids.
  - assert (Hne : note_id x <> note_id n).
    { intros E. apply Hx. rewrite E. now apply in_map. }
    assert (E : is_note (note_id n) (note_userId n) x = false).
    { destruct (is_note (note_id n) (note_userId n) x) eqn:E; [|reflexivity].
      apply is_note_inv in E as [E _]. contradiction. }
    rewrite E. apply Nat.eqb_neq in Hne. rewrite Hne.
    now rewrite (IH Hl Hin).
Qed.

Lemma removeFirst_own (id : nat) (userId : jstring) (l : list Note) (n : Note) :
  NoDup (List.map note_id l) -> In n l ->
  note_id n = id -> note_userId n = userId ->
  removeFirst (is_note id userId) l
    = (filter (fun m => negb (note_id m =? id)%nat) l, 1).
Proof.
  intros Hnd Hin Hid Hu. induction l as [|x l IH]; [destruct Hin|].
  simpl in Hnd. inversion Hnd as [|? ? Hx Hl]; subst.
  simpl. destruct Hin as [-> | Hin].
  - assert (E : is_note (note_id n) (note_userId n) n = true) by now apply is_note_inv.
    rewrite E, Nat.eqb_refl. simpl. now rewrite filter_other_ids.
  - assert (Hne : note_id x <> note_id n).
    { intros E. apply Hx. rewrite E. now apply in_map. }
    assert (E : is_note (note_id n) (note_userId n) x = false).
    { destruct (is_note (note_id n) (note_userId n) x) eqn:E; [|reflexivity].
      apply is_note_inv in E as [E _]. contradiction. }
    rewrite E. apply Nat.eqb_neq in Hne. rewrite Hne. simpl.
    now rewrite (IH Hl Hin).
Qed.

Lemma unreadOf_after_mark (userId : jstring) (readAt updatedAt : Z) (l : list Note)
    (n : Note) :
  NoDup (List.map note_id l) -> In n l ->
  note_userId n = userId -> note_read n = false ->
  unreadOf userId
    (List.map (fun m => if (note_id m =? note_id n)%nat
                        then markRead readAt updatedAt m else m) l) + 1
  = unreadOf userId l.
Proof.
  intros Hnd Hin Hu Hr. induction l as [|x l IH]; [destruct Hin|].
  simpl in Hnd. inversion Hnd as [|? ? Hx Hl]; subst.
  change (x :: l) with ([x] ++ l). rewrite map_app, !unreadOf_app.
  destruct Hin as [-> | Hin].
  - rewrite (map_other_ids (note_id n) _ l Hx). simpl. rewrite Nat.eqb_refl.
    unfold unreadOf at 1 3. simpl. rewrite matches_markRead.
    unfold matches. rewrite str_eqb_refl, Hr. simpl. lia.
  - assert (Hne : note_id x <> note_id n).
    { intros E. apply Hx. rewrite E. now apply in_map. }
    apply Nat.eqb_neq in Hne. simpl. rewrite Hne.
    specialize (IH Hl Hin). lia.
Qed.

(** X25. markInAppNotificationAsRead touches a notification only for its
    owner.  With a well-formed id and the database answering: when no
    notification with that id belongs to the user (none exists, or it is
    somebody else's), the answer is false and the collection is left as it
    was; when the user owns it, exactly that notification is marked read with
    the read date of the call (the collection then holds it with read true,
    that read date, the new updatedAt and its other fields as they were), the
    answer is whether the stored document changed, and for an unread notification it is true and the user has one
    unread notification less. *)
Theorem markAsRead_only_for_the_owner :
  forall w db notificationId userId id,
    breaks w (calls db) = None ->
    castObjectId w notificationId = Ok id ->
    NoDup (List.map note_id (notes db)) ->
    ((forall n, In n (notes db) -> note_id n = id -> note_userId n <> userId) ->
     markInAppNotificationAsRead notificationId userId w db = (Ok false, counted db))
    /\ (forall n, In n (notes db) -> note_id n = id -> note_userId n = userId ->
        exists db',
          markInAppNotificationAsRead notificationId userId w db
            = (Ok (negb (unchanged (today w) (stamp w) n)), db')
          /\ notes db' = List.map (fun m => if (note_id m =? id)%nat
                                            then markRead (today w) (stamp w) m else m)
                                  (notes db)
          /\ In (mkNote (note_id n) (note_userId n) (note_title n) (note_body n)
                        (note_type n) (note_category n) true (Some (today w))
                        (note_data n) (note_expiresAt n) (note_createdAt n) (stamp w))
                (notes db')
          /\ (note_read n = false ->
              negb (unchanged (today w) (stamp w) n) = true
              /\ unreadOf userId (notes db') + 1 = unreadOf userId (notes db))).
Proof.
  intros w db notificationId userId id Hcalm Hcast Hnd.
  unfold markInAppNotificationAsRead, try_catch, bind, now, NotesDb.updateOne.
  rewrite (call_calm _ w db Hcalm), Hcast. split.
  - intros Hforeign.
    rewrite (updateFirst_no_match _ _ _ (notes (counted db))
               (not_own_no_match id userId _ Hforeign)).
    unfold set_notes. destruct db; reflexivity.
  - intros n Hin Hid Hu.
    rewrite (updateFirst_own id userId (today w) (stamp w) (notes (counted db)) n
               Hnd Hin Hid Hu).
    eexists. split; [|split; [|split]].
    + unfold ret, modified. destruct (unchanged (today w) (stamp w) n); reflexivity.
    + reflexivity.
    + simpl. apply in_map_iff. exists n. split; [|exact Hin].
      replace (note_id n =? id)%nat with true
        by (symmetry; apply Nat.eqb_eq; exact Hid).
      reflexivity.
    + intros Hr. split.
      * unfold unchanged. now rewrite Hr.
      * simpl. rewrite <- Hid. now apply unreadOf_after_mark.
Qed.

Lemma markAsRead_only_for_the_owner_witness :
  markInAppNotificationAsRead (js "n2") (js "u1") (calmWorld 100 101) inbox
    = (Ok false, counted inbox)
  /\ exists db',
       markInAppNotificationAsRead (js "n1") (js "u1") (calmWorld 100 101) inbox
         = (Ok true, db')
       /\ unreadOf (js "u1") (notes db') + 1 = unreadOf (js "u1") (notes inbox).
Proof.
  split.
  - refine (proj1 (markAsRead_only_for_the_owner (calmWorld 100 101) inbox (js "n2")
                     (js "u1") 2 eq_refl eq_refl _) _).
    + repeat constructor; simpl; intuition discriminate.
    + simpl. intros n [<- | [<- | [<- | []]]]; simpl; intros; discriminate.
  - destruct (proj2 (markAsRead_only_for_the_owner (calmWorld 100 101) inbox (js "n1")
                       (js "u1") 1 eq_refl eq_refl
                       ltac:(repeat constructor; simpl; intuition discriminate))
                    (noteOf 1 "u1" false 20) ltac:(simpl; tauto) eq_refl eq_refl)
      as (db' & Hrun & _ & _ & Hunread).
    exists db'. split; [exact Hrun|]. exact (proj2 (Hunread eq_refl)).
Defined.

(** X26. deleteInAppNotification removes a notification only for its
    owner.  With a well-formed id and the database answering: when no
    notification with that id belongs to the user, the answer is false and
    the collection is left as it was; when the user owns it, the answer is
    true, that notification is gone and every other one is kept, in order. *)
Theorem delete_only_for_the_owner :
  forall w db notificationId userId id,
    breaks w (calls db) = None ->
    castObjectId w notificationId = Ok id ->
    NoDup (List.map note_id (notes db)) ->
    ((forall n, In n (notes db) -> note_id n = id -> note_userId n <> userId) ->
     deleteInAppNotification notificationId userId w db = (Ok false, counted db))
    /\ (forall n, In n (notes db) -> note_id n = id -> note_userId n = userId ->
        deleteInAppNotification notificationId userId w db
          = (Ok true,
             set_notes (filter (fun m => negb (note_id m =? id)%nat) (notes db))
                       (counted db))).
Proof.
  intros w db notificationId userId id Hcalm Hcast Hnd.
  unfold deleteInAppNotification, try_catch, bind, NotesDb.deleteOne.
  rewrite (call_calm _ w db Hcalm), Hcast. split.
  - intros Hforeign.
    rewrite (removeFirst_no_match _ (notes (counted db))
               (not_own_no_match id userId _ Hforeign)).
    unfold set_notes. destruct db; reflexivity.
  - intros n Hin Hid Hu.
    now rewrite (removeFirst_own id userId (notes (counted db)) n Hnd Hin Hid Hu).
Qed.

Lemma delete_only_for_the_owner_witness :
  deleteInAppNotification (js "n2") (js "u1") (calmWorld 100 101) inbox
    = (Ok false, counted inbox)
  /\ deleteInAppNotification (js "n2") (js "u2") (calmWorld 100 101) inbox
     = (Ok true, mkDb [noteOf 0 "u1" true 10; noteOf 1 "u1" false 20] 3 1).
Proof.
  split.
  - refine (proj1 (delete_only_for_the_owner (calmWorld 100 101) inbox (js "n2")
                     (js "u1") 2 eq_refl eq_refl _) _).
    + repeat constructor; simpl; intuition discriminate.
    + simpl. intros n [<- | [<- | [<- | []]]]; simpl; intros; discriminate.
  - refine (proj2 (delete_only_for_the_owner (calmWorld 100 101) inbox (js "n2")
                     (js "u2") 2 eq_refl eq_refl _)
                  (noteOf 2 "u2" false 30) _ eq_refl eq_refl).
    + repeat constructor; simpl; intuition discriminate.
    + simpl. tauto.
Defined.

(** ** The listing *)

Lemma insertNewest_perm (n : Note) (l : list Note) :
  Permutation (insertNewest n l) (n :: l).
Proof.
  induction l as [|x l IH]; simpl; [apply Permutation_refl|].
  destruct (note_createdAt x <=? note_createdAt n)%Z; [apply Permutation_refl|].
  eapply perm_trans; [apply perm_skip, IH | apply perm_swap].
Qed.

Lemma newestFirst_perm (l : list Note) : Permutation (newestFirst l) l.
Proof.
  induction l as [|x l IH]; simpl; [constructor|].
  eapply perm_trans; [apply insertNewest_perm | now apply perm_skip].
Qed.

Lemma insertNewest_sorted (n : Note) (l : list Note) :
  StronglySorted not_newer l -> StronglySorted not_newer (insertNewest n l).
Proof.
  induction l as [|x l IH]; intros Hs; simpl.
  - repeat constructor.
  - inversion Hs as [|? ? Hl Hx]; subst.
    destruct (note_createdAt x <=? note_createdAt n)%Z eqn:E.
    + apply Z.leb_le in E. constructor; [exact Hs|].
      constructor; [exact E|].
      rewrite Forall_forall in *. intros y Hy. specialize (Hx y Hy).
      unfold not_newer in *. lia.
    + apply Z.leb_gt in E. constructor; [now apply IH|].
      rewrite Forall_forall in *. intros y Hy.
      apply (Permutation_in _ (insertNewest_perm n l)) in Hy.
      destruct Hy as [<- | Hy]; [unfold not_newer; lia | now apply Hx].
Qed.

Lemma newestFirst_sorted (l : list Note) : StronglySorted not_newer (newestFirst l).
Proof.
  induction l as [|x l IH]; simpl; [constructor | now apply insertNewest_sorted].
Qed.

Lemma in_firstn {A} (n : nat) (l : list A) (x : A) : In x (firstn n l) -> In x l.
Proof.
  intros H. rewrite <- (firstn_skipn n l). apply in_or_app. now left.
Qed.

Lemma in_skipn {A} (n : nat) (l : list A) (x : A) : In x (skipn n l) -> In x l.
Proof.
  intros H. rewrite <- (firstn_skipn n l). apply in_or_app. now right.
Qed.

Lemma sorted_firstn {A} (R : A -> A -> Prop) (n : nat) (l : list A) :
  StronglySorted R l -> StronglySorted R (firstn n l).
Proof.
  revert l. induction n as [|n IH]; intros [|x l] Hs; simpl; try constructor.
  - apply IH. now inversion Hs.
  - inversion Hs as [|? ? _ Hx]; subst. rewrite Forall_forall in *.
    intros y Hy. apply Hx. now apply in_firstn in Hy.
Qed.

Lemma sorted_skipn {A} (R : A -> A -> Prop) (n : nat) (l : list A) :
  StronglySorted R l -> StronglySorted R (skipn n l).
Proof.
  revert l. induction n as [|n IH]; intros [|x l] Hs; simpl; try exact Hs.
  apply IH. now inversion Hs.
Qed.

Lemma in_page (limit skip : nat) (l : list Note) (n : Note) :
  In n (page limit skip l) -> In n l.
Proof.
  unfold page. destruct (limit =? 0)%nat; intros H.
  - now apply in_skipn in H.
  - apply in_firstn in H. now apply in_skipn in H.
Qed.

Lemma sorted_page (limit skip : nat) (l : list Note) :
  StronglySorted not_newer l -> StronglySorted not_newer (page limit skip l).
Proof.
  intros H. unfold page. destruct (limit =? 0)%nat.
  - now apply sorted_skipn.
  - now apply sorted_firstn, sorted_skipn.
Qed.

Lemma length_page (limit skip : nat) (l : list Note) :
  0 < limit ->
  List.length (page limit skip l) = Nat.min limit (List.length l - skip).
Proof.
  intros H. unfold page. destruct (limit =? 0)%nat eqn:E.
  - apply Nat.eqb_eq in E. lia.
  - now rewrite length_firstn, length_skipn.
Qed.

(** X27. getInAppNotifications, when the database answers its three reads,
    changes nothing and returns a page of the user's notifications: every
    notification returned is stored, belongs to the user and, when only
    unread ones were asked for, is unread; the page is ordered newest first;
    unreadCount is the number of all unread notifications of the user,
    whatever the filter and the page.  With a limit above 0 the page holds
    at most limit notifications, namely those left after skipping, and
    hasMore tells whether matching notifications follow the page. *)
Theorem listing_is_a_page_of_the_users_notifications :
  forall w db userId limit skip unreadOnly,
    calm w (calls db) 3 ->
    exists r,
      getInAppNotifications userId limit skip unreadOnly w db
        = (Ok r, mkDb (notes db) (fresh db) (3 + calls db))
      /\ unreadCount r = unreadOf userId (notes db)
      /\ (forall n, In n (notifications r) ->
          In n (notes db) /\ note_userId n = userId
          /\ (unreadOnly = true -> note_read n = false))
      /\ StronglySorted not_newer (notifications r)
      /\ (0 < limit ->
          let matching :=
            List.length (filter (matches userId (if unreadOnly then Some false else None))
                                (notes db)) in
          List.length (notifications r) = Nat.min limit (matching - skip)
          /\ hasMore r = (skip + List.length (notifications r) <? matching)%nat).
Proof.
  intros w db userId limit skip unreadOnly Hcalm.
  assert (H0 : breaks w (calls db) = None)
    by (rewrite <- (Nat.add_0_r (calls db)); apply Hcalm; lia).
  assert (H1 : breaks w (S (calls db)) = None)
    by (replace (S (calls db)) with (calls db + 1) by lia; apply Hcalm; lia).
  assert (H2 : breaks w (S (S (calls db))) = None)
    by (replace (S (S (calls db))) with (calls db + 2) by lia; apply Hcalm; lia).
  unfold getInAppNotifications, try_catch, bind,
    NotesDb.countDocuments, NotesDb.find.
  rewrite (call_calm _ w db H0).
  rewrite (call_calm _ w (counted db) H1).
  rewrite (call_calm _ w (counted (counted db)) H2).
  eexists. split; [reflexivity|]. simpl.
  set (q := if unreadOnly then Some false else None).
  split; [reflexivity|]. split; [|split].
  - intros n Hn. apply in_page in Hn.
    apply (Permutation_in _ (newestFirst_perm _)) in Hn.
    apply filter_In in Hn as [Hin Hm]. split; [exact Hin|].
    unfold matches in Hm. apply andb_true_iff in Hm as [Hu Hr].
    apply str_eqb_eq in Hu. split; [exact Hu|].
    intros ->. subst q. simpl in Hr. now destruct (note_read n).
  - apply sorted_page, newestFirst_sorted.
  - intros Hlimit. simpl.
    rewrite (length_page limit skip _ Hlimit).
    rewrite (Permutation_length (newestFirst_perm _)).
    split; [reflexivity|].
    set (total := List.length (filter (matches userId q) (notes db))).
    destruct (Nat.ltb_spec (skip + limit) total) as [Hlt | Hge];
      symmetry; [apply Nat.ltb_lt | apply Nat.ltb_ge]; lia.
Qed.

Lemma listing_is_a_page_of_the_users_notifications_witness :
  exists r,
    getInAppNotifications (js "u1") 1 0 false (calmWorld 100 101) inbox
      = (Ok r, mkDb (notes inbox) 3 3)
    /\ unreadCount r = unreadOf (js "u1") (notes inbox)
    /\ (forall n, In n (notifications r) ->
        In n (notes inbox) /\ note_userId n = js "u1"
        /\ (false = true -> note_read n = false))
    /\ StronglySorted not_newer (notifications r)
    /\ (0 < 1 ->
        let matching :=
          List.length (filter (matches (js "u1") None) (notes inbox)) in
        List.length (notifications r) = Nat.min 1 (matching - 0)
        /\ hasMore r = (0 + List.length (notifications r) <? matching)%nat).
Proof.
  exact (listing_is_a_page_of_the_users_notifications (calmWorld 100 101) inbox
           (js "u1") 1 0 false (fun i _ => eq_refl)).
Defined.

End InAppProperties.

(** * Properties of the middleware *)

Section AuthProperties.
Import Auth.

Lemma strip_prefix (p s rest : jstring) :
  strip p s = Some rest <-> s = p ++ rest.
Proof.
  revert s. induction p as [|x p IH]; intros s; simpl.
  - split; congruence.
  - destruct s as [|y s]; [split; discriminate|].
    destruct (N.eqb_spec x y) as [-> | Hne].
    + rewrite IH. split; congruence.
    + split; [discriminate | congruence].
Qed.

Lemma exec_bearer (header idToken : jstring) :
  exec header = Some idToken <->
  header = js "Bearer " ++ idToken /\ idToken <> []
  /\ forallb (fun c => negb (isLineTerminator c)) idToken = true.
Proof.
  unfold exec. split.
  - destruct (strip (js "Bearer ") header) as [rest|] eqn:E; [|discriminate].
    apply strip_prefix in E.
    destruct (negb (is_empty rest)
              && forallb (fun c => negb (isLineTerminator c)) rest) eqn:G;
      [|discriminate].
    intros H. injection H as <-. apply andb_true_iff in G as [Hne Hline].
    split; [exact E|]. split; [|exact Hline].
    intros ->. discriminate.
  - intros (-> & Hne & Hline).
    rewrite (proj2 (strip_prefix (js "Bearer ") _ idToken) eq_refl), Hline.
    destruct idToken; [congruence | reflexivity].
Qed.

(** X30. authMiddleware lets a request through only with a verified token.
    A request whose method is not OPTIONS reaches [next()] exactly when its
    Authorization header is [Bearer ] followed by a non-empty token without
    line terminator that verifyIdToken accepts, and then [req.user] carries
    the uid of the decoded token; in every other case the middleware answers
    with status 401 itself.  An OPTIONS request reaches [next()] without a
    user, whatever its headers and the verifier. *)
Theorem auth_admits_only_verified_tokens :
  forall verifyIdToken development req,
    (method req = js "OPTIONS" ->
     authMiddleware verifyIdToken development req = Next None)
    /\ (method req <> js "OPTIONS" ->
        (forall user,
           authMiddleware verifyIdToken development req = Next user <->
           exists idToken token,
             authorization req = Some (js "Bearer " ++ idToken)
             /\ idToken <> []
             /\ forallb (fun c => negb (isLineTerminator c)) idToken = true
             /\ verifyIdToken idToken = Ok token
             /\ user = Some (uid token, token))
        /\ (forall status error details,
              authMiddleware verifyIdToken development req = Reply status error details ->
              status = 401%Z)).
Proof.
  intros verifyIdToken development req. split.
  - intros H. unfold authMiddleware. now rewrite H, str_eqb_refl.
  - intros Hm. apply str_eqb_neq in Hm. unfold authMiddleware. rewrite Hm.
    set (header := match authorization req with
                   | Some h => if is_empty h then [] else h
                   | None => []
                   end).
    split.
    + intros user. split.
      * destruct (exec header) as [idToken|] eqn:E; [|discriminate].
        apply exec_bearer in E as (Hh & Hne & Hline).
        destruct (verifyIdToken idToken) as [token|e] eqn:V; [|discriminate].
        intros H. injection H as <-.
        exists idToken, token. repeat split; try assumption.
        subst header. destruct (authorization req) as [h|]; [|discriminate].
        destruct h; [discriminate|]. simpl in Hh. now rewrite Hh.
      * intros (idToken & token & Ha & Hne & Hline & V & ->).
        assert (E : exec header = Some idToken).
        { apply exec_bearer. repeat split; try assumption.
          subst header. rewrite Ha. reflexivity. }
        now rewrite E, V.
    + intros status error details.
      destruct (exec header) as [idToken|]; [|intros H; now injection H].
      destruct (verifyIdToken idToken); [discriminate|].
      intros H. now injection H.
Qed.

Lemma auth_admits_only_verified_tokens_witness :
  authMiddleware verifier false (mkRequest (js "OPTIONS") None) = Next None
  /\ (authMiddleware verifier false (mkRequest (js "GET") (Some (js "Bearer good")))
        = Next (Some (js "u1", alice)) <->
      exists idToken token,
        Some (js "Bearer good") = Some (js "Bearer " ++ idToken)
        /\ idToken <> []
        /\ forallb (fun c => negb (isLineTerminator c)) idToken = true
        /\ verifier idToken = Ok token
        /\ Some (js "u1", alice) = Some (uid token, token))
  /\ (forall status error details,
        authMiddleware verifier false (mkRequest (js "GET") (Some (js "Bearer bad")))
          = Reply status error details ->
        status = 401%Z).
Proof.
  split; [|split].
  - exact (proj1 (auth_admits_only_verified_tokens verifier false
                    (mkRequest (js "OPTIONS") None)) eq_refl).
  - exact (proj1 (proj2 (auth_admits_only_verified_tokens verifier false
                           (mkRequest (js "GET") (Some (js "Bearer good"))))
                        ltac:(discriminate))
                 (Some (js "u1", alice))).
  - exact (proj2 (proj2 (auth_admits_only_verified_tokens verifier false
                           (mkRequest (js "GET") (Some (js "Bearer bad"))))
                        ltac:(discriminate))).
Defined.

End AuthProperties.
